(** * Agentic Interviewer (app.py): a shallow embedding and its properties

    The development follows [src/app.py]: the text helpers the parser is
    built from (Python's [str] methods, the two regular expressions, [int]
    and the [csv] reader in the dialect the parser selects), the question
    parser, the difficulty colours, the question card, the two-phase AI
    chain and the session-cache flow of the page script.

    Conventions.
    - A Python [str] is a [string]; a character is a code point below 256,
      classified exactly as CPython classifies it ([str.isspace], the
      regular-expression classes, [str.lower]).
    - Streamlit calls, the PDF reader and the Gemini client are effects:
      code that performs them lives in the monad [M], which threads the
      session state and a chronological log of the calls made, and ends in
      a value, a Python exception, [st.stop()] or [st.rerun()].
    - Pictographs in user-facing labels are left out of the label texts,
      and the welcome panel is cut to its heading. The page set-up, the
      style sheet and the settings side bar take no part in what is
      proved and are not modelled. *)

From Stdlib Require Import ZArith NArith List String Ascii Lia Bool DecimalString.
From stdpp Require Import base gmap strings list option.

Open Scope string_scope.
Open Scope Z_scope.
Open Scope list_scope.

(** ** Characters *)

Definition LF : ascii := "010"%char.
Definition CR : ascii := "013"%char.
Definition backtick : ascii := "`"%char.
Definition dquote : ascii := "034"%char.
Definition comma : ascii := ","%char.
Definition space : ascii := " "%char.

Definition code (c : ascii) : N := N_of_ascii c.

Definition in_range (lo hi : N) (c : ascii) : bool :=
  ((lo <=? code c) && (code c <=? hi))%N.

(** [str.isspace] on one character, which is also the class [\s] and the
    set [str.strip()] removes. *)
Definition isspace (c : ascii) : bool :=
  in_range 9 13 c || in_range 28 32 c || (code c =? 133)%N || (code c =? 160)%N.

(** The class [\d]: decimal digits. *)
Definition isdecimal (c : ascii) : bool := in_range 48 57 c.

(** The class [\w]: alphanumeric characters and the underscore. *)
Definition isword (c : ascii) : bool :=
  in_range 48 57 c || in_range 65 90 c || (code c =? 95)%N || in_range 97 122 c
  || (code c =? 170)%N || in_range 178 179 c || (code c =? 181)%N
  || in_range 185 186 c || in_range 188 190 c || in_range 192 214 c
  || in_range 216 246 c || in_range 248 255 c.

(** [str.lower] on one character. *)
Definition lower_char (c : ascii) : ascii :=
  if in_range 65 90 c || in_range 192 214 c || in_range 216 222 c
  then ascii_of_N (code c + 32) else c.

(** ** Python [str] methods *)

Fixpoint lower (s : string) : string :=
  match s with
  | EmptyString => EmptyString
  | String c s' => String (lower_char c) (lower s')
  end.

Fixpoint lstrip_chars (p : ascii -> bool) (s : string) : string :=
  match s with
  | EmptyString => EmptyString
  | String c s' => if p c then lstrip_chars p s' else s
  end.

Fixpoint rstrip_chars (p : ascii -> bool) (s : string) : string :=
  match s with
  | EmptyString => EmptyString
  | String c s' =>
      match rstrip_chars p s' with
      | EmptyString => if p c then EmptyString else String c EmptyString
      | r => String c r
      end
  end.

Definition strip_chars (p : ascii -> bool) (s : string) : string :=
  lstrip_chars p (rstrip_chars p s).

(** [s.strip()] *)
Definition strip (s : string) : string := strip_chars isspace s.

(** [s.strip(q)] for [q] the double-quote character *)
Definition strip_quotes (s : string) : string :=
  strip_chars (Ascii.eqb dquote) s.

(** [s.split('\n')]: never empty, one more piece than there are newlines. *)
Fixpoint split_lines (s : string) : list string :=
  match s with
  | EmptyString => [EmptyString]
  | String c s' =>
      if Ascii.eqb c LF then EmptyString :: split_lines s'
      else match split_lines s' with
           | [] => [String c EmptyString]
           | l :: ls => String c l :: ls
           end
  end.

(** ['\n'.join(ls)] *)
Fixpoint join_lines (ls : list string) : string :=
  match ls with
  | [] => EmptyString
  | [l] => l
  | l :: ls' => l +:+ String LF (join_lines ls')
  end.

(** ** The two regular expressions *)

Fixpoint count_prefix (p : ascii -> bool) (s : string) : nat :=
  match s with
  | String c s' => if p c then S (count_prefix p s') else O
  | EmptyString => O
  end.

Fixpoint drop (n : nat) (s : string) : string :=
  match n, s with
  | S n', String _ s' => drop n' s'
  | _, _ => s
  end.

(** Length of the match of [```\w*\n?] at the start of [s], if any. Both
    quantifiers are greedy and nothing follows them, so the match is the
    three backticks, the longest run of word characters, and one newline
    when it comes next. *)
Definition match_fence (s : string) : option nat :=
  match s with
  | String a (String b (String c rest)) =>
      if Ascii.eqb a backtick && Ascii.eqb b backtick && Ascii.eqb c backtick then
        let w := count_prefix isword rest in
        match drop w rest with
        | String d _ => if Ascii.eqb d LF then Some (3 + w + 1)%nat else Some (3 + w)%nat
        | EmptyString => Some (3 + w)%nat
        end
      else None
  | _ => None
  end.

(** [re.sub(r'```\w*\n?', '', s)]: scanning left to right, a match at the
    current position is dropped whole ([skip] counts what is left of it),
    any other character is copied. *)
Fixpoint sub_fences (skip : nat) (s : string) : string :=
  match s with
  | EmptyString => EmptyString
  | String c s' =>
      match skip with
      | S k => sub_fences k s'
      | O =>
          match match_fence s with
          | Some n => sub_fences (Nat.pred n) s'
          | None => String c (sub_fences O s')
          end
      end
  end.

Definition remove_fences (s : string) : string := sub_fences O s.

(** [re.match(r'^\d+\s*,', line)]: one or more digits, any white space, a
    comma. Giving back digits or white space never helps the match, so the
    greedy reading decides. *)
Definition match_data_line (line : string) : bool :=
  let d := count_prefix isdecimal line in
  if (d =? 0)%nat then false
  else let rest := drop d line in
       match drop (count_prefix isspace rest) rest with
       | String c _ => Ascii.eqb c comma
       | EmptyString => false
       end.

(** ** Exceptions *)

Inductive exn : Type :=
| ValueError (literal : string)    (* int() rejects the literal *)
| IndexError (msg : string)
| TypeError (msg : string)
| UnboundLocalError (name : string)
| CsvError (msg : string)          (* csv.Error *)
| JSONDecodeError (msg : string)
| Exception (msg : string).        (* any other failure of a library call *)

(** ** [int(s)] on a string, base 10

    A literal that is well formed but has more digits than the
    interpreter allows (4300 unless configured otherwise) is rejected with
    a [ValueError] like a malformed one. *)

Definition digit_value (c : ascii) : Z := Z.of_N (code c) - 48.

(** Digits with single underscores between them, most significant first;
    [acc] is the value read so far and [after_digit] tells whether the
    previous character was a digit. *)
Fixpoint int_digits (s : string) (acc : Z) (after_digit : bool) : option Z :=
  match s with
  | EmptyString => if after_digit then Some acc else None
  | String c s' =>
      if isdecimal c then int_digits s' (10 * acc + digit_value c) true
      else if Ascii.eqb c "_"%char then
        if after_digit then int_digits s' acc false else None
      else None
  end.

(** White space [int] itself skips around the literal. *)
Definition int_space (c : ascii) : bool :=
  in_range 9 13 c || (code c =? 32)%N || (code c =? 133)%N || (code c =? 160)%N.

(** The limit on the digits of a decimal literal
    ([sys.get_int_max_str_digits()]). *)
Definition max_str_digits : nat := 4300%nat.

(** The digits of a literal; signs and underscores do not count. *)
Fixpoint count_digits (s : string) : nat :=
  match s with
  | EmptyString => O
  | String c s' => if isdecimal c then S (count_digits s') else count_digits s'
  end.

Definition py_int (s : string) : exn + Z :=
  let body := strip_chars int_space s in
  let r :=
    match body with
    | String "+" ds => int_digits ds 0 false
    | String "-" ds => Z.opp <$> int_digits ds 0 false
    | _ => int_digits body 0 false
    end in
  match r with
  | Some z =>
      if (max_str_digits <? count_digits body)%nat then inl (ValueError s) else inr z
  | None => inl (ValueError s)
  end.

(** ** The [csv] reader

    [csv.reader(f, skipinitialspace=True)]: the [excel] dialect (delimiter
    comma, quote character the double quote, doubled quotes, no escape
    character, minimal quoting, not strict) with initial spaces skipped.
    The states reached only through an escape character are left out, and
    a NUL is a character like any other, as from CPython 3.11 on. *)

Inductive parser_state : Type :=
| START_RECORD | START_FIELD | IN_FIELD | IN_QUOTED_FIELD
| QUOTE_IN_QUOTED_FIELD | EAT_CRNL.

Record reader : Type := mkReader {
  rd_state : parser_state;
  rd_fields : list string;     (* fields of the record being read *)
  rd_field : string;           (* the field being read *)
  rd_field_len : N
}.

Definition field_limit : N := 131072.

Definition parse_reset : reader := mkReader START_RECORD [] EmptyString 0.

Definition set_state (r : reader) (s : parser_state) : reader :=
  mkReader s (rd_fields r) (rd_field r) (rd_field_len r).

Definition parse_save_field (r : reader) : reader :=
  mkReader (rd_state r) (rd_fields r ++ [rd_field r]) EmptyString 0.

Definition parse_add_char (r : reader) (c : ascii) : exn + reader :=
  if (field_limit <=? rd_field_len r)%N
  then inl (CsvError "field larger than field limit (131072)")
  else inr (mkReader (rd_state r) (rd_fields r)
                     (rd_field r +:+ String c EmptyString) (rd_field_len r + 1)).

Definition then_state (x : exn + reader) (s : parser_state) : exn + reader :=
  match x with
  | inl e => inl e
  | inr r => inr (set_state r s)
  end.

Definition is_newline (c : ascii) : bool := Ascii.eqb c LF || Ascii.eqb c CR.

(** What follows the fall-through from [START_RECORD]: the [START_FIELD] case. *)
Definition process_start_field (r : reader) (c : option ascii) : exn + reader :=
  match c with
  | None => inr (set_state (parse_save_field r) START_RECORD)
  | Some ch =>
      if is_newline ch then inr (set_state (parse_save_field r) EAT_CRNL)
      else if Ascii.eqb ch dquote then inr (set_state r IN_QUOTED_FIELD)
      else if Ascii.eqb ch space then inr r
      else if Ascii.eqb ch comma then inr (parse_save_field r)
      else then_state (parse_add_char r ch) IN_FIELD
  end.

(** [parse_process_char]; [None] is the end-of-line marker the reader feeds
    after the last character of each line. *)
Definition parse_process_char (r : reader) (c : option ascii) : exn + reader :=
  match rd_state r with
  | START_RECORD =>
      match c with
      | None => inr r
      | Some ch =>
          if is_newline ch then inr (set_state r EAT_CRNL)
          else process_start_field (set_state r START_FIELD) c
      end
  | START_FIELD => process_start_field r c
  | IN_FIELD =>
      match c with
      | None => inr (set_state (parse_save_field r) START_RECORD)
      | Some ch =>
          if is_newline ch then inr (set_state (parse_save_field r) EAT_CRNL)
          else if Ascii.eqb ch comma then inr (set_state (parse_save_field r) START_FIELD)
          else parse_add_char r ch
      end
  | IN_QUOTED_FIELD =>
      match c with
      | None => inr r
      | Some ch =>
          if Ascii.eqb ch dquote then inr (set_state r QUOTE_IN_QUOTED_FIELD)
          else parse_add_char r ch
      end
  | QUOTE_IN_QUOTED_FIELD =>
      match c with
      | None => inr (set_state (parse_save_field r) START_RECORD)
      | Some ch =>
          if Ascii.eqb ch dquote
          then then_state (parse_add_char r ch) IN_QUOTED_FIELD
          else if Ascii.eqb ch comma then inr (set_state (parse_save_field r) START_FIELD)
          else if is_newline ch then inr (set_state (parse_save_field r) EAT_CRNL)
          else then_state (parse_add_char r ch) IN_FIELD
      end
  | EAT_CRNL =>
      match c with
      | None => inr (set_state r START_RECORD)
      | Some ch =>
          if is_newline ch then inr r
          else inl (CsvError "new-line character seen in unquoted field - do you need to open the file in universal-newline mode?")
      end
  end.

(** One line of input: its characters, then the end-of-line marker. *)
Fixpoint feed_line (r : reader) (line : string) : exn + reader :=
  match line with
  | EmptyString => parse_process_char r None
  | String c line' =>
      match parse_process_char r (Some c) with
      | inl e => inl e
      | inr r' => feed_line r' line'
      end
  end.

Definition is_start_record (s : parser_state) : bool :=
  match s with START_RECORD => true | _ => false end.

Definition is_in_quoted_field (s : parser_state) : bool :=
  match s with IN_QUOTED_FIELD => true | _ => false end.

(** Iterating the reader to exhaustion: the rows it yields, in order, and
    the error that ends the iteration if one does. A row is complete when a
    line ends in [START_RECORD]; otherwise the next line continues it. At
    the end of the input a field left open is closed and its row yielded. *)
Fixpoint read_rows (r : reader) (lines : list string) : list (list string) * option exn :=
  match lines with
  | [] =>
      if negb (rd_field_len r =? 0)%N || is_in_quoted_field (rd_state r)
      then ([rd_fields (parse_save_field r)], None)
      else ([], None)
  | line :: lines' =>
      match feed_line r line with
      | inl e => ([], Some e)
      | inr r' =>
          if is_start_record (rd_state r')
          then let '(rows, err) := read_rows parse_reset lines' in
               (rd_fields r' :: rows, err)
          else read_rows r' lines'
      end
  end.

(** The lines a [StringIO] yields when iterated: split after each newline,
    the newline kept. *)
Fixpoint StringIO (s : string) : list string :=
  match s with
  | EmptyString => []
  | String c s' =>
      if Ascii.eqb c LF then String c EmptyString :: StringIO s'
      else match StringIO s' with
           | [] => [String c EmptyString]
           | l :: ls => String c l :: ls
           end
  end.

Definition csv_reader (lines : list string) : list (list string) * option exn :=
  read_rows parse_reset lines.

(** ** Values and records

    A field of a record is one of the JSON scalars the prompts ask for: an
    integer, a string, or null. A record (a Python [dict]) maps field names
    to such values. *)

Inductive pyval : Type :=
| VNone
| VInt (z : Z)
| VStr (s : string).

Abbreviation dict := (gmap string pyval).

(** [str(v)] *)
Definition py_str (v : pyval) : string :=
  match v with
  | VNone => "None"
  | VInt z => NilZero.string_of_int (Z.to_int z)
  | VStr s => s
  end.

(** [d.get(key, dflt)] *)
Definition dict_get (d : dict) (key : string) (dflt : pyval) : pyval :=
  match d !! key with
  | Some v => v
  | None => dflt
  end.

(** What the page stores per uploaded file: the dictionary with the keys
    [context] and [questions]. *)
Record cache_entry : Type := mkEntry {
  entry_context : option dict;
  entry_questions : list dict
}.

(** ** Effects *)

Inductive widget : Type :=
| StError (msg : string) (cause : option exn)
| StWarning (msg : string) (cause : option exn)
| StSuccess (msg : string)
| StInfo (body : pyval)
| StMarkdown (body : pyval)
| StWrite (body : pyval)
| StCode (body : string)
| StMetric (label : string) (value : pyval)
| StSubheader (body : string)
| StExpander (label : string)
| StColumns
| StDivider
| StSpinner (label : string)
| StButton (label : string)
| StStatus (label : string)
| StatusUpdate (label : string) (status_state : string).

Inductive event : Type :=
| EvUi (w : widget)
| EvPdfReader (content : string)        (* extract_pdf_text reads the PDF *)
| EvConfigure (api_key : string)        (* genai.configure *)
| EvGenerativeModel (name : string)     (* genai.GenerativeModel *)
| EvGenerate (prompt : string).         (* model.generate_content *)

Record state : Type := mkState {
  session_state : gmap string cache_entry;
  log : list event
}.

(** How a piece of the script ends: with a value, with an exception, or
    with one of Streamlit's two control signals, which no [except
    Exception] clause intercepts. *)
Inductive outcome (A : Type) : Type :=
| Return (a : A)
| Raise (e : exn)
| Stop
| Rerun.
Arguments Return {A} a.
Arguments Raise {A} e.
Arguments Stop {A}.
Arguments Rerun {A}.

Definition M (A : Type) : Type := state -> outcome A * state.

Definition ret {A} (a : A) : M A := fun st => (Return a, st).

Definition bind {A B} (m : M A) (k : A -> M B) : M B :=
  fun st =>
    match m st with
    | (Return a, st') => k a st'
    | (Raise e, st') => (Raise e, st')
    | (Stop, st') => (Stop, st')
    | (Rerun, st') => (Rerun, st')
    end.

Notation "x <- m ;; k" := (bind m (fun x => k))
  (at level 100, m at next level, right associativity).
Notation "m ;;; k" := (bind m (fun _ => k))
  (at level 100, right associativity).

Definition raise {A} (e : exn) : M A := fun st => (Raise e, st).

(** [try: body except Exception as e: handler e]; a handler that does not
    take the exception re-raises it. *)
Definition try_except {A} (body : M A) (handler : exn -> M A) : M A :=
  fun st =>
    match body st with
    | (Raise e, st') => handler e st'
    | r => r
    end.

Definition emit (e : event) : M unit :=
  fun st => (Return tt, mkState (session_state st) (log st ++ [e])).

Definition ui (w : widget) : M unit := emit (EvUi w).

Definition st_stop {A} : M A := fun st => (Stop, st).
Definition st_rerun {A} : M A := fun st => (Rerun, st).

(** Lifting a pure computation that may raise. *)
Definition lift {A} (x : exn + A) : M A :=
  match x with
  | inl e => raise e
  | inr a => ret a
  end.

(** ** Constants *)

Definition MODEL_NAME : string := "gemini-2.5-flash".
Definition MAX_QUESTIONS : Z := 10.

Definition POINTS_RANGES : gmap string (Z * Z) :=
  {[ "hard" := (10, 15); "medium" := (7, 10); "easy" := (3, 7) ]}.

Definition DIFFICULTY_COLORS : gmap string string :=
  {[ "hard" := "red"; "medium" := "orange"; "easy" := "green" ]}.

(** ** The question parser *)

(** The loop that keeps the data lines: each line is stripped and kept
    when the pattern matches. *)
Fixpoint collect_data_lines (lines : list string) (data_lines : list string) : list string :=
  match lines with
  | [] => data_lines
  | line :: rest =>
      let line := strip line in
      if match_data_line line
      then collect_data_lines rest (data_lines ++ [line])
      else collect_data_lines rest data_lines
  end.

Definition data_lines_of (raw_text : string) : list string :=
  let clean_text := strip (remove_fences raw_text) in
  collect_data_lines (split_lines clean_text) [].

(** [row[i]] *)
Definition getitem (row : list string) (i : nat) : exn + string :=
  match nth_error row i with
  | Some x => inr x
  | None => inl (IndexError "list index out of range")
  end.

Definition bind_exn {A B} (x : exn + A) (k : A -> exn + B) : exn + B :=
  match x with
  | inl e => inl e
  | inr a => k a
  end.

(** The dictionary display of the loop body, its items evaluated in the
    order written. *)
Definition question_of_row (row : list string) : exn + dict :=
  bind_exn (getitem row 0) (fun r0 =>
  bind_exn (py_int (strip r0)) (fun id =>
  bind_exn (getitem row 1) (fun r1 =>
  bind_exn (getitem row 2) (fun r2 =>
  bind_exn (getitem row 3) (fun r3 =>
  bind_exn (getitem row 4) (fun r4 =>
  bind_exn (py_int (strip r4)) (fun max_points =>
  bind_exn (getitem row 5) (fun r5 =>
  inr ({[ "id" := VInt id;
          "title" := VStr (strip_quotes (strip r1));
          "question_text" := VStr (strip_quotes (strip r2));
          "difficulty" := VStr (strip_quotes (strip r3));
          "max_points" := VInt max_points;
          "scoring_criteria" := VStr (strip_quotes (strip r5)) ]} : dict))))))))).

(** The [for row in reader] loop over the rows the reader yields. *)
Fixpoint convert_rows (rows : list (list string)) (questions : list dict) : M (list dict) :=
  match rows with
  | [] => ret questions
  | row :: rest =>
      if (6 <=? length row)%nat then
        questions' <- try_except
            (q <- lift (question_of_row row) ;; ret (questions ++ [q]))
            (fun e =>
               match e with
               | ValueError _ | IndexError _ =>
                   ui (StWarning "Skipped malformed row: " (Some e)) ;;; ret questions
               | _ => raise e
               end) ;;
        convert_rows rest questions'
      else convert_rows rest questions
  end.

Definition parse_questions_from_csv (raw_text : string) : M (list dict) :=
  let questions := [] in
  let data_lines := data_lines_of raw_text in
  match data_lines with
  | [] => ret questions
  | _ =>
      let '(rows, err) := csv_reader (StringIO (join_lines data_lines)) in
      questions <- convert_rows rows questions ;;
      match err with
      | Some e => raise e
      | None => ret questions
      end
  end.

(** ** Difficulty colours *)

Definition get_difficulty_color (difficulty : string) : string :=
  match DIFFICULTY_COLORS !! lower difficulty with
  | Some c => c
  | None => "gray"
  end.

(** ** The question card *)

Definition display_question (q : dict) (index : Z) : M pyval :=
  let pts := dict_get q "max_points" (VInt 10) in
  let title := dict_get q "title" (VStr "Topic") in
  let text := dict_get q "question_text" (VStr "...") in
  let diff := strip (py_str (dict_get q "difficulty" (VStr "Medium"))) in
  let criteria := dict_get q "scoring_criteria" (VStr "No criteria provided") in
  let q_id := dict_get q "id" (VInt (index + 1)) in
  let diff_lower := lower diff in
  let color :=
    if String.eqb diff_lower "easy" then "green"
    else if String.eqb diff_lower "hard" then "red"
    else "orange" in
  ui StColumns ;;;
  ui (StMarkdown (VStr ("### Q" +:+ py_str q_id))) ;;;
  ui (StMarkdown (VStr (":" +:+ color +:+ "[**" +:+ diff +:+ "**]"))) ;;;
  ui (StMetric "Points" pts) ;;;
  ui (StMarkdown (VStr ("**" +:+ py_str title +:+ "**"))) ;;;
  ui (StInfo text) ;;;
  ui (StExpander "Scoring Criteria") ;;;
  ui (StWrite criteria) ;;;
  ui StDivider ;;;
  ret pts.

(** ** The outside world

    The PDF library, the Gemini client and [json.loads] are not part of the
    program; a [world] fixes what they answer. The client's answers may
    depend on everything that happened before (the log at the time of the
    call); reading a PDF depends on its bytes alone.
    [json.loads] is taken at the shape each caller is annotated with:
    phase 1 reads an object (or null), phase 2 an object whose entries are
    lists of records; an answer that decodes to a JSON value of another
    shape is outside the model. The two prompt texts are functions of
    what the source interpolates in them. *)

Record model : Type := mkModel { model_name : string }.

(** What [generate_content] returns: reading its [text] gives the text or
    raises (a blocked or empty answer). *)
Record response : Type := mkResponse { response_text : exn + string }.

Record world : Type := mkWorld {
  PdfReader : string -> exn + list (exn + option string);
  genai_configure : list event -> string -> option exn;
  GenerativeModel : list event -> string -> exn + model;
  generate_content : list event -> model -> string -> exn + response;
  json_loads_context : string -> exn + option dict;
  json_loads_questions : string -> exn + gmap string (list dict);
  context_prompt : string -> string;
  questions_prompt : dict -> string
}.

(** [try: m except Exception as e: <h e, which returns> else: <k>]: the
    continuation runs outside the protected block. *)
Definition try_with {A B} (m : M A) (h : exn -> M B) (k : A -> M B) : M B :=
  fun st =>
    match m st with
    | (Return a, st') => k a st'
    | (Raise e, st') => h e st'
    | (Stop, st') => (Stop, st')
    | (Rerun, st') => (Rerun, st')
    end.

(** Truth value of an [Optional[dict]]. *)
Definition truthy (d : option dict) : bool :=
  match d with
  | None => false
  | Some c => negb (bool_decide (c = ∅))
  end.

Definition nonempty {A} (l : list A) : bool :=
  match l with [] => false | _ => true end.

Definition len_str {A} (l : list A) : string :=
  NilZero.string_of_int (Z.to_int (Z.of_nat (length l))).

Section Pipeline.

Variable w : world.

(** *** PDF text *)

(** The texts of the pages, a page without text counting as empty,
    joined in order; the first page that fails ends it. *)
Fixpoint join_pages (pages : list (exn + option string)) : exn + string :=
  match pages with
  | [] => inr EmptyString
  | p :: ps =>
      bind_exn p (fun t =>
      bind_exn (join_pages ps) (fun rest =>
      inr (match t with Some s => s | None => EmptyString end +:+ rest)))
  end.

(** [@st.cache_data] memoises [extract_pdf_text] on its argument for the
    life of the process. The log is the record of the process so far, so
    the memo holds the contents whose reading the log shows; the function
    always returns, so every content read is in the memo. *)
Definition is_read_of (file_content : string) (e : event) : bool :=
  match e with
  | EvPdfReader c => String.eqb c file_content
  | _ => false
  end.

Definition memoised (file_content : string) (l : list event) : bool :=
  existsb (is_read_of file_content) l.

Definition cache_data_hit (file_content : string) : M bool :=
  fun st => (Return (memoised file_content (log st)), st).

(** On a hit the memo gives the stored value and replays the messages
    the stored call showed; reading depends on the bytes alone, so these
    are what the body gives without reading the document again. *)
Definition extract_pdf_text (file_content : string) : M string :=
  hit <- cache_data_hit file_content ;;
  try_except
    ((if hit then ret tt else emit (EvPdfReader file_content)) ;;;
     pages <- lift (PdfReader w file_content) ;;
     text <- lift (join_pages pages) ;;
     ret (strip text))
    (fun e => ui (StError "Error reading PDF: " (Some e)) ;;; ret EmptyString).

(** *** The AI chain *)

Definition call_configure (api_key : string) : M unit :=
  fun st =>
    let st' := mkState (session_state st) (log st ++ [EvConfigure api_key]) in
    match genai_configure w (log st) api_key with
    | Some e => (Raise e, st')
    | None => (Return tt, st')
    end.

Definition call_GenerativeModel (name : string) : M model :=
  fun st =>
    let st' := mkState (session_state st) (log st ++ [EvGenerativeModel name]) in
    match GenerativeModel w (log st) name with
    | inl e => (Raise e, st')
    | inr m => (Return m, st')
    end.

(** [model.generate_content(prompt, ...)] *)
Definition call_generate_content (m : model) (prompt : string) : M response :=
  fun st =>
    let st' := mkState (session_state st) (log st ++ [EvGenerate prompt]) in
    match generate_content w (log st) m prompt with
    | inl e => (Raise e, st')
    | inr r => (Return r, st')
    end.

Definition run_context_analysis (m : model) (resume_text : string) : M (option dict) :=
  let prompt := context_prompt w resume_text in
  try_except
    (response <- call_generate_content m prompt ;;
     text <- lift (response_text response) ;;
     lift (json_loads_context w text))
    (fun e =>
       match e with
       | JSONDecodeError _ =>
           ui (StError "Failed to parse AI response: " (Some e)) ;;; ret None
       | _ =>
           ui (StError "Context analysis failed: " (Some e)) ;;; ret None
       end).

(** The two handlers of phase 2; [response] is unbound when the call
    itself raised. *)
Definition question_generation_failed (response : option response) (e : exn) : M (list dict) :=
  match e with
  | JSONDecodeError _ =>
      ui (StError "Failed to parse AI response: " (Some e)) ;;;
      match response with
      | Some r => text <- lift (response_text r) ;; ui (StCode text) ;;; ret []
      | None => raise (UnboundLocalError "response")
      end
  | _ => ui (StError "Question generation failed: " (Some e)) ;;; ret []
  end.

Definition run_question_generation (m : model) (context_data : dict) : M (list dict) :=
  let prompt := questions_prompt w context_data in
  try_with (call_generate_content m prompt)
    (question_generation_failed None)
    (fun response =>
       try_except
         (text <- lift (response_text response) ;;
          data <- lift (json_loads_questions w text) ;;
          let questions := match data !! "questions" with Some qs => qs | None => [] end in
          (if nonempty questions then ret tt
           else ui (StWarning "No questions generated. Raw AI output:" None) ;;;
                text <- lift (response_text response) ;;
                ui (StCode text)) ;;;
          ret questions)
         (question_generation_failed (Some response))).

Definition run_agentic_chain (resume_text api_key : string) : M (option dict * list dict) :=
  try_with
    (call_configure api_key ;;; call_GenerativeModel MODEL_NAME)
    (fun e => ui (StError "Failed to initialize Gemini: " (Some e)) ;;; ret (None, []))
    (fun m =>
       ui (StStatus "Phase 1: Analyzing Resume & Context...") ;;;
       ui (StWrite (VStr "Extracting candidate profile...")) ;;;
       ui (StWrite (VStr "Generating job description...")) ;;;
       context_data <- run_context_analysis m resume_text ;;
       match context_data with
       | Some c =>
           if truthy context_data then
             ui (StatusUpdate "Phase 1 Complete" "complete") ;;;
             ui (StStatus "Phase 2: Generating Interview Questions...") ;;;
             ui (StWrite (VStr ("Creating " +:+ py_str (VInt MAX_QUESTIONS) +:+ " tailored questions..."))) ;;;
             ui (StWrite (VStr "Applying scoring criteria...")) ;;;
             questions <- run_question_generation m c ;;
             (if nonempty questions
              then ui (StatusUpdate ("Phase 2 Complete (" +:+ len_str questions +:+ " questions)") "complete")
              else ui (StatusUpdate "Phase 2 Failed" "error")) ;;;
             ret (context_data, questions)
           else
             ui (StatusUpdate "Phase 1 Failed" "error") ;;; ret (None, [])
       | None =>
           ui (StatusUpdate "Phase 1 Failed" "error") ;;; ret (None, [])
       end).

(** *** The page script: processing an upload *)

Record uploaded : Type := mkUploaded { up_name : string; up_content : string }.

Definition session_contains (key : string) : M bool :=
  fun st => (Return (bool_decide (is_Some (session_state st !! key))), st).

Definition session_get (key : string) : M (option cache_entry) :=
  fun st => (Return (session_state st !! key), st).

Definition session_set (key : string) (v : cache_entry) : M unit :=
  fun st => (Return tt, mkState (<[key := v]> (session_state st)) (log st)).

Definition session_del (key : string) : M unit :=
  fun st => (Return tt, mkState (delete key (session_state st)) (log st)).

(** [total_score += pts] for an integer [total_score]. *)
Definition add_points (total_score : Z) (pts : pyval) : exn + Z :=
  match pts with
  | VInt p => inr (total_score + p)
  | VStr _ => inl (TypeError "unsupported operand type(s) for +=: 'int' and 'str'")
  | VNone => inl (TypeError "unsupported operand type(s) for +=: 'int' and 'NoneType'")
  end.

(** The loop over [enumerate(questions)]. *)
Fixpoint display_questions (questions : list dict) (idx : Z) (total_score : Z) : M Z :=
  match questions with
  | [] => ret total_score
  | q :: rest =>
      pts <- display_question q idx ;;
      total_score <- lift (add_points total_score pts) ;;
      display_questions rest (idx + 1) total_score
  end.

Definition file_key_of (f : uploaded) : string := "results_" +:+ up_name f.

(** The block under [if file_key not in st.session_state:]. *)
Definition ensure_results (f : uploaded) (api_key : string) : M unit :=
  let file_key := file_key_of f in
  present <- session_contains file_key ;;
  if present then ret tt
  else
    resume_text <- extract_pdf_text (up_content f) ;;
    if String.eqb resume_text EmptyString
    then ui (StError "Could not extract text from PDF. Please try another file." None) ;;;
         st_stop
    else
      ui (StSpinner "Processing...") ;;;
      r <- run_agentic_chain resume_text api_key ;;
      session_set file_key (mkEntry (fst r) (snd r)).

(** The rest of the branch, from [# Get cached results] on; [regenerate]
    tells whether the Regenerate button reports a click in this run. *)
Definition show_results (file_key : string) (regenerate : bool) : M unit :=
  cached <- session_get file_key ;;
  let context := match cached with Some e => entry_context e | None => None end in
  let questions := match cached with Some e => entry_questions e | None => [] end in
  match context with
  | Some c =>
      if truthy context && nonempty questions then
        ui StDivider ;;;
        ui (StExpander "Generated Job Description") ;;;
        ui (StMarkdown (dict_get c "job_description" (VStr "No description available"))) ;;;
        ui (StExpander "Campaign Context") ;;;
        ui (StInfo (dict_get c "campaign_context" (VStr "No context available"))) ;;;
        ui StDivider ;;;
        ui StColumns ;;;
        ui (StSubheader ("Interview Questions (" +:+ len_str questions +:+ ")")) ;;;
        ui (StButton "Regenerate") ;;;
        (if regenerate then
           present <- session_contains file_key ;;
           (if present then session_del file_key else ret tt) ;;;
           st_rerun
         else ret tt) ;;;
        total_score <- display_questions questions 0 0 ;;
        ui (StSuccess ("**Total Exam Score: " +:+ py_str (VInt total_score) +:+ "/100 points**"))
      else ret tt
  | None => ret tt
  end.

(** One run of the script from [if uploaded_file and api_key:] on. *)
Definition process_resume (uploaded_file : option uploaded) (api_key : string)
    (regenerate : bool) : M unit :=
  match uploaded_file with
  | None => ui (StMarkdown (VStr "### Welcome!"))
  | Some f =>
      if String.eqb api_key EmptyString
      then ui (StWarning "Please provide a Gemini API key in the sidebar or .env file" None)
      else ensure_results f api_key ;;; show_results (file_key_of f) regenerate
  end.

End Pipeline.

(** ** Derived notions used in the statements *)

(** The events everything else appends to the log of [st]. *)
Definition logged (st : state) (evs : list event) : state :=
  mkState (session_state st) (log st ++ evs).

(** What the card of [q] shows, read off [display_question]. *)
Definition card_points (q : dict) : pyval := dict_get q "max_points" (VInt 10).

Definition card_badge_text (q : dict) : string :=
  strip (py_str (dict_get q "difficulty" (VStr "Medium"))).

Definition card_badge_color (q : dict) : string :=
  if String.eqb (lower (card_badge_text q)) "easy" then "green"
  else if String.eqb (lower (card_badge_text q)) "hard" then "red"
  else "orange".

Definition card_events (q : dict) (index : Z) : list event :=
  [ EvUi StColumns;
    EvUi (StMarkdown (VStr ("### Q" +:+ py_str (dict_get q "id" (VInt (index + 1))))));
    EvUi (StMarkdown (VStr (":" +:+ card_badge_color q +:+ "[**" +:+ card_badge_text q +:+ "**]")));
    EvUi (StMetric "Points" (card_points q));
    EvUi (StMarkdown (VStr ("**" +:+ py_str (dict_get q "title" (VStr "Topic")) +:+ "**")));
    EvUi (StInfo (dict_get q "question_text" (VStr "...")));
    EvUi (StExpander "Scoring Criteria");
    EvUi (StWrite (dict_get q "scoring_criteria" (VStr "No criteria provided")));
    EvUi StDivider ].

(** The integer a card contributes to the total. *)
Definition card_points_int (q : dict) : option Z :=
  match card_points q with
  | VInt z => Some z
  | _ => None
  end.

Fixpoint sum_points (qs : list dict) : Z :=
  match qs with
  | [] => 0
  | q :: rest => match card_points_int q with Some z => z | None => 0 end + sum_points rest
  end.

Fixpoint cards_events (qs : list dict) (idx : Z) : list event :=
  match qs with
  | [] => []
  | q :: rest => card_events q idx ++ cards_events rest (idx + 1)
  end.

(** A question list with the given point values, and nothing else set. *)
Definition questions_with_points (pts : list Z) : list dict :=
  map (fun p => ({[ "max_points" := VInt p ]} : dict)) pts.

Definition empty_state : state := mkState ∅ [].

(** What the results view shows for a stored entry with context [c] and
    questions [qs], up to and including the Regenerate button. *)
Definition results_header (c : dict) (qs : list dict) : list event :=
  [ EvUi StDivider;
    EvUi (StExpander "Generated Job Description");
    EvUi (StMarkdown (dict_get c "job_description" (VStr "No description available")));
    EvUi (StExpander "Campaign Context");
    EvUi (StInfo (dict_get c "campaign_context" (VStr "No context available")));
    EvUi StDivider;
    EvUi StColumns;
    EvUi (StSubheader ("Interview Questions (" +:+ len_str qs +:+ ")"));
    EvUi (StButton "Regenerate") ].


(** A world in which nothing works: every library call raises. *)
Definition failing_world : world :=
  mkWorld (fun _ => inl (Exception "not a PDF"))
          (fun _ _ => Some (Exception "bad key"))
          (fun _ _ => inl (Exception "no model"))
          (fun _ _ _ => inl (Exception "no network"))
          (fun _ => inl (JSONDecodeError "Expecting value"))
          (fun _ => inl (JSONDecodeError "Expecting value"))
          (fun s => s)
          (fun _ => EmptyString).

Definition sample_context : dict := {[ "campaign_context" := VStr "Focus" ]}.
Definition sample_upload : uploaded := mkUploaded "cv.pdf" "%PDF".
Definition sample_points : list Z := [5; 8; 12; 10; 7; 9; 6; 15; 14; 14].


Definition cached_state (f : uploaded) (c : option dict) (qs : list dict) : state :=
  mkState {[ file_key_of f := mkEntry c qs ]} [].

(** ** Derived notions for the parser *)

Definition first_char (s : string) : option ascii :=
  match s with
  | String c _ => Some c
  | EmptyString => None
  end.

Fixpoint last_char (s : string) : option ascii :=
  match s with
  | EmptyString => None
  | String c EmptyString => Some c
  | String _ s' => last_char s'
  end.

(** A string neither begins nor ends with a double quote. *)
Definition no_outer_quote (s : string) : Prop :=
  first_char s <> Some dquote /\ last_char s <> Some dquote.

Definition malformed_warning (e : exn) : event :=
  EvUi (StWarning "Skipped malformed row: " (Some e)).

(** What one row of the reader contributes: a record, a warning, or
    nothing. *)
Definition row_questions (row : list string) : list dict :=
  if (6 <=? length row)%nat then
    match question_of_row row with
    | inr q => [q]
    | inl _ => []
    end
  else [].

Definition row_warnings (row : list string) : list event :=
  if (6 <=? length row)%nat then
    match question_of_row row with
    | inr _ => []
    | inl e => [malformed_warning e]
    end
  else [].

Definition rows_questions (rows : list (list string)) : list dict :=
  concat (map row_questions rows).

Definition rows_warnings (rows : list (list string)) : list event :=
  concat (map row_warnings rows).

(** The record the parser builds from the six fields of a well-formed row. *)
Definition question_record (id : Z) (title question_text difficulty : string)
    (max_points : Z) (scoring_criteria : string) : dict :=
  {[ "id" := VInt id;
     "title" := VStr title;
     "question_text" := VStr question_text;
     "difficulty" := VStr difficulty;
     "max_points" := VInt max_points;
     "scoring_criteria" := VStr scoring_criteria ]}.

Definition quoted (s : string) : string :=
  String dquote s +:+ String dquote EmptyString.

Definition string_fields : list string :=
  ["title"; "question_text"; "difficulty"; "scoring_criteria"].

(** Sample rows. *)
Definition row_api : string :=
  "1," +:+ quoted "API Design" +:+ "," +:+ quoted "Explain REST vs RPC" +:+ ","
  +:+ quoted "Easy" +:+ ",5," +:+ quoted "Looks for clarity".

Definition row_concurrency : string :=
  "2," +:+ quoted "Concurrency" +:+ "," +:+ quoted "Explain a race condition" +:+ ","
  +:+ quoted "Hard" +:+ ",12," +:+ quoted "Looks for correct terminology".

Definition question_api : dict :=
  question_record 1 "API Design" "Explain REST vs RPC" "Easy" 5 "Looks for clarity".

Definition question_concurrency : dict :=
  question_record 2 "Concurrency" "Explain a race condition" "Hard" 12
    "Looks for correct terminology".

(** A row whose title, after CSV unquoting, is the word Quoted inside a
    pair of double quotes. *)
Definition row_quoted_title : string :=
  "1," +:+ quoted (quoted (quoted "Quoted")) +:+ ",Q,Easy,5,C".

(** Two rows separated by a bare carriage return (classic Mac line ends). *)
Definition rows_cr_separated : string :=
  "1,A,Q,Easy,5,C" +:+ String CR "2,B,Q,Hard,12,D".

(** Two valid rows around one line whose id is not a number. *)
Definition rows_with_bad_id : string :=
  join_lines [row_api; "x1,Bad,Q,Easy,5,C"; row_concurrency].

(** Two valid rows around a line whose id is not a number, a row of three
    fields and a row whose points are not a number. *)
Definition rows_with_malformed : string :=
  join_lines [row_api; "x1,Bad,Q,Easy,5,C"; "3,Short,Q"; "4,Bad,Q,Easy,five,C";
              row_concurrency].

(** The rows the reader yields for [raw_text], and the error that ends the
    iteration, if any. *)
Definition rows_of (raw_text : string) : list (list string) * option exn :=
  csv_reader (StringIO (join_lines (data_lines_of raw_text))).

(** ** Lines of a text blob *)

Fixpoint string_forallb (p : ascii -> bool) (s : string) : bool :=
  match s with
  | EmptyString => true
  | String c s' => p c && string_forallb p s'
  end.

(** A line of text proper: no newline in it and no backtick. *)
Definition plain_line (l : string) : bool :=
  string_forallb (fun c => negb (Ascii.eqb c LF) && negb (Ascii.eqb c backtick)) l.

(** A code-fence marker on a line of its own: three backticks and an
    optional language tag. *)
Definition fence_line (l : string) : bool :=
  match l with
  | String a (String b (String c tag)) =>
      Ascii.eqb a backtick && Ascii.eqb b backtick && Ascii.eqb c backtick
      && string_forallb isword tag
  | _ => false
  end.

Definition text_line (l : string) : bool := plain_line l || fence_line l.

(** The test the loop applies to a line. *)
Definition kept_line (l : string) : bool := match_data_line (strip l).




Definition row_spaced_id : string := "1 ,T,Q,Easy,5,C".

(** Sample surroundings of the two rows. *)
Definition sample_preamble : list string := ["Here are your questions:"; "```csv"].
Definition sample_middle : list string := [EmptyString].
Definition sample_epilogue : list string := ["```"; EmptyString; "Good luck!"].

(** ** Derived notions for the chain and the cache flow *)

Definition is_ui (e : event) : bool :=
  match e with EvUi _ => true | _ => false end.

Definition is_pdf_read (e : event) : bool :=
  match e with EvPdfReader _ => true | _ => false end.

Definition is_configure (e : event) : bool :=
  match e with EvConfigure _ => true | _ => false end.

Definition is_generate (e : event) : bool :=
  match e with EvGenerate _ => true | _ => false end.

(** A call to the AI service or its client. *)
Definition is_ai_call (e : event) : bool :=
  match e with
  | EvConfigure _ | EvGenerativeModel _ | EvGenerate _ => true
  | _ => false
  end.

Definition count_events (p : event -> bool) (evs : list event) : nat :=
  length (List.filter p evs).

(** A computation that only appends events satisfying [p] to the log and
    leaves the session state alone. *)
Definition only_logs {A} (p : event -> bool) (m : M A) : Prop :=
  forall st : state, exists (o : outcome A) (evs : list event),
    m st = (o, logged st evs) /\ forallb p evs = true.

(** How the client initialisation of [run_agentic_chain] ends when it
    starts with log [l], and the calls it makes. *)
Definition init_outcome (w : world) (api_key : string) (l : list event) : exn + model :=
  match genai_configure w l api_key with
  | Some e => inl e
  | None => GenerativeModel w (l ++ [EvConfigure api_key]) MODEL_NAME
  end.

Definition init_events (w : world) (api_key : string) (l : list event) : list event :=
  match genai_configure w l api_key with
  | Some _ => [EvConfigure api_key]
  | None => [EvConfigure api_key; EvGenerativeModel MODEL_NAME]
  end.

Definition phase1_banner : list event :=
  [ EvUi (StStatus "Phase 1: Analyzing Resume & Context...");
    EvUi (StWrite (VStr "Extracting candidate profile..."));
    EvUi (StWrite (VStr "Generating job description...")) ].

Definition phase2_banner : list event :=
  [ EvUi (StatusUpdate "Phase 1 Complete" "complete");
    EvUi (StStatus "Phase 2: Generating Interview Questions...");
    EvUi (StWrite (VStr "Creating 10 tailored questions..."));
    EvUi (StWrite (VStr "Applying scoring criteria...")) ].

Definition phase1_failed : event := EvUi (StatusUpdate "Phase 1 Failed" "error").

Definition phase2_status (qs : list dict) : event :=
  if nonempty qs
  then EvUi (StatusUpdate ("Phase 2 Complete (" +:+ len_str qs +:+ " questions)") "complete")
  else EvUi (StatusUpdate "Phase 2 Failed" "error").

(** A world in which everything works and phase 1 answers with the empty
    JSON object. *)
Definition empty_context_world : world :=
  mkWorld (fun _ => inr [inr (Some "Jane Doe, engineer")])
          (fun _ _ => None)
          (fun _ name => inr (mkModel name))
          (fun _ _ _ => inr (mkResponse (inr "{}")))
          (fun _ => inr (Some ∅))
          (fun _ => inr ∅)
          (fun s => s)
          (fun _ => "questions, please").

(** A world in which everything works: a one-page PDF, a context and two
    questions. *)
Definition working_world : world :=
  mkWorld (fun _ => inr [inr (Some "Jane Doe, engineer")])
          (fun _ _ => None)
          (fun _ name => inr (mkModel name))
          (fun _ _ prompt => inr (mkResponse (inr prompt)))
          (fun _ => inr (Some sample_context))
          (fun _ => inr {[ "questions" := [question_api; question_concurrency] ]})
          (fun s => s)
          (fun _ => "questions, please").

(** The specification's sentence on phase 1, for one run: a context that
    phase 1 returns is the context the coordinator returns. *)
Definition spec_context_is_returned (w : world) (resume_text api_key : string) : Prop :=
  forall (c : dict),
    (forall st, fst (run_context_analysis w (mkModel MODEL_NAME) resume_text st)
                = Return (Some c)) ->
    exists qs, fst (run_agentic_chain w resume_text api_key empty_state)
               = Return (Some c, qs).

(** The specification's sentence on a first upload, for one run: with the
    key absent, the run leaves an entry under the key. *)
Definition spec_first_upload_is_stored (w : world) (f : uploaded) (api_key : string)
    (st : state) : Prop :=
  api_key <> EmptyString ->
  session_state st !! file_key_of f = None ->
  is_Some (session_state (snd (process_resume w (Some f) api_key false st))
             !! file_key_of f).


Definition not_ai_call (e : event) : bool := negb (is_ai_call e).

Definition pdf_error (e : exn) : event := EvUi (StError "Error reading PDF: " (Some e)).

(** The reads a call of [extract_pdf_text] makes when the log is [l]:
    none when the memo has the content, one otherwise. *)
Definition pdf_reads (file_content : string) (l : list event) : list event :=
  if memoised file_content l then [] else [EvPdfReader file_content].

Definition extraction_failed : event :=
  EvUi (StError "Could not extract text from PDF. Please try another file." None).

Definition init_failed (e : exn) : event :=
  EvUi (StError "Failed to initialize Gemini: " (Some e)).

Definition is_ui_or_generate (e : event) : bool := is_ui e || is_generate e.

Definition spinner : event := EvUi (StSpinner "Processing...").


(** The session after a first upload of the sample file in the working
    world: its results are stored and shown. *)
Definition after_first_upload : state :=
  snd (process_resume working_world (Some sample_upload) "key" false empty_state).

(** The session after a click on Regenerate in that state. *)
Definition after_regenerate : state :=
  snd (process_resume working_world (Some sample_upload) "key" true after_first_upload).

(** ** Further derived notions *)

(** A computation that leaves every session entry but the one under [key]
    as it was. *)
Definition keeps_other_keys {A} (key : string) (m : M A) : Prop :=
  forall (st : state) (k : string),
    k <> key -> session_state (snd (m st)) !! k = session_state st !! k.

(** An entry the results view does not show. *)
Definition not_displayable (e : cache_entry) : bool :=
  negb (truthy (entry_context e) && nonempty (entry_questions e)).

(** A second upload with the name of [sample_upload] and other bytes. *)
Definition sample_upload_same_name : uploaded := mkUploaded "cv.pdf" "%PDF-other".

Definition failed_entry : cache_entry := mkEntry None [].

(** A world in which the model call itself raises a [JSONDecodeError]. *)
Definition decode_error_world : world :=
  mkWorld (fun _ => inr [inr (Some "Jane Doe, engineer")])
          (fun _ _ => None)
          (fun _ name => inr (mkModel name))
          (fun l _ _ =>
             if (0 <? Z.of_nat (count_events is_generate l))
             then inl (JSONDecodeError "Expecting value")
             else inr (mkResponse (inr "{...}")))
          (fun _ => inr (Some sample_context))
          (fun _ => inr ∅)
          (fun s => s)
          (fun _ => "questions, please").

(** What the three steps of phase 1 (the call, reading the text, decoding
    it) come to when the call is made with log [l]. *)
Definition context_reply (w : world) (m : model) (resume_text : string) (l : list event)
    : exn + option dict :=
  bind_exn (generate_content w l m (context_prompt w resume_text)) (fun r =>
  bind_exn (response_text r) (fun text =>
  json_loads_context w text)).

Definition is_decode_error (e : exn) : bool :=
  match e with JSONDecodeError _ => true | _ => false end.

Definition context_error (e : exn) : event :=
  EvUi (StError (if is_decode_error e then "Failed to parse AI response: "
                 else "Context analysis failed: ") (Some e)).



(** A page with no text to extract: none at all, or white space only. *)
Definition blank_page (p : exn + option string) : bool :=
  match p with
  | inr None => true
  | inr (Some s) => string_forallb isspace s
  | inl _ => false
  end.

Definition page_ok (p : exn + option string) : bool :=
  match p with inr _ => true | inl _ => false end.

Definition is_total_line (e : event) : bool :=
  match e with EvUi (StSuccess _) => true | _ => false end.

(** The sample list with the third record's points given as text. *)
Definition sample_questions_text_points : list dict :=
  match questions_with_points sample_points with
  | q1 :: q2 :: _ :: rest => q1 :: q2 :: ({[ "max_points" := VStr "12" ]} : dict) :: rest
  | qs => qs
  end.

(** A world whose PDF has a first page of text, a second that cannot be
    read and a third of text. *)
Definition broken_page_world : world :=
  mkWorld (fun _ => inr [inr (Some "Jane Doe"); inl (Exception "bad stream");
                         inr (Some "engineer")])
          (fun _ _ => None)
          (fun _ name => inr (mkModel name))
          (fun _ _ prompt => inr (mkResponse (inr prompt)))
          (fun _ => inr (Some sample_context))
          (fun _ => inr ∅)
          (fun s => s)
          (fun _ => "questions, please").

(** A world whose PDF is a scan: two pages, one without text and one of
    white space. *)
Definition scanned_world : world :=
  mkWorld (fun _ => inr [inr None; inr (Some "   ")])
          (fun _ _ => None)
          (fun _ name => inr (mkModel name))
          (fun _ _ prompt => inr (mkResponse (inr prompt)))
          (fun _ => inr (Some sample_context))
          (fun _ => inr ∅)
          (fun s => s)
          (fun _ => "questions, please").

(** The text has a place where the fence pattern matches. *)
Fixpoint contains_fence (s : string) : bool :=
  match s with
  | EmptyString => false
  | String _ s' =>
      match match_fence s with
      | Some _ => true
      | None => contains_fence s'
      end
  end.

Definition is_backtick (c : ascii) : bool := Ascii.eqb c backtick.

(** The Standard Library on decimal numerals, for the numbers of a row. *)
From Stdlib Require DecimalPos.

(** ** Rows as the parser reads them *)

(** A text field is written as it is, or between double quotes. *)
Inductive field_form : Type := Bare | Quoted.

Definition cell : Type := (field_form * string)%type.

Definition format_cell (c : cell) : string :=
  match fst c with
  | Bare => snd c
  | Quoted => quoted (snd c)
  end.

(** [','.join(cells)] *)
Fixpoint join_cells (cs : list string) : string :=
  match cs with
  | [] => EmptyString
  | [c] => c
  | c :: cs' => c +:+ String comma (join_cells cs')
  end.

Record question_row : Type := mkRow {
  qr_id : Z;
  qr_title : cell;
  qr_question_text : cell;
  qr_difficulty : cell;
  qr_max_points : Z;
  qr_scoring_criteria : cell
}.

Definition row_cells (r : question_row) : list cell :=
  [ (Bare, py_str (VInt (qr_id r))); qr_title r; qr_question_text r; qr_difficulty r;
    (Bare, py_str (VInt (qr_max_points r))); qr_scoring_criteria r ].

(** The row written out: the two numbers in decimal and the four texts,
    separated by commas. *)
Definition format_row (r : question_row) : string :=
  join_cells (map format_cell (row_cells r)).

Definition record_of_row (r : question_row) : dict :=
  question_record (qr_id r) (snd (qr_title r)) (snd (qr_question_text r))
    (snd (qr_difficulty r)) (qr_max_points r) (snd (qr_scoring_criteria r)).

(** Characters a bare field can hold without ending the field, the line
    or a code fence. *)
Definition bare_char (c : ascii) : bool :=
  negb (Ascii.eqb c comma) && negb (Ascii.eqb c CR) && negb (Ascii.eqb c LF)
  && negb (Ascii.eqb c backtick).

(** Characters a quoted field can hold: commas and carriage returns too. *)
Definition quoted_char (c : ascii) : bool :=
  negb (Ascii.eqb c dquote) && negb (Ascii.eqb c LF) && negb (Ascii.eqb c backtick).

(** A character neither of the two strips removes: not white space, not
    a double quote. *)
Definition edge_char (c : ascii) : bool :=
  negb (isspace c) && negb (Ascii.eqb c dquote).

Definition clean_edges (s : string) : bool :=
  match first_char s, last_char s with
  | Some a, Some b => edge_char a && edge_char b
  | _, _ => true
  end.

(** A field the reader gives back as written: its outer characters are
    not white space or quotes, it fits the field limit and its characters
    suit its form. *)
Definition cell_ok (c : cell) : bool :=
  clean_edges (snd c)
  && (N.of_nat (String.length (snd c)) <=? field_limit)%N
  && string_forallb (match fst c with Bare => bare_char | Quoted => quoted_char end) (snd c).

(** A number whose numeral [int] reads back: within its limit on digits. *)
Definition number_ok (z : Z) : bool :=
  (count_digits (py_str (VInt z)) <=? max_str_digits)%nat.

Definition row_ok (r : question_row) : bool :=
  (0 <=? qr_id r) && number_ok (qr_id r) && number_ok (qr_max_points r)
  && forallb cell_ok (row_cells r).

(** A reader about to start a field of the current record. *)
Definition at_field (fields : list string) : reader :=
  mkReader START_FIELD fields EmptyString 0.

(** The lines a [StringIO] over ['\n'.join(ls)] yields when no line has a
    newline in it: each line with its newline, the last one without. *)
Fixpoint with_newlines (ls : list string) : list string :=
  match ls with
  | [] => []
  | [l] => [l]
  | l :: ls' => (l +:+ String LF EmptyString) :: with_newlines ls'
  end.

(** A reader that has read a whole field and waits for what ends it. *)
Definition field_read (r : reader) (fs : list string) (f : string) : Prop :=
  rd_fields r = fs /\ rd_field r = f
  /\ (rd_state r = START_FIELD \/ rd_state r = IN_FIELD
      \/ rd_state r = QUOTE_IN_QUOTED_FIELD).

Definition record_read (fs : list string) : reader :=
  mkReader START_RECORD fs EmptyString 0.

Definition row_fields (r : question_row) : list string := map snd (row_cells r).

(** A character of an unquoted stretch of a line: no quote, no line end. *)
Definition unquoted_char (c : ascii) : bool :=
  negb (Ascii.eqb c dquote) && negb (is_newline c).

Definition outside_quotes (s : parser_state) : Prop :=
  s = START_RECORD \/ s = START_FIELD \/ s = IN_FIELD.

(** A line without a newline in it. *)
Definition no_newline (l : string) : bool :=
  string_forallb (fun c => negb (Ascii.eqb c LF)) l.

(** The keys of a question record. *)
Definition question_keys : list string :=
  ["id"; "title"; "question_text"; "difficulty"; "max_points"; "scoring_criteria"].

Definition sample_row_rest : question_row :=
  mkRow 1 (Quoted, "REST, RPC") (Bare, "Explain both") (Bare, "Easy") 5
        (Quoted, "Clarity, depth").

Definition sample_row_locks : question_row :=
  mkRow 2 (Bare, "Locks") (Quoted, "What is a race?") (Bare, "Hard") 12
        (Bare, "Terminology").

(** A reply with the two sample rows between narration, a blank line and
    fence markers. *)
Definition sample_reply_lines : list string :=
  sample_preamble ++ [format_row sample_row_rest] ++ sample_middle
  ++ [format_row sample_row_locks] ++ sample_epilogue.

(** A reply whose second row has a carriage return in its title. *)
Definition sample_reply_with_cr : string :=
  join_lines [format_row sample_row_rest;
              "2,Locks" +:+ String CR "What is a race?,Hard,12,Terminology"].

(** A computation that only adds to the log, by events that satisfy [P]
    together; the session may change. *)
Definition appends {A} (P : list event -> Prop) (m : M A) : Prop :=
  forall st : state, exists evs : list event,
    log (snd (m st)) = log st ++ evs /\ P evs.

(** The numbers of PDF reads, of configurations of the client and of
    calls of the model among the events satisfy [P]. *)
Definition calls (P : nat -> nat -> nat -> Prop) (evs : list event) : Prop :=
  P (count_events is_pdf_read evs) (count_events is_configure evs)
    (count_events is_generate evs).

(** What one run may do: read the PDF at most once, configure the client
    at most once, call the model up to twice if it configured the client. *)
Definition run_profile (p c g : nat) : Prop :=
  (p <= 1)%nat /\ (c <= 1)%nat /\ (g <= 2 * c)%nat.

(** What follows the extraction in a run: no read of a PDF. *)
Definition after_extraction (p c g : nat) : Prop :=
  p = 0%nat /\ (c <= 1)%nat /\ (g <= 2 * c)%nat.

Definition only_ui (evs : list event) : Prop := forallb is_ui evs = true.

(** * Properties *)

(** ** Difficulty colours *)

Lemma difficulty_colors_lookup (k : string) :
  DIFFICULTY_COLORS !! k =
    if String.eqb k "hard" then Some "red"
    else if String.eqb k "medium" then Some "orange"
    else if String.eqb k "easy" then Some "green"
    else None.
Proof.
  unfold DIFFICULTY_COLORS.
  destruct (String.eqb_spec k "hard") as [->|Hh]; [reflexivity|].
  rewrite lookup_insert_ne by congruence.
  destruct (String.eqb_spec k "medium") as [->|Hm]; [reflexivity|].
  rewrite lookup_insert_ne by congruence.
  destruct (String.eqb_spec k "easy") as [->|He]; [reflexivity|].
  now rewrite lookup_singleton_ne by congruence.
Qed.

(** C9: [get_difficulty_color] lower-cases its argument and maps hard to
    red, medium to orange, easy to green and every other string to gray;
    strings that differ only in case get the same colour; the five sample
    values resolve to green, green, red, orange, gray. *)
Theorem get_difficulty_color_spec :
  (forall difficulty : string,
      get_difficulty_color difficulty =
        if String.eqb (lower difficulty) "hard" then "red"
        else if String.eqb (lower difficulty) "medium" then "orange"
        else if String.eqb (lower difficulty) "easy" then "green"
        else "gray")
  /\ (forall d1 d2 : string,
        lower d1 = lower d2 -> get_difficulty_color d1 = get_difficulty_color d2)
  /\ map get_difficulty_color ["Easy"; "EASY"; "hard"; "Medium"; "Unknown"]
     = ["green"; "green"; "red"; "orange"; "gray"].
Proof.
  split; [|split].
  - intros d. unfold get_difficulty_color. rewrite difficulty_colors_lookup.
    destruct (String.eqb _ "hard"); [reflexivity|].
    destruct (String.eqb _ "medium"); [reflexivity|].
    destruct (String.eqb _ "easy"); reflexivity.
  - intros d1 d2 H. unfold get_difficulty_color. now rewrite H.
  - vm_compute. reflexivity.
Qed.

Lemma get_difficulty_color_spec_witness :
  get_difficulty_color "EASY" = get_difficulty_color "Easy"
  /\ get_difficulty_color "HaRd" = "red".
Proof.
  split.
  - apply (proj1 (proj2 get_difficulty_color_spec) "EASY" "Easy"). reflexivity.
  - rewrite (proj1 get_difficulty_color_spec "HaRd"). reflexivity.
Defined.

(** ** Running monadic code *)

Lemma bind_return {A B} (m : M A) (k : A -> M B) (st st' : state) (a : A) :
  m st = (Return a, st') -> bind m k st = k a st'.
Proof. intros H. unfold bind. now rewrite H. Qed.

Lemma logged_nil (st : state) : logged st [] = st.
Proof. destruct st. unfold logged. simpl. now rewrite app_nil_r. Qed.

Lemma logged_logged (st : state) (e1 e2 : list event) :
  logged (logged st e1) e2 = logged st (e1 ++ e2).
Proof. unfold logged. simpl. now rewrite app_assoc. Qed.


Lemma bind_ret {A B} (a : A) (k : A -> M B) (st : state) :
  bind (ret a) k st = k a st.
Proof. reflexivity. Qed.

Lemma bind_ui {B} (x : widget) (k : unit -> M B) (st : state) :
  bind (ui x) k st = k tt (logged st [EvUi x]).
Proof. reflexivity. Qed.

Lemma bind_raise {A B} (e : exn) (k : A -> M B) (st : state) :
  bind (raise e) k st = (Raise e, st).
Proof. reflexivity. Qed.

Lemma try_except_return {A} (body : M A) (h : exn -> M A) (st st' : state) (a : A) :
  body st = (Return a, st') -> try_except body h st = (Return a, st').
Proof. intros H. unfold try_except. now rewrite H. Qed.

Lemma try_except_raise {A} (body : M A) (h : exn -> M A) (st st' : state) (e : exn) :
  body st = (Raise e, st') -> try_except body h st = h e st'.
Proof. intros H. unfold try_except. now rewrite H. Qed.

Ltac mstep := first [rewrite bind_ui | rewrite bind_ret | rewrite bind_raise].

(** ** The question card *)

Lemma display_question_run (q : dict) (index : Z) (st : state) :
  display_question q index st = (Return (card_points q), logged st (card_events q index)).
Proof.
  unfold display_question, bind, ui, emit, ret, logged, card_events. simpl.
  rewrite <- !app_assoc. reflexivity.
Qed.

(** C1, evaluated: for a record whose difficulty is the unrecognised
    string "Unknown" the card's badge is orange, while the colour lookup
    [get_difficulty_color] gives gray for the same string. *)
Theorem display_question_unknown_badge :
  display_question {[ "difficulty" := VStr "Unknown" ]} 0 empty_state
  = (Return (VInt 10),
     mkState ∅
       [ EvUi StColumns;
         EvUi (StMarkdown (VStr "### Q1"));
         EvUi (StMarkdown (VStr ":orange[**Unknown**]"));
         EvUi (StMetric "Points" (VInt 10));
         EvUi (StMarkdown (VStr "**Topic**"));
         EvUi (StInfo (VStr "..."));
         EvUi (StExpander "Scoring Criteria");
         EvUi (StWrite (VStr "No criteria provided"));
         EvUi StDivider ])
  /\ get_difficulty_color "Unknown" = "gray".
Proof. split; vm_compute; reflexivity. Qed.

(** The badge of a card is green, red or orange, never gray. *)
Lemma card_badge_color_cases (q : dict) :
  card_badge_color q = "green" \/ card_badge_color q = "red" \/ card_badge_color q = "orange".
Proof.
  unfold card_badge_color.
  destruct (String.eqb _ "easy"); [now left|].
  destruct (String.eqb _ "hard"); [right; now left | right; now right].
Qed.



(** ** The running total *)

Lemma card_points_int_some (q : dict) (z : Z) :
  card_points_int q = Some z -> card_points q = VInt z.
Proof. unfold card_points_int. destruct (card_points q); congruence. Qed.

Lemma display_questions_run (qs : list dict) :
  forall (idx total : Z) (st : state),
    Forall (fun q => is_Some (card_points_int q)) qs ->
    display_questions qs idx total st
    = (Return (total + sum_points qs), logged st (cards_events qs idx)).
Proof.
  induction qs as [|q qs IH]; intros idx total st Hint.
  - simpl. unfold ret. now rewrite Z.add_0_r, logged_nil.
  - inversion Hint as [|? ? [z Hz] Hrest]; subst.
    cbn [display_questions sum_points cards_events].
    rewrite (bind_return _ _ _ _ _ (display_question_run q idx st)).
    rewrite Hz, (card_points_int_some _ _ Hz).
    unfold bind at 1. cbn [lift add_points ret].
    rewrite IH by assumption.
    now rewrite logged_logged, Z.add_assoc.
Qed.

(** A card whose points are not an integer stops the loop with a
    [TypeError]: the total is only ever a sum of integers. *)
Lemma display_questions_type_error (q : dict) (qs : list dict) (idx total : Z) (st : state) :
  card_points_int q = None ->
  exists e, display_questions (q :: qs) idx total st
            = (Raise (TypeError e), logged st (card_events q idx)).
Proof.
  intros Hq. cbn [display_questions].
  rewrite (bind_return _ _ _ _ _ (display_question_run q idx st)).
  unfold card_points_int in Hq. unfold bind.
  destruct (card_points q); [eexists; reflexivity | discriminate | eexists; reflexivity].
Qed.

Lemma truthy_some (c : dict) : c <> ∅ -> truthy (Some c) = true.
Proof. intros H. unfold truthy. now rewrite bool_decide_eq_false_2. Qed.

Lemma nonempty_true {A} (l : list A) : l <> [] -> nonempty l = true.
Proof. destruct l; [congruence | reflexivity]. Qed.

Lemma api_key_given (api_key : string) : api_key <> EmptyString -> String.eqb api_key EmptyString = false.
Proof. intros H. now apply String.eqb_neq. Qed.

Lemma bind_stop {A B} (m : M A) (k : A -> M B) (st st' : state) :
  m st = (Stop, st') -> bind m k st = (Stop, st').
Proof. intros H. unfold bind. now rewrite H. Qed.

Lemma session_contains_absent (key : string) (st : state) :
  session_state st !! key = None -> session_contains key st = (Return false, st).
Proof.
  intros H. unfold session_contains. rewrite H.
  now rewrite bool_decide_eq_false_2 by (intros [x Hx]; discriminate).
Qed.

Lemma session_contains_present (key : string) (st : state) (e : cache_entry) :
  session_state st !! key = Some e -> session_contains key st = (Return true, st).
Proof.
  intros H. unfold session_contains. rewrite H.
  now rewrite bool_decide_eq_true_2 by (now eexists).
Qed.




(** ** Stripping *)

Lemma lstrip_chars_first (p : ascii -> bool) (s : string) (c : ascii) :
  first_char (lstrip_chars p s) = Some c -> p c = false.
Proof.
  induction s as [|a s IH]; simpl; [discriminate|].
  destruct (p a) eqn:Ha; [exact IH|].
  simpl. intros [= <-]. exact Ha.
Qed.

Lemma last_char_cons (a : ascii) (s : string) (c : ascii) :
  last_char s = Some c -> last_char (String a s) = Some c.
Proof. destruct s; [discriminate | intros H; exact H]. Qed.

Lemma lstrip_chars_last (p : ascii -> bool) (s : string) (c : ascii) :
  last_char (lstrip_chars p s) = Some c -> last_char s = Some c.
Proof.
  induction s as [|a s IH]; [intros H; exact H|].
  cbn [lstrip_chars]. destruct (p a); [|intros H; exact H].
  intros H. apply last_char_cons, IH, H.
Qed.

Lemma rstrip_chars_last (p : ascii -> bool) (s : string) (c : ascii) :
  last_char (rstrip_chars p s) = Some c -> p c = false.
Proof.
  induction s as [|a s IH]; [discriminate|].
  cbn [rstrip_chars]. destruct (rstrip_chars p s) as [|b r] eqn:Hr.
  - destruct (p a) eqn:Ha; [discriminate|]. simpl. intros [= <-]. exact Ha.
  - intros H. apply IH. exact H.
Qed.

Lemma strip_chars_no_outer (p : ascii -> bool) (s : string) (c : ascii) :
  p c = true ->
  first_char (strip_chars p s) <> Some c /\ last_char (strip_chars p s) <> Some c.
Proof.
  intros Hc. unfold strip_chars. split; intros H.
  - apply lstrip_chars_first in H. congruence.
  - apply lstrip_chars_last, rstrip_chars_last in H. congruence.
Qed.

Lemma strip_quotes_no_outer_quote (s : string) : no_outer_quote (strip_quotes s).
Proof. apply strip_chars_no_outer. reflexivity. Qed.

(** ** Converting rows *)

Lemma py_int_exn (s : string) (e : exn) : py_int s = inl e -> e = ValueError s.
Proof.
  unfold py_int. destruct (match strip_chars int_space s with
                           | String "+" ds => _ | _ => _ end);
    [destruct (_ <? _)%nat|]; congruence.
Qed.

Lemma getitem_exn (row : list string) (i : nat) (e : exn) :
  getitem row i = inl e -> exists m, e = IndexError m.
Proof. unfold getitem. destruct (nth_error row i); [discriminate|]. intros [= <-]; eauto. Qed.

(** The only exceptions the dictionary display can raise. *)
Lemma question_of_row_exn (row : list string) (e : exn) :
  question_of_row row = inl e ->
  (exists s, e = ValueError s) \/ (exists m, e = IndexError m).
Proof.
  unfold question_of_row, bind_exn. intros H.
  repeat
    (lazymatch type of H with
     | match ?x with inl _ => _ | inr _ => _ end = _ =>
         let E := fresh "E" in
         destruct x eqn:E;
         [ injection H as H; subst;
           first [ apply getitem_exn in E; right; exact E
                 | apply py_int_exn in E; left; eauto ] | ]
     end).
  discriminate.
Qed.

(** A record comes from six fields of its row, the two numbers read by
    [int] and the four texts stripped of white space and then of quotes. *)
Lemma question_of_row_ok (row : list string) (q : dict) :
  question_of_row row = inr q ->
  exists r0 r1 r2 r3 r4 r5 id max_points,
    row !! 0%nat = Some r0 /\ row !! 1%nat = Some r1 /\ row !! 2%nat = Some r2 /\
    row !! 3%nat = Some r3 /\ row !! 4%nat = Some r4 /\ row !! 5%nat = Some r5 /\
    py_int (strip r0) = inr id /\ py_int (strip r4) = inr max_points /\
    q = question_record id (strip_quotes (strip r1)) (strip_quotes (strip r2))
          (strip_quotes (strip r3)) max_points (strip_quotes (strip r5)).
Proof.
  unfold question_of_row, bind_exn, getitem. intros H.
  destruct row as [|r0 [|r1 [|r2 [|r3 [|r4 [|r5 rest]]]]]]; simpl in H;
    try discriminate;
    repeat match type of H with
    | match py_int ?s with _ => _ end = _ => destruct (py_int s) eqn:?; try discriminate
    end.
  injection H as <-. repeat eexists; eassumption.
Qed.

Lemma convert_rows_run (rows : list (list string)) :
  forall (questions : list dict) (st : state),
    convert_rows rows questions st
    = (Return (questions ++ rows_questions rows), logged st (rows_warnings rows)).
Proof.
  induction rows as [|row rows IH]; intros questions st.
  - simpl. unfold ret, rows_questions, rows_warnings. simpl.
    now rewrite app_nil_r, logged_nil.
  - cbn [convert_rows]. unfold rows_questions, rows_warnings in *.
    cbn [map concat]. unfold row_questions at 1, row_warnings at 1.
    destruct (6 <=? length row)%nat.
    + destruct (question_of_row row) as [e|q] eqn:Hrow.
      * erewrite bind_return; [rewrite IH|].
        2:{ erewrite try_except_raise by (cbn [lift]; now rewrite bind_raise).
            destruct (question_of_row_exn _ _ Hrow) as [[s ->]|[m ->]];
              rewrite bind_ui; reflexivity. }
        now rewrite logged_logged, app_nil_l.
      * erewrite bind_return; [rewrite IH|].
        2:{ apply try_except_return. cbn [lift]. now rewrite bind_ret. }
        now rewrite <- app_assoc, app_nil_l.
    + rewrite IH. now rewrite !app_nil_l.
Qed.

(** ** The parser *)

Lemma parse_questions_from_csv_run (raw_text : string) (st : state) :
  parse_questions_from_csv raw_text st =
    match data_lines_of raw_text with
    | [] => (Return [], st)
    | ls =>
        let '(rows, err) := csv_reader (StringIO (join_lines ls)) in
        (match err with
         | Some e => Raise e
         | None => Return (rows_questions rows)
         end, logged st (rows_warnings rows))
    end.
Proof.
  unfold parse_questions_from_csv.
  destruct (data_lines_of raw_text) as [|l ls]; [reflexivity|].
  destruct (csv_reader _) as [rows err].
  rewrite (bind_return _ _ _ _ _ (convert_rows_run rows [] st)).
  rewrite app_nil_l. destruct err; reflexivity.
Qed.

Lemma parsed_question_origin (raw_text : string) (st st' : state) (qs : list dict) (q : dict) :
  parse_questions_from_csv raw_text st = (Return qs, st') ->
  In q qs ->
  exists row, question_of_row row = inr q.
Proof.
  rewrite parse_questions_from_csv_run.
  destruct (data_lines_of raw_text) as [|l ls].
  - intros [= <- _] [].
  - destruct (csv_reader _) as [rows [e|]]; [discriminate|].
    intros [= <- _] Hin. unfold rows_questions in Hin.
    apply in_concat in Hin as (x & Hx & Hq).
    apply in_map_iff in Hx as (row & <- & _).
    exists row. unfold row_questions in Hq.
    destruct (6 <=? length row)%nat; [|destruct Hq].
    destruct (question_of_row row); [destruct Hq|].
    destruct Hq as [->|[]]. reflexivity.
Qed.

(** C10: in every record the parser produces, each of the four text fields
    is a CSV field stripped of white space and then of every leading and
    trailing double quote, so it neither begins nor ends with one. *)
Theorem parsed_fields_have_no_outer_quote
    (raw_text : string) (st st' : state) (qs : list dict) (q : dict) (k : string) :
  parse_questions_from_csv raw_text st = (Return qs, st') ->
  In q qs ->
  In k string_fields ->
  exists field : string,
    q !! k = Some (VStr (strip_quotes (strip field)))
    /\ no_outer_quote (strip_quotes (strip field)).
Proof.
  intros Hrun Hq Hk.
  destruct (parsed_question_origin _ _ _ _ _ Hrun Hq) as (row & Hrow).
  apply question_of_row_ok in Hrow
    as (r0 & r1 & r2 & r3 & r4 & r5 & id & mp & _ & _ & _ & _ & _ & _ & _ & _ & ->).
  unfold string_fields in Hk. simpl in Hk.
  destruct Hk as [<-|[<-|[<-|[<-|[]]]]];
    [exists r1 | exists r2 | exists r3 | exists r5];
    (split; [reflexivity | apply strip_quotes_no_outer_quote]).
Qed.

Lemma parsed_fields_have_no_outer_quote_witness :
  parse_questions_from_csv row_quoted_title empty_state
  = (Return [question_record 1 "Quoted" "Q" "Easy" 5 "C"], empty_state)
  /\ csv_reader (StringIO row_quoted_title)
     = ([["1"; quoted "Quoted"; "Q"; "Easy"; "5"; "C"]], None)
  /\ exists field : string,
       question_record 1 "Quoted" "Q" "Easy" 5 "C" !! "title"
       = Some (VStr (strip_quotes (strip field)))
       /\ no_outer_quote (strip_quotes (strip field)).
Proof.
  assert (Hrun : parse_questions_from_csv row_quoted_title empty_state
                 = (Return [question_record 1 "Quoted" "Q" "Easy" 5 "C"], empty_state))
    by (vm_compute; reflexivity).
  split; [exact Hrun|]. split; [vm_compute; reflexivity|].
  apply (parsed_fields_have_no_outer_quote row_quoted_title empty_state empty_state
           [question_record 1 "Quoted" "Q" "Easy" 5 "C"] _ "title" Hrun).
  - left. reflexivity.
  - left. reflexivity.
Defined.

(** The slip in the error handling: on two well-formed rows separated by
    a bare carriage return the reader raises [csv.Error] while the rows
    are iterated, outside the [try] of the loop body, and the parser lets
    it through. *)
Lemma parse_questions_from_csv_raises :
  parse_questions_from_csv rows_cr_separated empty_state
  = (Raise (CsvError "new-line character seen in unquoted field - do you need to open the file in universal-newline mode?"),
     empty_state).
Proof. vm_compute. reflexivity. Qed.

Lemma row_short (row : list string) :
  (length row < 6)%nat -> row_questions row = [] /\ row_warnings row = [].
Proof.
  intros H. unfold row_questions, row_warnings.
  now rewrite (proj2 (Nat.leb_gt 6 (length row)) H).
Qed.

Lemma row_bad_number (row : list string) (e : exn) :
  (6 <= length row)%nat -> question_of_row row = inl e ->
  row_questions row = [] /\ row_warnings row = [malformed_warning e].
Proof.
  intros H Hrow. unfold row_questions, row_warnings.
  now rewrite (proj2 (Nat.leb_le 6 (length row)) H), Hrow.
Qed.

Lemma row_well_formed (row : list string) (q : dict) :
  (6 <= length row)%nat -> question_of_row row = inr q ->
  row_questions row = [q] /\ row_warnings row = [].
Proof.
  intros H Hrow. unfold row_questions, row_warnings.
  now rewrite (proj2 (Nat.leb_le 6 (length row)) H), Hrow.
Qed.

(** ** Lines: splitting, stripping, fences *)

Lemma collect_data_lines_filter (lines : list string) :
  forall acc : list string,
    collect_data_lines lines acc = acc ++ filter match_data_line (map strip lines).
Proof.
  induction lines as [|l lines IH]; intros acc; cbn [collect_data_lines map].
  - now rewrite app_nil_r.
  - destruct (match_data_line (strip l)) eqn:Hl; rewrite IH.
    + rewrite filter_cons_True by (now rewrite Hl). now rewrite <- app_assoc.
    + rewrite filter_cons_False by (now rewrite Hl). reflexivity.
Qed.

Lemma data_lines_of_filter (raw_text : string) :
  data_lines_of raw_text
  = filter match_data_line (map strip (split_lines (strip (remove_fences raw_text)))).
Proof. unfold data_lines_of. now rewrite collect_data_lines_filter. Qed.

Lemma append_cons (c : ascii) (s t : string) : String c s +:+ t = String c (s +:+ t).
Proof. reflexivity. Qed.

Lemma append_empty_l (t : string) : EmptyString +:+ t = t.
Proof. reflexivity. Qed.

Lemma append_empty_r (s : string) : s +:+ EmptyString = s.
Proof. induction s as [|c s IH]; [reflexivity|]. now rewrite append_cons, IH. Qed.

Lemma split_lines_cons (s : string) : exists l ls, split_lines s = l :: ls.
Proof.
  induction s as [|c s (l & ls & IH)]; [now exists EmptyString, []|].
  cbn [split_lines]. destruct (Ascii.eqb c LF); [eauto|]. rewrite IH. eauto.
Qed.

Lemma rstrip_cons (p : ascii -> bool) (c : ascii) (s : string) :
  rstrip_chars p (String c s) =
    match rstrip_chars p s with
    | EmptyString => if p c then EmptyString else String c EmptyString
    | r => String c r
    end.
Proof. reflexivity. Qed.

Lemma strip_cons_space (c : ascii) (l : string) :
  isspace c = true -> strip (String c l) = strip l.
Proof.
  intros Hc. unfold strip, strip_chars. rewrite rstrip_cons.
  destruct (rstrip_chars isspace l); [now rewrite Hc|].
  cbn [lstrip_chars]. now rewrite Hc.
Qed.

(** Stripping the whole text on the left only removes leading blank lines
    and the indentation of the first line that is not blank. *)
Lemma lstrip_lines (t : string) :
  exists m : nat,
    map strip (split_lines t)
    = replicate m EmptyString ++ map strip (split_lines (lstrip_chars isspace t)).
Proof.
  induction t as [|c t (m & IH)]; [now exists 0%nat|].
  cbn [lstrip_chars]. destruct (isspace c) eqn:Hc; [|now exists 0%nat].
  cbn [split_lines]. destruct (Ascii.eqb c LF).
  - exists (S m). cbn [map replicate]. rewrite IH. reflexivity.
  - exists m. destruct (split_lines_cons t) as (l & ls & Hl).
    rewrite Hl in *. cbn [map] in *. now rewrite strip_cons_space.
Qed.

Lemma isspace_LF (c : ascii) : Ascii.eqb c LF = true -> isspace c = true.
Proof. intros H. apply Ascii.eqb_eq in H. now subst. Qed.

(** Stripping it on the right only removes trailing blank lines and the
    trailing white space of the last line that is not blank. *)
Lemma rstrip_lines (t : string) :
  exists m : nat,
    map (rstrip_chars isspace) (split_lines t)
    = map (rstrip_chars isspace) (split_lines (rstrip_chars isspace t))
      ++ replicate m EmptyString.
Proof.
  induction t as [|c t (m & IH)]; [now exists 0%nat|].
  rewrite rstrip_cons. cbn [split_lines].
  destruct (split_lines_cons t) as (l & ls & Hl). rewrite Hl in *.
  destruct (rstrip_chars isspace t) as [|b r] eqn:Hr.
  - cbn [split_lines map app] in IH. injection IH as Hl0 Hls.
    destruct (isspace c) eqn:Hc.
    + destruct (Ascii.eqb c LF).
      * exists (S m). cbn [map split_lines app replicate]. now rewrite Hl0, Hls.
      * exists m. cbn [map split_lines app]. rewrite rstrip_cons, Hl0, Hc, Hls.
        reflexivity.
    + destruct (Ascii.eqb c LF) eqn:Hlf; [apply isspace_LF in Hlf; congruence|].
      exists m. cbn [map split_lines app]. rewrite Hlf. cbn [map app].
      rewrite !rstrip_cons, Hl0, Hc, Hls. reflexivity.
  - destruct (split_lines_cons (String b r)) as (l' & ls' & Hl').
    rewrite Hl' in IH. cbn [map app] in IH. injection IH as Hl0 Hls.
    change (split_lines (String c (String b r)))
      with (if Ascii.eqb c LF then EmptyString :: split_lines (String b r)
            else match split_lines (String b r) with
                 | [] => [String c EmptyString]
                 | x :: xs => String c x :: xs
                 end).
    rewrite Hl'. destruct (Ascii.eqb c LF).
    + exists m. cbn [map app]. now rewrite Hl0, Hls.
    + exists m. cbn [map app]. now rewrite !rstrip_cons, Hl0, Hls.
Qed.

Lemma filter_blank_lines (m : nat) :
  filter match_data_line (replicate m EmptyString) = [].
Proof. induction m as [|m IH]; [reflexivity|]. cbn [replicate]. now rewrite filter_cons_False. Qed.

(** Stripping the whole text before splitting it does not change which
    lines are kept. *)
Lemma strip_text_data_lines (t : string) :
  filter match_data_line (map strip (split_lines (strip t)))
  = filter match_data_line (map strip (split_lines t)).
Proof.
  destruct (rstrip_lines t) as (m2 & H2).
  destruct (lstrip_lines (rstrip_chars isspace t)) as (m1 & H1).
  assert (Hmap : forall X, map strip X
                           = map (lstrip_chars isspace) (map (rstrip_chars isspace) X))
    by (intros X; now rewrite map_map).
  rewrite (Hmap (split_lines t)), H2, map_app, <- Hmap, H1.
  assert (Hrep : map (lstrip_chars isspace) (replicate m2 EmptyString)
                 = replicate m2 EmptyString)
    by (clear; induction m2 as [|k IH]; [reflexivity|]; cbn [replicate map]; now rewrite IH).
  rewrite Hrep, !list.filter_app, !filter_blank_lines, app_nil_r. reflexivity.
Qed.

Lemma sub_fences_zero (c : ascii) (s : string) :
  sub_fences 0 (String c s) =
    match match_fence (String c s) with
    | Some n => sub_fences (Nat.pred n) s
    | None => String c (sub_fences 0 s)
    end.
Proof. reflexivity. Qed.

Lemma match_fence_other (c : ascii) (s : string) :
  Ascii.eqb c backtick = false -> match_fence (String c s) = None.
Proof.
  intros H. unfold match_fence. destruct s as [|b [|d r]]; try reflexivity.
  now rewrite H.
Qed.

Lemma plain_line_cons (c : ascii) (l : string) :
  plain_line (String c l) = true ->
  Ascii.eqb c LF = false /\ Ascii.eqb c backtick = false /\ plain_line l = true.
Proof.
  unfold plain_line. cbn [string_forallb]. intros H.
  apply andb_prop in H as [H1 H2]. apply andb_prop in H1 as [Ha Hb].
  apply negb_true_iff in Ha, Hb. auto.
Qed.

Lemma sub_fences_plain (l rest : string) :
  plain_line l = true ->
  sub_fences 0 (l +:+ rest) = l +:+ sub_fences 0 rest.
Proof.
  induction l as [|c l IH]; intros H; [reflexivity|].
  apply plain_line_cons in H as (_ & Hb & Hl).
  rewrite !append_cons, sub_fences_zero, (match_fence_other _ _ Hb).
  now rewrite IH.
Qed.

Lemma sub_fences_newline (s : string) :
  sub_fences 0 (String LF s) = String LF (sub_fences 0 s).
Proof. now rewrite sub_fences_zero, match_fence_other. Qed.

Lemma sub_fences_skip (x y : string) :
  sub_fences (String.length x) (x +:+ y) = sub_fences 0 y.
Proof.
  induction x as [|c x IH]; [destruct y; reflexivity|].
  rewrite append_cons. cbn [String.length sub_fences]. exact IH.
Qed.

Lemma count_prefix_all (p : ascii -> bool) (x y : string) :
  string_forallb p x = true ->
  count_prefix p (x +:+ y) = (String.length x + count_prefix p y)%nat.
Proof.
  induction x as [|c x IH]; intros H; [reflexivity|].
  cbn [string_forallb] in H. apply andb_prop in H as [Hc Hx].
  rewrite append_cons. cbn [count_prefix String.length]. rewrite Hc, IH by assumption.
  reflexivity.
Qed.

Lemma drop_length_append (x y : string) : drop (String.length x) (x +:+ y) = y.
Proof.
  induction x as [|c x IH]; [destruct y; reflexivity|].
  rewrite append_cons. exact IH.
Qed.

Lemma fence_line_inv (l : string) :
  fence_line l = true ->
  exists tag, l = String backtick (String backtick (String backtick tag))
              /\ string_forallb isword tag = true.
Proof.
  destruct l as [|a [|b [|c tag]]]; try discriminate. cbn [fence_line].
  intros H. apply andb_prop in H as [H Htag].
  apply andb_prop in H as [H Hc]. apply andb_prop in H as [Ha Hb].
  apply Ascii.eqb_eq in Ha, Hb, Hc. subst. eauto.
Qed.

(** A fence marker followed by a newline is removed together with it. *)
Lemma sub_fences_fence_newline (l rest : string) :
  fence_line l = true ->
  sub_fences 0 (l +:+ String LF rest) = sub_fences 0 rest.
Proof.
  intros H. apply fence_line_inv in H as (tag & -> & Htag).
  rewrite !append_cons, sub_fences_zero. unfold match_fence.
  rewrite !Ascii.eqb_refl. cbn [andb].
  rewrite (count_prefix_all _ _ _ Htag). cbn [count_prefix].
  replace (isword LF) with false by reflexivity.
  rewrite Nat.add_0_r, drop_length_append, Ascii.eqb_refl.
  replace (Nat.pred (3 + String.length tag + 1))
    with (String.length (String backtick (String backtick (tag +:+ String LF EmptyString)))).
  - replace (String backtick (String backtick (tag +:+ String LF rest)))
      with (String backtick (String backtick (tag +:+ String LF EmptyString)) +:+ rest).
    + apply sub_fences_skip.
    + rewrite !append_cons. f_equal. f_equal.
      clear. induction tag as [|c tag IH]; [reflexivity|].
      now rewrite !append_cons, IH.
  - cbn [String.length]. clear.
    assert (String.length (tag +:+ String LF EmptyString) = S (String.length tag)).
    { induction tag as [|c tag IH]; [reflexivity|].
      rewrite append_cons. cbn [String.length]. now rewrite IH. }
    lia.
Qed.

Lemma count_prefix_full (p : ascii -> bool) (x : string) :
  string_forallb p x = true -> count_prefix p x = String.length x.
Proof.
  intros H. rewrite <- (append_empty_r x) at 1.
  rewrite (count_prefix_all _ _ _ H). cbn [count_prefix]. lia.
Qed.

Lemma drop_length (x : string) : drop (String.length x) x = EmptyString.
Proof. rewrite <- (append_empty_r x) at 2. apply drop_length_append. Qed.

(** A fence marker at the very end is removed. *)
Lemma sub_fences_fence_last (l : string) :
  fence_line l = true -> sub_fences 0 l = EmptyString.
Proof.
  intros H. apply fence_line_inv in H as (tag & -> & Htag).
  rewrite sub_fences_zero. unfold match_fence.
  rewrite !Ascii.eqb_refl. cbn [andb].
  rewrite (count_prefix_full _ _ Htag), drop_length.
  replace (Nat.pred (3 + String.length tag))
    with (String.length (String backtick (String backtick tag))) by (cbn [String.length]; lia).
  rewrite <- (append_empty_r (String backtick (String backtick tag))) at 2.
  apply sub_fences_skip.
Qed.

Lemma split_lines_plain_newline (l rest : string) :
  plain_line l = true ->
  split_lines (l +:+ String LF rest) = l :: split_lines rest.
Proof.
  induction l as [|c l IH]; intros H.
  - rewrite append_empty_l. cbn [split_lines]. now rewrite Ascii.eqb_refl.
  - apply plain_line_cons in H as (Hlf & _ & Hl).
    rewrite append_cons. cbn [split_lines]. now rewrite Hlf, IH.
Qed.

Lemma split_lines_plain (l : string) :
  plain_line l = true -> split_lines l = [l].
Proof.
  induction l as [|c l IH]; intros H; [reflexivity|].
  apply plain_line_cons in H as (Hlf & _ & Hl).
  cbn [split_lines]. now rewrite Hlf, IH.
Qed.

Lemma strip_keeps_first (c : ascii) (s : string) :
  isspace c = false -> exists r, strip (String c s) = String c r.
Proof.
  intros Hc. unfold strip, strip_chars. rewrite rstrip_cons.
  destruct (rstrip_chars isspace s) as [|b r].
  - rewrite Hc. cbn [lstrip_chars]. rewrite Hc. eauto.
  - cbn [lstrip_chars]. rewrite Hc. eauto.
Qed.

Lemma fence_line_not_kept (l : string) : fence_line l = true -> kept_line l = false.
Proof.
  intros H. apply fence_line_inv in H as (tag & -> & _).
  unfold kept_line.
  destruct (strip_keeps_first backtick (String backtick (String backtick tag)))
    as (r & ->); reflexivity.
Qed.

Lemma filter_kept_cons (l : string) (ls : list string) :
  filter match_data_line (strip l :: ls)
  = (if kept_line l then [strip l] else []) ++ filter match_data_line ls.
Proof.
  unfold kept_line. destruct (match_data_line (strip l)) eqn:H.
  - now rewrite filter_cons_True by (now rewrite H).
  - now rewrite filter_cons_False by (now rewrite H).
Qed.

(** Removing the fences from text whose lines are plain or fence markers
    leaves the plain lines. *)
Lemma remove_fences_data_lines (L : list string) :
  forallb text_line L = true ->
  filter match_data_line (map strip (split_lines (remove_fences (join_lines L))))
  = filter match_data_line (map strip L).
Proof.
  unfold remove_fences.
  induction L as [|l L IH]; intros H; [reflexivity|].
  cbn [forallb] in H. apply andb_prop in H as [Hl HL].
  specialize (IH HL). cbn [map]. rewrite filter_kept_cons.
  unfold text_line in Hl. apply orb_prop in Hl.
  destruct L as [|l2 L].
  - cbn [join_lines map]. destruct Hl as [Hl|Hl].
    + rewrite <- (append_empty_r l) at 1.
      rewrite (sub_fences_plain _ _ Hl). cbn [sub_fences].
      rewrite append_empty_r, (split_lines_plain _ Hl). cbn [map].
      now rewrite filter_kept_cons.
    + rewrite (sub_fences_fence_last _ Hl), (fence_line_not_kept _ Hl). reflexivity.
  - change (join_lines (l :: l2 :: L)) with (l +:+ String LF (join_lines (l2 :: L))).
    destruct Hl as [Hl|Hl].
    + rewrite (sub_fences_plain _ _ Hl), sub_fences_newline.
      rewrite (split_lines_plain_newline _ _ Hl). cbn [map].
      now rewrite filter_kept_cons, IH.
    + rewrite (sub_fences_fence_newline _ _ Hl), (fence_line_not_kept _ Hl).
      exact IH.
Qed.

(** The data lines of a text made of plain lines and fence markers: its
    stripped lines that match the pattern, in order. *)
Lemma data_lines_of_text (L : list string) :
  forallb text_line L = true ->
  data_lines_of (join_lines L) = filter match_data_line (map strip L).
Proof.
  intros H. rewrite data_lines_of_filter, strip_text_data_lines.
  now apply remove_fences_data_lines.
Qed.



Lemma kept_lines_text (L : list string) :
  forallb text_line L = true -> forallb text_line (filter kept_line L) = true.
Proof.
  induction L as [|l L IH]; [reflexivity|]. cbn [forallb]. intros H.
  apply andb_prop in H as [Hl HL].
  destruct (kept_line l) eqn:Hk.
  - rewrite filter_cons_True by (now rewrite Hk). cbn [forallb]. now rewrite Hl, IH.
  - rewrite filter_cons_False by (now rewrite Hk). now apply IH.
Qed.

Lemma kept_lines_data_lines (L : list string) :
  filter match_data_line (map strip (filter kept_line L))
  = filter match_data_line (map strip L).
Proof.
  induction L as [|l L IH]; [reflexivity|]. cbn [map].
  rewrite filter_kept_cons. destruct (kept_line l) eqn:Hk.
  - rewrite filter_cons_True by (now rewrite Hk). cbn [map].
    now rewrite filter_kept_cons, Hk, IH.
  - rewrite filter_cons_False by (now rewrite Hk). exact IH.
Qed.

(** The parser's result depends on its input through the data lines only. *)
Lemma parse_depends_on_data_lines (raw1 raw2 : string) (st : state) :
  data_lines_of raw1 = data_lines_of raw2 ->
  parse_questions_from_csv raw1 st = parse_questions_from_csv raw2 st.
Proof. intros H. now rewrite !parse_questions_from_csv_run, H. Qed.

(** Lines the loop drops contribute nothing. *)
Lemma parse_ignores_dropped_lines (L : list string) (st : state) :
  forallb text_line L = true ->
  parse_questions_from_csv (join_lines L) st
  = parse_questions_from_csv (join_lines (filter kept_line L)) st.
Proof.
  intros H. apply parse_depends_on_data_lines.
  rewrite !data_lines_of_text by (try apply kept_lines_text; assumption).
  symmetry. apply kept_lines_data_lines.
Qed.






Example parse_row_spaced_id :
  parse_questions_from_csv row_spaced_id empty_state
  = (Return [question_record 1 "T" "Q" "Easy" 5 "C"], empty_state).
Proof. vm_compute. reflexivity. Qed.

Lemma question_of_row_six (r0 r1 r2 r3 r4 r5 : string) (rest : list string) :
  question_of_row (r0 :: r1 :: r2 :: r3 :: r4 :: r5 :: rest) =
    match py_int (strip r0) with
    | inl e => inl e
    | inr id =>
        match py_int (strip r4) with
        | inl e => inl e
        | inr max_points =>
            inr (question_record id (strip_quotes (strip r1)) (strip_quotes (strip r2))
                   (strip_quotes (strip r3)) max_points (strip_quotes (strip r5)))
        end
    end.
Proof.
  unfold question_of_row, bind_exn, getitem. cbn [nth_error].
  destruct (py_int (strip r0)); [reflexivity|].
  destruct (py_int (strip r4)); reflexivity.
Qed.

Lemma line_without_digit_dropped (line : string) (c : ascii) :
  first_char (strip line) = Some c -> isdecimal c = false -> kept_line line = false.
Proof.
  unfold kept_line. destruct (strip line) as [|a s]; [discriminate|].
  intros [= ->] Hc. unfold match_data_line. cbn [count_prefix]. now rewrite Hc.
Qed.

(** C3, as the code has it: whenever the reader yields its rows, the
    parser returns; a row with fewer than six fields is skipped without a
    word; a row of six or more whose id or points [int] rejects is skipped
    with one warning; every other row gives its record, whatever the rows
    around it; a line that does not begin with a digit never reaches the
    reader and is dropped without a warning. *)
Theorem malformed_rows_are_skipped (raw_text : string) (st : state)
    (rows : list (list string)) :
  rows_of raw_text = (rows, None) ->
  parse_questions_from_csv raw_text st
  = (Return (concat (map row_questions rows)), logged st (concat (map row_warnings rows)))
  /\ (forall row : list string,
        (length row < 6)%nat -> row_questions row = [] /\ row_warnings row = [])
  /\ (forall (r0 r1 r2 r3 r4 r5 : string) (rest : list string),
        let row := r0 :: r1 :: r2 :: r3 :: r4 :: r5 :: rest in
        match py_int (strip r0), py_int (strip r4) with
        | inr id, inr max_points =>
            row_questions row
            = [question_record id (strip_quotes (strip r1)) (strip_quotes (strip r2))
                 (strip_quotes (strip r3)) max_points (strip_quotes (strip r5))]
            /\ row_warnings row = []
        | inl e, _ | inr _, inl e =>
            row_questions row = [] /\ row_warnings row = [malformed_warning e]
        end)
  /\ (forall (line : string) (c : ascii),
        first_char (strip line) = Some c -> isdecimal c = false ->
        kept_line line = false).
Proof.
  intros Hrows. split; [|split; [|split]].
  - rewrite parse_questions_from_csv_run. unfold rows_of in Hrows.
    destruct (data_lines_of raw_text) as [|l ls] eqn:Hd.
    + vm_compute in Hrows. injection Hrows as <-. cbn [map concat].
      now rewrite logged_nil.
    + rewrite Hrows. reflexivity.
  - apply row_short.
  - intros r0 r1 r2 r3 r4 r5 rest row.
    assert (Hlen : (6 <= length row)%nat) by (unfold row; cbn [length]; lia).
    pose proof (question_of_row_six r0 r1 r2 r3 r4 r5 rest) as Hq. fold row in Hq.
    destruct (py_int (strip r0)) as [e|id]; [now apply row_bad_number|].
    destruct (py_int (strip r4)) as [e|mp]; [now apply row_bad_number|].
    now apply row_well_formed.
  - apply line_without_digit_dropped.
Qed.

Lemma malformed_rows_are_skipped_witness :
  parse_questions_from_csv rows_with_malformed empty_state
  = (Return [question_api; question_concurrency],
     logged empty_state [malformed_warning (ValueError "five")]).
Proof.
  assert (H : rows_of rows_with_malformed
              = ([ ["1"; "API Design"; "Explain REST vs RPC"; "Easy"; "5";
                    "Looks for clarity"];
                   ["3"; "Short"; "Q"];
                   ["4"; "Bad"; "Q"; "Easy"; "five"; "C"];
                   ["2"; "Concurrency"; "Explain a race condition"; "Hard"; "12";
                    "Looks for correct terminology"] ], None))
    by (vm_compute; reflexivity).
  exact (proj1 (malformed_rows_are_skipped rows_with_malformed empty_state _ H)).
Defined.

(** C3 as worded fails: the line whose id is not a number is skipped, but
    silently; the log stays empty. *)
Lemma bad_id_skipped_without_warning :
  parse_questions_from_csv rows_with_bad_id empty_state
  = (Return [question_api; question_concurrency], empty_state)
  /\ log (snd (parse_questions_from_csv rows_with_bad_id empty_state)) = [].
Proof. split; vm_compute; reflexivity. Qed.

(** ** Computations that only log *)

Section OnlyLogs.

Variable p : event -> bool.
Hypothesis p_ui : forall x : widget, p (EvUi x) = true.

Lemma only_logs_ret {A} (a : A) : only_logs p (ret a).
Proof. intros st. exists (Return a), []. now rewrite logged_nil. Qed.

Lemma only_logs_raise {A} (e : exn) : only_logs p (@raise A e).
Proof. intros st. exists (Raise e), []. now rewrite logged_nil. Qed.

Lemma only_logs_lift {A} (x : exn + A) : only_logs p (lift x).
Proof. destruct x; [apply only_logs_raise | apply only_logs_ret]. Qed.

Lemma only_logs_ui (x : widget) : only_logs p (ui x).
Proof. intros st. exists (Return tt), [EvUi x]. cbn [forallb]. now rewrite p_ui. Qed.

Lemma only_logs_bind {A B} (m : M A) (k : A -> M B) :
  only_logs p m -> (forall a, only_logs p (k a)) -> only_logs p (bind m k).
Proof.
  intros Hm Hk st. destruct (Hm st) as (o & e1 & Hrun & H1).
  unfold bind. rewrite Hrun.
  destruct o as [a|e| |];
    try (eexists _, e1; split; [reflexivity | exact H1]).
  destruct (Hk a (logged st e1)) as (o2 & e2 & Hrun2 & H2).
  exists o2, (e1 ++ e2). rewrite Hrun2, logged_logged, forallb_app, H1, H2. now split.
Qed.

Lemma only_logs_try_with {A B} (m : M A) (h : exn -> M B) (k : A -> M B) :
  only_logs p m -> (forall e, only_logs p (h e)) -> (forall a, only_logs p (k a)) ->
  only_logs p (try_with m h k).
Proof.
  intros Hm Hh Hk st. destruct (Hm st) as (o & e1 & Hrun & H1).
  unfold try_with. rewrite Hrun.
  destruct o as [a|e| |];
    try (eexists _, e1; split; [reflexivity | exact H1]).
  - destruct (Hk a (logged st e1)) as (o2 & e2 & Hrun2 & H2).
    exists o2, (e1 ++ e2). rewrite Hrun2, logged_logged, forallb_app, H1, H2. now split.
  - destruct (Hh e (logged st e1)) as (o2 & e2 & Hrun2 & H2).
    exists o2, (e1 ++ e2). rewrite Hrun2, logged_logged, forallb_app, H1, H2. now split.
Qed.

Lemma only_logs_try_except {A} (m : M A) (h : exn -> M A) :
  only_logs p m -> (forall e, only_logs p (h e)) -> only_logs p (try_except m h).
Proof.
  intros Hm Hh st. destruct (Hm st) as (o & e1 & Hrun & H1).
  unfold try_except. rewrite Hrun.
  destruct o as [a|e| |];
    try (eexists _, e1; split; [reflexivity | exact H1]).
  destruct (Hh e (logged st e1)) as (o2 & e2 & Hrun2 & H2).
  exists o2, (e1 ++ e2). rewrite Hrun2, logged_logged, forallb_app, H1, H2. now split.
Qed.

Lemma only_logs_display_question (q : dict) (idx : Z) : only_logs p (display_question q idx).
Proof.
  intros st. exists (Return (card_points q)), (card_events q idx).
  split; [apply display_question_run|].
  unfold card_events. cbn [forallb]. now rewrite !p_ui.
Qed.

Lemma only_logs_display_questions (qs : list dict) :
  forall idx total, only_logs p (display_questions qs idx total).
Proof.
  induction qs as [|q qs IH]; intros idx total; cbn [display_questions].
  - apply only_logs_ret.
  - apply only_logs_bind; [apply only_logs_display_question|]. intros pts.
    apply only_logs_bind; [apply only_logs_lift|]. intros t. apply IH.
Qed.

End OnlyLogs.

(** ** PDF text *)

Lemma extract_pdf_text_run (w : world) (file_content : string) (st : state) :
  extract_pdf_text w file_content st =
    match bind_exn (PdfReader w file_content) join_pages with
    | inr text => (Return (strip text), logged st (pdf_reads file_content (log st)))
    | inl e => (Return EmptyString,
                logged st (pdf_reads file_content (log st) ++ [pdf_error e]))
    end.
Proof.
  unfold extract_pdf_text, cache_data_hit, pdf_reads.
  unfold bind at 1. destruct st as [ss l]. cbn [log].
  destruct (memoised file_content l);
    unfold try_except, bind, emit, bind_exn, ui, emit, pdf_error, logged, ret;
    (destruct (PdfReader w file_content) as [e|pages];
     [cbn; now rewrite <- ?app_assoc, ?app_nil_r|]);
    cbn [lift ret]; destruct (join_pages pages) as [e|text];
    cbn; now rewrite <- ?app_assoc, ?app_nil_r.
Qed.



Lemma pdf_reads_not_ai (file_content : string) (l : list event) :
  forallb not_ai_call (pdf_reads file_content l) = true.
Proof. unfold pdf_reads. now destruct (memoised file_content l). Qed.

(** C5: [extract_pdf_text] always returns; when opening the document or
    extracting a page raises, the exception is reported and the result is
    the empty string. When a run of the script finds no entry for the file
    and extraction gives the empty string, the run stops there: no call to
    the AI service or its client is made and no entry is created. *)
Theorem extraction_failure_is_contained (w : world) (f : uploaded) (api_key : string)
    (regenerate : bool) (st : state) :
  (exists (text : string) (evs : list event),
      extract_pdf_text w (up_content f) st = (Return text, logged st evs)
      /\ forallb not_ai_call evs = true
      /\ (forall e, PdfReader w (up_content f) = inl e ->
                    text = EmptyString /\ In (pdf_error e) evs)
      /\ (forall pages e, PdfReader w (up_content f) = inr pages ->
                          join_pages pages = inl e ->
                          text = EmptyString /\ In (pdf_error e) evs))
  /\ (api_key <> EmptyString ->
      session_state st !! file_key_of f = None ->
      fst (extract_pdf_text w (up_content f) st) = Return EmptyString ->
      exists evs : list event,
        process_resume w (Some f) api_key regenerate st = (Stop, logged st evs)
        /\ forallb not_ai_call evs = true
        /\ session_state (logged st evs) !! file_key_of f = None).
Proof.
  assert (Hquiet : forall tail, forallb not_ai_call tail = true ->
            forallb not_ai_call (pdf_reads (up_content f) (log st) ++ tail) = true)
    by (intros tail Htail; now rewrite forallb_app, pdf_reads_not_ai).
  split.
  - rewrite extract_pdf_text_run. unfold bind_exn.
    destruct (PdfReader w (up_content f)) as [e|pages].
    + eexists _, _. split; [reflexivity|]. split; [now apply Hquiet|]. split.
      * intros e' [= <-]. split; [reflexivity | apply in_or_app; right; now left].
      * intros pages e' [=].
    + destruct (join_pages pages) as [e|text] eqn:Hj.
      * eexists _, _. split; [reflexivity|]. split; [now apply Hquiet|]. split.
        -- intros e' [=].
        -- intros pages' e' [= <-] H. rewrite Hj in H. injection H as <-.
           split; [reflexivity | apply in_or_app; right; now left].
      * eexists _, _. split; [reflexivity|]. split; [apply pdf_reads_not_ai|]. split.
        -- intros e' [=].
        -- intros pages' e' [= <-] H. rewrite Hj in H. discriminate H.
  - intros Hkey Habsent Hempty.
    destruct (extract_pdf_text w (up_content f) st) as [o st1] eqn:Hrun.
    cbn [fst] in Hempty. subst o.
    assert (exists evs1, st1 = logged st evs1 /\ forallb not_ai_call evs1 = true)
      as (evs1 & -> & Hevs1).
    { rewrite extract_pdf_text_run in Hrun.
      destruct (bind_exn _ _); inversion Hrun; eexists;
        (split; [reflexivity|]); [now apply Hquiet | apply pdf_reads_not_ai]. }
    exists (evs1 ++ [extraction_failed]).
    split; [|split].
    + unfold process_resume. rewrite (api_key_given _ Hkey).
      apply bind_stop. unfold ensure_results.
      rewrite (bind_return _ _ _ _ _ (session_contains_absent _ _ Habsent)).
      rewrite (bind_return _ _ _ _ _ Hrun).
      cbn [String.eqb]. rewrite bind_ui. unfold st_stop.
      now rewrite logged_logged.
    + rewrite forallb_app, Hevs1. reflexivity.
    + exact Habsent.
Qed.

Lemma extraction_failure_is_contained_witness :
  exists evs : list event,
    process_resume failing_world (Some sample_upload) "key" false empty_state
    = (Stop, logged empty_state evs)
    /\ forallb not_ai_call evs = true
    /\ session_state (logged empty_state evs) !! file_key_of sample_upload = None.
Proof.
  apply (proj2 (extraction_failure_is_contained failing_world sample_upload "key"
                  false empty_state)).
  - discriminate.
  - reflexivity.
  - reflexivity.
Defined.

(** ** The AI chain *)

Ltac norm_log := rewrite ?logged_logged, <- ?app_assoc; cbn [app].

Lemma init_run (w : world) (api_key : string) (st : state) :
  (call_configure w api_key ;;; call_GenerativeModel w MODEL_NAME) st
  = (match init_outcome w api_key (log st) with
     | inl e => Raise e
     | inr m => Return m
     end, logged st (init_events w api_key (log st))).
Proof.
  unfold bind, call_configure, call_GenerativeModel, init_outcome, init_events, logged.
  destruct (genai_configure w (log st) api_key); [reflexivity|].
  cbn [log session_state].
  destruct (GenerativeModel w _ MODEL_NAME); now rewrite <- app_assoc.
Qed.

Lemma call_generate_content_run (w : world) (m : model) (prompt : string) (st : state) :
  call_generate_content w m prompt st
  = (match generate_content w (log st) m prompt with
     | inl e => Raise e
     | inr r => Return r
     end, logged st [EvGenerate prompt]).
Proof.
  unfold call_generate_content, logged.
  destruct (generate_content w (log st) m prompt); reflexivity.
Qed.

(** Phase 1 always returns, after exactly one call to the model. *)
Lemma run_context_analysis_logs (w : world) (m : model) (resume_text : string) (st : state) :
  exists (ctx : option dict) (evs : list event),
    run_context_analysis w m resume_text st
    = (Return ctx, logged st (EvGenerate (context_prompt w resume_text) :: evs))
    /\ forallb is_ui evs = true.
Proof.
  unfold run_context_analysis, try_except, bind.
  rewrite call_generate_content_run.
  destruct (generate_content w (log st) m _) as [e|[[e|text]]].
  - destruct e; eexists _, [_]; (split; [cbn; norm_log; reflexivity | reflexivity]).
  - destruct e; eexists _, [_]; (split; [cbn; norm_log; reflexivity | reflexivity]).
  - cbn [response_text lift ret]. destruct (json_loads_context w text) as [e|ctx];
      cbn [lift raise ret].
    + destruct e; eexists _, [_]; (split; [cbn; norm_log; reflexivity | reflexivity]).
    + eexists _, []. split; reflexivity.
Qed.

(** Phase 2 makes exactly one call to the model and, whatever comes of
    it, only talks to the user afterwards. *)
Lemma run_question_generation_logs (w : world) (m : model) (c : dict) (st : state) :
  exists (o : outcome (list dict)) (evs : list event),
    run_question_generation w m c st
    = (o, logged st (EvGenerate (questions_prompt w c) :: evs))
    /\ forallb is_ui evs = true.
Proof.
  unfold run_question_generation, try_with.
  rewrite call_generate_content_run.
  destruct (generate_content w (log st) m _) as [e|[[e|text]]].
  - destruct e; cbn; norm_log; eexists _, [_]; (split; reflexivity).
  - unfold try_except, bind. cbn [response_text lift raise].
    destruct e; cbn; norm_log; eexists _, _; (split; reflexivity).
  - unfold try_except, bind. cbn [response_text lift raise ret].
    destruct (json_loads_questions w text) as [e|data]; cbn [lift raise ret].
    + destruct e; cbn; norm_log; eexists _, _; (split; reflexivity).
    + destruct (data !! "questions") as [[|q qs]|]; cbn; norm_log;
        eexists _, _; (split; reflexivity).
Qed.

Lemma count_events_app (p : event -> bool) (e1 e2 : list event) :
  count_events p (e1 ++ e2) = (count_events p e1 + count_events p e2)%nat.
Proof. unfold count_events. now rewrite List.filter_app, length_app. Qed.

Lemma count_generate_ui (evs : list event) :
  forallb is_ui evs = true -> count_events is_generate evs = 0%nat.
Proof.
  induction evs as [|e evs IH]; [reflexivity|]. cbn [forallb]. intros H.
  apply andb_prop in H as [He Hevs]. destruct e; try discriminate.
  unfold count_events in *. cbn. now apply IH.
Qed.

Lemma count_generate_init (w : world) (api_key : string) (l : list event) :
  count_events is_generate (init_events w api_key l) = 0%nat.
Proof. unfold init_events. destruct (genai_configure w l api_key); reflexivity. Qed.

Lemma logged_inj (st : state) (e1 e2 : list event) : logged st e1 = logged st e2 -> e1 = e2.
Proof. unfold logged. intros [= H]. now apply app_inv_head in H. Qed.

Lemma run_agentic_chain_unfold (w : world) (resume_text api_key : string) (st : state) :
  run_agentic_chain w resume_text api_key st =
    match init_outcome w api_key (log st) with
    | inl e =>
        (Return (None, []), logged st (init_events w api_key (log st) ++ [init_failed e]))
    | inr m =>
        let st1 := logged st (init_events w api_key (log st) ++ phase1_banner) in
        match run_context_analysis w m resume_text st1 with
        | (Return (Some c), st2) =>
            if truthy (Some c) then
              match run_question_generation w m c (logged st2 phase2_banner) with
              | (Return qs, st4) => (Return (Some c, qs), logged st4 [phase2_status qs])
              | (Raise e, st4) => (Raise e, st4)
              | (Stop, st4) => (Stop, st4)
              | (Rerun, st4) => (Rerun, st4)
              end
            else (Return (None, []), logged st2 [phase1_failed])
        | (Return None, st2) => (Return (None, []), logged st2 [phase1_failed])
        | (Raise e, st2) => (Raise e, st2)
        | (Stop, st2) => (Stop, st2)
        | (Rerun, st2) => (Rerun, st2)
        end
    end.
Proof.
  unfold run_agentic_chain, try_with. rewrite init_run.
  destruct (init_outcome w api_key (log st)) as [e|m].
  - rewrite bind_ui. cbn [ret]. norm_log. reflexivity.
  - rewrite !bind_ui. norm_log. cbv zeta. unfold phase1_banner.
    unfold bind at 1.
    destruct (run_context_analysis w m resume_text _) as [[[c|]|e| |] st2];
      try reflexivity.
    destruct (truthy (Some c)); [|reflexivity].
    rewrite !bind_ui. norm_log. unfold phase2_banner. unfold bind at 1.
    destruct (run_question_generation w m c _) as [[qs|e| |] st4]; try reflexivity.
    unfold phase2_status. destruct (nonempty qs); reflexivity.
Qed.

(** C4, as the code has it: when initialising the client fails the
    coordinator returns (absent, empty) without any call to the model;
    when phase 1 returns absent or an empty context it returns (absent,
    empty) right after phase 1, with phase 1's call the only call to the
    model; when phase 1 returns a context that is not empty it returns
    that context with whatever list phase 2 returns. Phase 1 always
    returns. *)
Theorem run_agentic_chain_outcomes (w : world) (resume_text api_key : string) (st : state) :
  (forall e : exn,
      init_outcome w api_key (log st) = inl e ->
      run_agentic_chain w resume_text api_key st
      = (Return (None, []), logged st (init_events w api_key (log st) ++ [init_failed e]))
      /\ count_events is_generate (init_events w api_key (log st) ++ [init_failed e]) = 0%nat)
  /\ (forall (m : model) (ctx : option dict) (st2 : state),
        init_outcome w api_key (log st) = inr m ->
        run_context_analysis w m resume_text
          (logged st (init_events w api_key (log st) ++ phase1_banner)) = (Return ctx, st2) ->
        truthy ctx = false ->
        run_agentic_chain w resume_text api_key st
        = (Return (None, []), logged st2 [phase1_failed])
        /\ exists evs : list event,
             logged st2 [phase1_failed] = logged st evs
             /\ count_events is_generate evs = 1%nat)
  /\ (forall (m : model) (c : dict) (st2 : state) (qs : list dict) (st4 : state),
        init_outcome w api_key (log st) = inr m ->
        run_context_analysis w m resume_text
          (logged st (init_events w api_key (log st) ++ phase1_banner))
        = (Return (Some c), st2) ->
        c <> ∅ ->
        run_question_generation w m c (logged st2 phase2_banner) = (Return qs, st4) ->
        run_agentic_chain w resume_text api_key st
        = (Return (Some c, qs), logged st4 [phase2_status qs]))
  /\ (forall (m : model) (st1 : state),
        exists (ctx : option dict) (st2 : state),
          run_context_analysis w m resume_text st1 = (Return ctx, st2)).
Proof.
  split; [|split; [|split]].
  - intros e He. rewrite run_agentic_chain_unfold, He. split; [reflexivity|].
    rewrite count_events_app, count_generate_init. reflexivity.
  - intros m ctx st2 Hm Hrun Hfalse.
    rewrite run_agentic_chain_unfold, Hm. cbv zeta. rewrite Hrun.
    split.
    + destruct ctx as [c|]; [now rewrite Hfalse | reflexivity].
    + destruct (run_context_analysis_logs w m resume_text
                  (logged st (init_events w api_key (log st) ++ phase1_banner)))
        as (ctx' & evs1 & Hrun' & Hui).
      rewrite Hrun in Hrun'. injection Hrun' as _ ->.
      eexists. split; [norm_log; reflexivity|].
      rewrite !count_events_app, count_generate_init.
      change (EvGenerate (context_prompt w resume_text) :: evs1 ++ [phase1_failed])
        with ([EvGenerate (context_prompt w resume_text)] ++ evs1 ++ [phase1_failed]).
      rewrite !count_events_app, (count_generate_ui _ Hui). reflexivity.
  - intros m c st2 qs st4 Hm Hrun Hc Hq.
    rewrite run_agentic_chain_unfold, Hm. cbv zeta.
    now rewrite Hrun, (truthy_some _ Hc), Hq.
  - intros m st1.
    destruct (run_context_analysis_logs w m resume_text st1) as (ctx & evs & H & _).
    eauto.
Qed.

Lemma run_agentic_chain_outcomes_witness :
  run_agentic_chain failing_world "resume" "key" empty_state
  = (Return (None, []),
     logged empty_state [EvConfigure "key"; init_failed (Exception "bad key")])
  /\ run_agentic_chain empty_context_world "resume" "key" empty_state
     = (Return (None, []),
        logged empty_state
          ([EvConfigure "key"; EvGenerativeModel MODEL_NAME] ++ phase1_banner
           ++ [EvGenerate "resume"; phase1_failed]))
  /\ run_agentic_chain working_world "resume" "key" empty_state
     = (Return (Some sample_context, [question_api; question_concurrency]),
        logged empty_state
          ([EvConfigure "key"; EvGenerativeModel MODEL_NAME] ++ phase1_banner
           ++ [EvGenerate "resume"] ++ phase2_banner
           ++ [EvGenerate "questions, please";
               phase2_status [question_api; question_concurrency]])).
Proof.
  split; [|split].
  - apply (proj1 (run_agentic_chain_outcomes failing_world "resume" "key" empty_state)
             (Exception "bad key")).
    reflexivity.
  - apply (proj1 (proj1 (proj2 (run_agentic_chain_outcomes empty_context_world
                                  "resume" "key" empty_state))
                    (mkModel MODEL_NAME) (Some ∅)
                    (logged empty_state
                       ([EvConfigure "key"; EvGenerativeModel MODEL_NAME] ++ phase1_banner
                        ++ [EvGenerate "resume"]))
                    eq_refl eq_refl eq_refl)).
  - apply (proj1 (proj2 (proj2 (run_agentic_chain_outcomes working_world
                                  "resume" "key" empty_state)))
             (mkModel MODEL_NAME) sample_context
             (logged empty_state
                ([EvConfigure "key"; EvGenerativeModel MODEL_NAME] ++ phase1_banner
                 ++ [EvGenerate "resume"]))
             [question_api; question_concurrency]
             (logged empty_state
                ([EvConfigure "key"; EvGenerativeModel MODEL_NAME] ++ phase1_banner
                 ++ [EvGenerate "resume"] ++ phase2_banner
                 ++ [EvGenerate "questions, please"]))).
    + reflexivity.
    + reflexivity.
    + apply map_non_empty_singleton.
    + reflexivity.
Defined.

(** C4 as worded fails: phase 1 may return a context that is present but
    empty; the coordinator then returns (absent, empty), not that context. *)
Lemma empty_context_is_not_returned :
  ~ spec_context_is_returned empty_context_world "resume" "key".
Proof.
  unfold spec_context_is_returned. intros H.
  destruct (H ∅) as [qs Hqs]; [intros st; reflexivity|].
  vm_compute in Hqs. discriminate Hqs.
Qed.

(** ** The session cache *)

Lemma count_events_none (p q : event -> bool) (evs : list event) :
  forallb q evs = true -> (forall e, q e = true -> p e = false) ->
  count_events p evs = 0%nat.
Proof.
  intros Hq Hpq. induction evs as [|e evs IH]; [reflexivity|].
  cbn [forallb] in Hq. apply andb_prop in Hq as [He Hevs].
  unfold count_events in *. cbn [List.filter]. rewrite (Hpq e He). now apply IH.
Qed.

Lemma only_logs_generate (w : world) (m : model) (prompt : string) :
  only_logs is_ui_or_generate (call_generate_content w m prompt).
Proof.
  intros st. rewrite call_generate_content_run. eexists _, _. split; reflexivity.
Qed.

Lemma only_logs_context_analysis (w : world) (m : model) (resume_text : string) :
  only_logs is_ui_or_generate (run_context_analysis w m resume_text).
Proof.
  unfold run_context_analysis. apply only_logs_try_except.
  - apply only_logs_bind; [apply only_logs_generate|]. intros r.
    apply only_logs_bind; [apply only_logs_lift | intros text; apply only_logs_lift].
  - intros e.
    destruct e; (apply only_logs_bind; [now apply only_logs_ui|]; intros _;
                 apply only_logs_ret).
Qed.

Lemma only_logs_question_generation_failed (response : option response) (e : exn) :
  only_logs is_ui_or_generate (question_generation_failed response e).
Proof.
  unfold question_generation_failed.
  destruct e; try (apply only_logs_bind; [now apply only_logs_ui|]; intros _;
                   apply only_logs_ret).
  apply only_logs_bind; [now apply only_logs_ui|]. intros _.
  destruct response; [|apply only_logs_raise].
  apply only_logs_bind; [apply only_logs_lift|]. intros text.
  apply only_logs_bind; [now apply only_logs_ui|]. intros _. apply only_logs_ret.
Qed.

Lemma only_logs_question_generation (w : world) (m : model) (c : dict) :
  only_logs is_ui_or_generate (run_question_generation w m c).
Proof.
  unfold run_question_generation. apply only_logs_try_with.
  - apply only_logs_generate.
  - apply only_logs_question_generation_failed.
  - intros response. apply only_logs_try_except;
      [|apply only_logs_question_generation_failed].
    apply only_logs_bind; [apply only_logs_lift|]. intros text.
    apply only_logs_bind; [apply only_logs_lift|]. intros data.
    apply only_logs_bind; [|intros _; apply only_logs_ret].
    destruct (nonempty _); [apply only_logs_ret|].
    apply only_logs_bind; [now apply only_logs_ui|]. intros _.
    apply only_logs_bind; [apply only_logs_lift|]. intros text'.
    now apply only_logs_ui.
Qed.

(** The coordinator configures the client once, then only talks to the
    user and to the model. *)
Lemma run_agentic_chain_events (w : world) (resume_text api_key : string) (st : state) :
  exists (o : outcome (option dict * list dict)) (evs : list event),
    run_agentic_chain w resume_text api_key st
    = (o, logged st (init_events w api_key (log st) ++ evs))
    /\ forallb is_ui_or_generate evs = true.
Proof.
  assert (Hui : forall x, is_ui_or_generate (EvUi x) = true) by reflexivity.
  unfold run_agentic_chain, try_with. rewrite init_run.
  destruct (init_outcome w api_key (log st)) as [e|m].
  - rewrite bind_ui. cbn [ret]. norm_log. eexists _, _. split; reflexivity.
  - match goal with
    | |- context [bind ?a ?k (logged st ?l)] =>
        assert (Hk : only_logs is_ui_or_generate (bind a k))
    end.
    { repeat (apply only_logs_bind; [now apply only_logs_ui|]; intros _).
      apply only_logs_bind; [apply only_logs_context_analysis|]. intros ctx.
      destruct ctx as [c|];
        [|apply only_logs_bind; [now apply only_logs_ui|]; intros _; apply only_logs_ret].
      destruct (truthy (Some c));
        [|apply only_logs_bind; [now apply only_logs_ui|]; intros _; apply only_logs_ret].
      repeat (apply only_logs_bind; [now apply only_logs_ui|]; intros _).
      apply only_logs_bind; [apply only_logs_question_generation|]. intros qs.
      apply only_logs_bind; [|intros _; apply only_logs_ret].
      destruct (nonempty qs); now apply only_logs_ui. }
    destruct (Hk (logged st (init_events w api_key (log st)))) as (o & evs & Hrun & Hevs).
    rewrite Hrun. norm_log. eauto.
Qed.

Lemma count_configure_init (w : world) (api_key : string) (l : list event) :
  count_events is_configure (init_events w api_key l) = 1%nat
  /\ count_events is_pdf_read (init_events w api_key l) = 0%nat.
Proof. unfold init_events. destruct (genai_configure w l api_key); split; reflexivity. Qed.




Lemma ensure_results_present (w : world) (f : uploaded) (api_key : string) (st : state)
    (e : cache_entry) :
  session_state st !! file_key_of f = Some e ->
  ensure_results w f api_key st = (Return tt, st).
Proof.
  intros H. unfold ensure_results.
  now rewrite (bind_return _ _ _ _ _ (session_contains_present _ _ _ H)).
Qed.





(** The three runs of that example: the first upload reads the PDF once
    and configures the client once; the click reruns; the run after it
    configures the client again and reads nothing. *)
Example regenerate_run_counts :
  count_events is_pdf_read (log after_first_upload) = 1%nat
  /\ count_events is_configure (log after_first_upload) = 1%nat
  /\ session_state after_regenerate !! file_key_of sample_upload = None
  /\ (let st'' := snd (process_resume working_world (Some sample_upload) "key" false
                         after_regenerate) in
      count_events is_pdf_read (log st'') = 1%nat
      /\ count_events is_configure (log st'') = 2%nat
      /\ is_Some (session_state st'' !! file_key_of sample_upload)).
Proof. vm_compute. repeat split; eexists; reflexivity. Qed.

(** Nor is an outcome stored on every first upload: when the text cannot
    be extracted the pipeline does not run and nothing is stored under
    the key. *)
Lemma first_upload_is_not_always_stored :
  ~ spec_first_upload_is_stored failing_world sample_upload "key" empty_state.
Proof.
  unfold spec_first_upload_is_stored. intros H.
  destruct H as [e He]; [discriminate | reflexivity |].
  vm_compute in He. discriminate He.
Qed.

Example first_upload_extraction_failure :
  process_resume failing_world (Some sample_upload) "key" false empty_state
  = (Stop, logged empty_state
             [EvPdfReader "%PDF"; pdf_error (Exception "not a PDF"); extraction_failed]).
Proof. vm_compute. reflexivity. Qed.

(** * Further properties *)

(** ** The session cache: what a run leaves alone *)

Lemma show_results_not_displayable (file_key : string) (regenerate : bool) (st : state)
    (e : cache_entry) :
  session_state st !! file_key = Some e ->
  not_displayable e = true ->
  show_results file_key regenerate st = (Return tt, st).
Proof.
  intros Hentry Hnot. unfold show_results.
  rewrite (bind_return _ _ st st (Some e)) by (unfold session_get; now rewrite Hentry).
  unfold not_displayable in Hnot. apply negb_true_iff in Hnot.
  destruct (entry_context e) as [c|]; [|reflexivity].
  now rewrite Hnot.
Qed.

(** X1. A stored outcome the results view does not show (absent or empty
    context, or no questions) is final: with a credential, every later
    run for that file name, with or without a click on Regenerate, does
    nothing at all; the pipeline is not tried again. *)
Theorem stored_failure_is_final (w : world) (f : uploaded) (api_key : string)
    (regenerate : bool) (st : state) (e : cache_entry) :
  api_key <> EmptyString ->
  session_state st !! file_key_of f = Some e ->
  not_displayable e = true ->
  process_resume w (Some f) api_key regenerate st = (Return tt, st).
Proof.
  intros Hkey Hentry Hnot. unfold process_resume. rewrite (api_key_given _ Hkey).
  rewrite (bind_return _ _ _ _ _ (ensure_results_present w f api_key st e Hentry)).
  now apply (show_results_not_displayable _ _ _ e).
Qed.

Lemma stored_failure_is_final_witness :
  process_resume working_world (Some sample_upload) "key" true
    (mkState {[ file_key_of sample_upload := failed_entry ]} [])
  = (Return tt, mkState {[ file_key_of sample_upload := failed_entry ]} []).
Proof.
  apply (stored_failure_is_final working_world sample_upload "key" true _ failed_entry).
  - discriminate.
  - reflexivity.
  - reflexivity.
Defined.

(** X2. The cache is keyed by the file's name alone: while an entry for a
    name is present, a run for any upload of that name is the run for the
    upload that created it, its bytes never looked at. *)
Theorem cache_is_keyed_by_name (w : world) (f1 f2 : uploaded) (api_key : string)
    (regenerate : bool) (st : state) (e : cache_entry) :
  up_name f1 = up_name f2 ->
  session_state st !! file_key_of f1 = Some e ->
  process_resume w (Some f2) api_key regenerate st
  = process_resume w (Some f1) api_key regenerate st
  /\ (api_key <> EmptyString ->
      process_resume w (Some f2) api_key regenerate st
      = show_results (file_key_of f1) regenerate st).
Proof.
  intros Hname Hentry.
  assert (Hk : file_key_of f2 = file_key_of f1) by (unfold file_key_of; now rewrite Hname).
  assert (Hshow : forall f, file_key_of f = file_key_of f1 -> api_key <> EmptyString ->
                    process_resume w (Some f) api_key regenerate st
                    = show_results (file_key_of f1) regenerate st).
  { intros f Hf Hkey. unfold process_resume. rewrite (api_key_given _ Hkey).
    rewrite <- Hf in Hentry.
    rewrite (bind_return _ _ _ _ _ (ensure_results_present w f api_key st e Hentry)).
    now rewrite Hf. }
  split; [|now apply Hshow].
  destruct (String.eqb_spec api_key EmptyString) as [->|Hkey]; [reflexivity|].
  now rewrite !Hshow.
Qed.

Lemma cache_is_keyed_by_name_witness :
  process_resume failing_world (Some sample_upload_same_name) "key" false
    (cached_state sample_upload (Some sample_context) (questions_with_points sample_points))
  = process_resume failing_world (Some sample_upload) "key" false
      (cached_state sample_upload (Some sample_context) (questions_with_points sample_points)).
Proof.
  apply (proj1 (cache_is_keyed_by_name failing_world sample_upload sample_upload_same_name
                  "key" false
                  (cached_state sample_upload (Some sample_context)
                     (questions_with_points sample_points))
                  (mkEntry (Some sample_context) (questions_with_points sample_points))
                  eq_refl eq_refl)).
Defined.

Lemma keeps_other_keys_logs {A} (key : string) (p : event -> bool) (m : M A) :
  only_logs p m -> keeps_other_keys key m.
Proof.
  intros Hm st k _. destruct (Hm st) as (o & evs & Hrun & _). now rewrite Hrun.
Qed.

Lemma keeps_other_keys_bind {A B} (key : string) (m : M A) (k : A -> M B) :
  keeps_other_keys key m -> (forall a, keeps_other_keys key (k a)) ->
  keeps_other_keys key (bind m k).
Proof.
  intros Hm Hk st j Hj. specialize (Hm st j Hj). unfold bind.
  destruct (m st) as [[a|e| |] st1]; cbn [snd] in *; try exact Hm.
  rewrite <- Hm. now apply Hk.
Qed.

Lemma only_logs_all_ret {A} (a : A) : only_logs (fun _ => true) (ret a).
Proof. now apply only_logs_ret. Qed.

Lemma only_logs_weaken {A} (p q : event -> bool) (m : M A) :
  (forall e, p e = true -> q e = true) -> only_logs p m -> only_logs q m.
Proof.
  intros Hpq Hm st. destruct (Hm st) as (o & evs & Hrun & Hp).
  exists o, evs. split; [exact Hrun|].
  clear Hrun. induction evs as [|e evs IH]; [reflexivity|].
  cbn [forallb] in *. apply andb_prop in Hp as [He Hevs].
  now rewrite (Hpq e He), IH.
Qed.

Lemma only_logs_extract (w : world) (content : string) :
  only_logs (fun _ => true) (extract_pdf_text w content).
Proof.
  intros st. rewrite extract_pdf_text_run.
  destruct (bind_exn _ _); eexists _, _; (split; [reflexivity|]);
    apply forallb_forall; reflexivity.
Qed.

Lemma only_logs_chain (w : world) (resume_text api_key : string) :
  only_logs (fun _ => true) (run_agentic_chain w resume_text api_key).
Proof.
  intros st. destruct (run_agentic_chain_events w resume_text api_key st)
    as (o & evs & Hrun & _).
  exists o. eexists. split; [exact Hrun|]. apply forallb_forall. reflexivity.
Qed.

Lemma keeps_other_keys_ensure (w : world) (f : uploaded) (api_key : string) :
  keeps_other_keys (file_key_of f) (ensure_results w f api_key).
Proof.
  unfold ensure_results. apply keeps_other_keys_bind.
  - intros st k _. reflexivity.
  - intros present. destruct present; [intros st k _; reflexivity|].
    apply keeps_other_keys_bind;
      [apply (keeps_other_keys_logs _ _ _ (only_logs_extract w _))|].
    intros text. destruct (String.eqb text EmptyString).
    + apply keeps_other_keys_bind; [|intros _ st k _; reflexivity].
      apply (keeps_other_keys_logs _ (fun _ => true)). now apply only_logs_ui.
    + apply keeps_other_keys_bind.
      { apply (keeps_other_keys_logs _ (fun _ => true)). now apply only_logs_ui. }
      intros _. apply keeps_other_keys_bind;
        [apply (keeps_other_keys_logs _ _ _ (only_logs_chain w _ _))|].
      intros r st k Hk. unfold session_set. cbn [snd session_state].
      now apply lookup_insert_ne.
Qed.

Lemma keeps_other_keys_show (file_key : string) (regenerate : bool) :
  keeps_other_keys file_key (show_results file_key regenerate).
Proof.
  assert (Hui : forall x, keeps_other_keys file_key (ui x))
    by (intros x; apply (keeps_other_keys_logs _ (fun _ => true)); now apply only_logs_ui).
  assert (Hret : forall A (a : A), keeps_other_keys file_key (ret a))
    by (intros A a st k _; reflexivity).
  unfold show_results. apply keeps_other_keys_bind; [intros st k _; reflexivity|].
  intros cached. destruct cached as [[[c|] qs]|]; cbn [entry_context entry_questions];
    try apply Hret.
  destruct (truthy (Some c) && nonempty qs); [|apply Hret].
  repeat (apply keeps_other_keys_bind; [apply Hui|]; intros _).
  apply keeps_other_keys_bind.
  - destruct regenerate; [|apply Hret].
    apply keeps_other_keys_bind; [intros st k _; reflexivity|]. intros present.
    apply keeps_other_keys_bind; [|intros _ st k _; reflexivity].
    destruct present; [|apply Hret].
    intros st k Hk. unfold session_del. cbn [snd session_state].
    now apply lookup_delete_ne.
  - intros _. apply keeps_other_keys_bind; [|intros total; apply Hui].
    apply (keeps_other_keys_logs _ (fun _ => true)).
    now apply only_logs_display_questions.
Qed.

(** X3. Whatever a run of the script does, and however it ends, it
    leaves the entries of all other files as they were: only the entry
    under the uploaded file's own key can appear, change or go. *)
Theorem other_entries_untouched (w : world) (uploaded_file : option uploaded)
    (api_key : string) (regenerate : bool) (st : state) (k : string) :
  (forall f, uploaded_file = Some f -> k <> file_key_of f) ->
  session_state (snd (process_resume w uploaded_file api_key regenerate st)) !! k
  = session_state st !! k.
Proof.
  intros Hk. unfold process_resume.
  destruct uploaded_file as [f|]; [|reflexivity].
  destruct (String.eqb api_key EmptyString); [reflexivity|].
  apply (keeps_other_keys_bind (file_key_of f)).
  - apply keeps_other_keys_ensure.
  - intros _. apply keeps_other_keys_show.
  - now apply Hk.
Qed.

Lemma other_entries_untouched_witness :
  session_state
    (snd (process_resume working_world (Some sample_upload) "key" false
            (mkState {[ "results_other.pdf" := failed_entry ]} [])))
    !! "results_other.pdf"
  = Some failed_entry.
Proof.
  rewrite (other_entries_untouched working_world (Some sample_upload) "key" false
             (mkState {[ "results_other.pdf" := failed_entry ]} []) "results_other.pdf").
  - reflexivity.
  - intros f [= <-]. discriminate.
Defined.

(** ** The AI chain: what it returns and what it costs *)

(** X4. What the coordinator returns is either (absent, empty) or a
    context that is present and not empty with the list phase 2 returned:
    it never hands on an empty context, and never questions without a
    context. *)
Theorem run_agentic_chain_result (w : world) (resume_text api_key : string)
    (st st' : state) (ctx : option dict) (qs : list dict) :
  run_agentic_chain w resume_text api_key st = (Return (ctx, qs), st') ->
  (ctx = None /\ qs = []) \/ (exists c, ctx = Some c /\ c <> ∅).
Proof.
  rewrite run_agentic_chain_unfold.
  destruct (init_outcome w api_key (log st)) as [e|m]; [intros [= <- <- _]; now left|].
  cbv zeta.
  destruct (run_context_analysis w m resume_text _) as [[[c|]|e| |] st2];
    try discriminate; [|intros [= <- <- _]; now left].
  unfold truthy. destruct (bool_decide (c = ∅)) eqn:Hc; cbn [negb].
  - intros [= <- <- _]. now left.
  - destruct (run_question_generation w m c _) as [[qs'|e| |] st4]; try discriminate.
    intros [= <- <- _]. right. exists c. split; [reflexivity|].
    now apply bool_decide_eq_false in Hc.
Qed.

Lemma run_agentic_chain_result_witness :
  (Some sample_context = None /\ [question_api; question_concurrency] = [])
  \/ (exists c : dict, Some sample_context = Some c /\ c <> ∅).
Proof.
  apply (run_agentic_chain_result working_world "resume" "key" empty_state
           (snd (run_agentic_chain working_world "resume" "key" empty_state))
           (Some sample_context) [question_api; question_concurrency]).
  reflexivity.
Defined.

Lemma count_events_ui (p : event -> bool) (evs : list event) :
  (forall x, p (EvUi x) = false) -> forallb is_ui evs = true ->
  count_events p evs = 0%nat.
Proof.
  intros Hp Hevs. apply (count_events_none p is_ui evs Hevs).
  intros [] He; try discriminate He. apply Hp.
Qed.

Ltac counts_done :=
  repeat split; intros; try reflexivity; try (cbn; lia); try discriminate.

(** The calls of one run of the coordinator, counted. *)
Lemma run_agentic_chain_counts (w : world) (resume_text api_key : string) (st : state) :
  exists (o : outcome (option dict * list dict)) (evs : list event),
    run_agentic_chain w resume_text api_key st = (o, logged st evs)
    /\ count_events is_configure evs = 1%nat
    /\ count_events is_pdf_read evs = 0%nat
    /\ (count_events is_generate evs <= 2)%nat
    /\ (forall m, init_outcome w api_key (log st) = inr m ->
                  (1 <= count_events is_generate evs)%nat)
    /\ (forall e, init_outcome w api_key (log st) = inl e ->
                  count_events is_generate evs = 0%nat)
    /\ (forall c qs, o = Return (Some c, qs) -> count_events is_generate evs = 2%nat)
    /\ (forall qs, o = Return (None, qs) -> (count_events is_generate evs <= 1)%nat).
Proof.
  rewrite run_agentic_chain_unfold.
  destruct (count_configure_init w api_key (log st)) as (Hc1 & Hp0).
  pose proof (count_generate_init w api_key (log st)) as Hg0.
  destruct (init_outcome w api_key (log st)) as [e|m].
  - eexists _, _. split; [reflexivity|].
    rewrite !count_events_app, Hc1, Hp0, Hg0.
    counts_done.
  - cbv zeta.
    destruct (run_context_analysis_logs w m resume_text
                (logged st (init_events w api_key (log st) ++ phase1_banner)))
      as (ctx & e1 & Hrun1 & He1).
    rewrite Hrun1.
    assert (H1 : forall p, (forall x, p (EvUi x) = false) -> count_events p e1 = 0%nat)
      by (intros p Hp; now apply count_events_ui).
    assert (Hfailed :
      exists evs,
        logged (logged (logged st (init_events w api_key (log st) ++ phase1_banner))
                  (EvGenerate (context_prompt w resume_text) :: e1)) [phase1_failed]
        = logged st evs
        /\ count_events is_configure evs = 1%nat
        /\ count_events is_pdf_read evs = 0%nat
        /\ count_events is_generate evs = 1%nat).
    { eexists. split; [norm_log; reflexivity|].
      change (EvGenerate (context_prompt w resume_text) :: e1 ++ [phase1_failed])
        with ([EvGenerate (context_prompt w resume_text)] ++ e1 ++ [phase1_failed]).
      rewrite !count_events_app, Hc1, Hp0, Hg0, !H1 by reflexivity.
      repeat split; reflexivity. }
    destruct ctx as [c|].
    2:{ destruct Hfailed as (evs & -> & Hc & Hp & Hg). eexists _, evs.
        split; [reflexivity|]. rewrite Hc, Hp, Hg.
        counts_done. }
    destruct (truthy (Some c)).
    2:{ destruct Hfailed as (evs & -> & Hc & Hp & Hg). eexists _, evs.
        split; [reflexivity|]. rewrite Hc, Hp, Hg.
        counts_done. }
    clear Hfailed.
    match goal with
    | |- context [run_question_generation w m c ?s] =>
        destruct (run_question_generation_logs w m c s) as (o2 & e2 & Hrun2 & He2)
    end.
    rewrite Hrun2.
    assert (H2 : forall p, (forall x, p (EvUi x) = false) -> count_events p e2 = 0%nat)
      by (intros p Hp; now apply count_events_ui).
    assert (Hcount : forall tail, forallb is_ui tail = true ->
      let evs := init_events w api_key (log st) ++ phase1_banner
                 ++ [EvGenerate (context_prompt w resume_text)] ++ e1 ++ phase2_banner
                 ++ [EvGenerate (questions_prompt w c)] ++ e2 ++ tail in
      count_events is_configure evs = 1%nat
      /\ count_events is_pdf_read evs = 0%nat
      /\ count_events is_generate evs = 2%nat).
    { intros tail Htail evs. unfold evs.
      rewrite !count_events_app, Hc1, Hp0, Hg0, !H1, !H2 by reflexivity.
      rewrite !(count_events_ui _ tail) by (reflexivity || exact Htail).
      repeat split; reflexivity. }
    destruct o2 as [qs|e| |].
    + destruct (Hcount [phase2_status qs]) as (Hc & Hp & Hg).
      { unfold phase2_status. now destruct (nonempty qs). }
      eexists _, _. split; [norm_log; reflexivity|].
      cbn [app] in Hc, Hp, Hg. rewrite Hc, Hp, Hg.
      counts_done.
    + destruct (Hcount []) as (Hc & Hp & Hg); [reflexivity|].
      eexists _, _. split; [norm_log; reflexivity|].
      cbn [app] in Hc, Hp, Hg. rewrite app_nil_r in Hc, Hp, Hg. rewrite Hc, Hp, Hg.
      counts_done.
    + destruct (Hcount []) as (Hc & Hp & Hg); [reflexivity|].
      eexists _, _. split; [norm_log; reflexivity|].
      cbn [app] in Hc, Hp, Hg. rewrite app_nil_r in Hc, Hp, Hg. rewrite Hc, Hp, Hg.
      counts_done.
    + destruct (Hcount []) as (Hc & Hp & Hg); [reflexivity|].
      eexists _, _. split; [norm_log; reflexivity|].
      cbn [app] in Hc, Hp, Hg. rewrite app_nil_r in Hc, Hp, Hg. rewrite Hc, Hp, Hg.
      counts_done.
Qed.

(** X5. One run of the coordinator configures the client exactly once,
    never reads a PDF, and calls the model at most twice: not at all when
    the client cannot be set up, once when phase 1 does not give a usable
    context, twice otherwise, whatever phase 2 does. *)
Theorem run_agentic_chain_calls (w : world) (resume_text api_key : string) (st : state) :
  exists (o : outcome (option dict * list dict)) (evs : list event),
    run_agentic_chain w resume_text api_key st = (o, logged st evs)
    /\ count_events is_configure evs = 1%nat
    /\ count_events is_pdf_read evs = 0%nat
    /\ (count_events is_generate evs <= 2)%nat
    /\ (forall m, init_outcome w api_key (log st) = inr m ->
                  (1 <= count_events is_generate evs)%nat)
    /\ (forall e, init_outcome w api_key (log st) = inl e ->
                  count_events is_generate evs = 0%nat)
    /\ (forall c qs, o = Return (Some c, qs) -> count_events is_generate evs = 2%nat)
    /\ (forall qs, o = Return (None, qs) -> (count_events is_generate evs <= 1)%nat).
Proof. apply run_agentic_chain_counts. Qed.

(** X6. Phase 1 contains every failure: it always returns, after exactly
    one call to the model. It returns the decoded context when the call,
    reading the answer's text and decoding it all succeed, silently; when
    any of the three raises, it returns absent and shows exactly one error
    message, worded by whether the exception is a JSON decoding error. *)
Theorem run_context_analysis_contains_failures (w : world) (m : model)
    (resume_text : string) (st : state) :
  run_context_analysis w m resume_text st =
    match context_reply w m resume_text (log st) with
    | inr ctx => (Return ctx, logged st [EvGenerate (context_prompt w resume_text)])
    | inl e => (Return None,
                logged st [EvGenerate (context_prompt w resume_text); context_error e])
    end.
Proof.
  unfold run_context_analysis, try_except, bind, context_reply, bind_exn.
  rewrite call_generate_content_run.
  destruct (generate_content w (log st) m _) as [e|[[e|text]]].
  - destruct e; cbn; norm_log; reflexivity.
  - destruct e; cbn; norm_log; reflexivity.
  - cbn [response_text lift ret]. destruct (json_loads_context w text) as [e|ctx];
      cbn [lift raise ret]; [|reflexivity].
    destruct e; cbn; norm_log; reflexivity.
Qed.

Lemma run_question_generation_cases (w : world) (m : model) (c : dict) (st : state) :
  let gen := EvGenerate (questions_prompt w c) in
  match generate_content w (log st) m (questions_prompt w c) with
  | inl e =>
      if is_decode_error e
      then run_question_generation w m c st
           = (Raise (UnboundLocalError "response"),
              logged st [gen; EvUi (StError "Failed to parse AI response: " (Some e))])
      else run_question_generation w m c st
           = (Return [], logged st [gen; EvUi (StError "Question generation failed: " (Some e))])
  | inr r =>
      match response_text r with
      | inl e =>
          if is_decode_error e
          then run_question_generation w m c st
               = (Raise e,
                  logged st [gen; EvUi (StError "Failed to parse AI response: " (Some e))])
          else run_question_generation w m c st
               = (Return [],
                  logged st [gen; EvUi (StError "Question generation failed: " (Some e))])
      | inr text =>
          match json_loads_questions w text with
          | inl e =>
              exists evs, evs <> [] /\
                run_question_generation w m c st = (Return [], logged st (gen :: evs))
          | inr data =>
              match data !! "questions" with
              | Some (q :: qs) =>
                  run_question_generation w m c st = (Return (q :: qs), logged st [gen])
              | _ =>
                  run_question_generation w m c st
                  = (Return [],
                     logged st [gen;
                                EvUi (StWarning "No questions generated. Raw AI output:" None);
                                EvUi (StCode text)])
              end
          end
      end
  end.
Proof.
  cbv zeta. unfold run_question_generation, try_with.
  rewrite call_generate_content_run.
  destruct (generate_content w (log st) m _) as [e|[[e|text]]].
  - destruct e; cbn; norm_log; reflexivity.
  - unfold try_except, bind. cbn [response_text lift raise].
    destruct e; cbn; norm_log; reflexivity.
  - unfold try_except, bind. cbn [response_text lift raise ret].
    destruct (json_loads_questions w text) as [e|data]; cbn [lift raise ret].
    + destruct e; cbn; norm_log; (eexists; split; [|reflexivity]; discriminate).
    + destruct (data !! "questions") as [[|q qs]|]; cbn; norm_log; reflexivity.
Qed.



Lemma run_question_generation_raises (w : world) (m : model) (c : dict) (st st' : state)
    (o : outcome (list dict)) :
  run_question_generation w m c st = (o, st') ->
  o <> Stop /\ o <> Rerun
  /\ (forall e, o = Raise e -> e = UnboundLocalError "response" \/ is_decode_error e = true).
Proof.
  pose proof (run_question_generation_cases w m c st) as H. cbv zeta in H.
  destruct (generate_content w (log st) m (questions_prompt w c)) as [e|r].
  - destruct (is_decode_error e); rewrite H; intros [= <- _];
      (repeat split; [discriminate | discriminate | intros e' [= <-]; auto]).
  - destruct (response_text r) as [e|text].
    + destruct (is_decode_error e) eqn:He; rewrite H; intros [= <- _];
        (repeat split; [discriminate | discriminate | intros e' [= <-]; auto]).
    + destruct (json_loads_questions w text) as [e|data].
      * destruct H as (evs & _ & ->). intros [= <- _].
        repeat split; discriminate.
      * destruct (data !! "questions") as [[|q qs0]|]; rewrite H; intros [= <- _];
          (repeat split; discriminate).
Qed.

(** X8. The coordinator never stops or reruns the script, and the
    failures of the set-up and of phase 1 never escape it: when it ends
    in an exception, the client had been set up and phase 1 had returned
    a context that is present and not empty, so the exception was raised
    after phase 1. *)
Theorem run_agentic_chain_escapes (w : world) (resume_text api_key : string)
    (st st' : state) (o : outcome (option dict * list dict)) :
  run_agentic_chain w resume_text api_key st = (o, st') ->
  o <> Stop /\ o <> Rerun
  /\ (forall e, o = Raise e ->
      exists (m : model) (c : dict),
        init_outcome w api_key (log st) = inr m
        /\ fst (run_context_analysis w m resume_text
                  (logged st (init_events w api_key (log st) ++ phase1_banner)))
           = Return (Some c)
        /\ c <> ∅).
Proof.
  rewrite run_agentic_chain_unfold.
  destruct (init_outcome w api_key (log st)) as [e|m].
  { intros [= <- _]. repeat split; discriminate. }
  cbv zeta.
  destruct (run_context_analysis_logs w m resume_text
              (logged st (init_events w api_key (log st) ++ phase1_banner)))
    as (ctx & e1 & Hrun1 & _).
  rewrite Hrun1.
  destruct ctx as [c|]; [|intros [= <- _]; repeat split; discriminate].
  destruct (truthy (Some c)) eqn:Htruthy; [|intros [= <- _]; repeat split; discriminate].
  destruct (run_question_generation w m c _) as [o2 st4] eqn:Hq.
  apply run_question_generation_raises in Hq as (Hs & Hr & He).
  destruct o2 as [qs|e| |]; try congruence; intros [= <- _].
  - repeat split; discriminate.
  - repeat split; try discriminate. intros e' _. exists m, c.
    split; [reflexivity|]. split; [now rewrite Hrun1|].
    intros ->. discriminate Htruthy.
Qed.

Lemma run_agentic_chain_escapes_witness :
  fst (run_agentic_chain decode_error_world "resume" "key" empty_state)
  = Raise (UnboundLocalError "response")
  /\ exists (m : model) (c : dict),
       init_outcome decode_error_world "key" (log empty_state) = inr m
       /\ fst (run_context_analysis decode_error_world m "resume"
                 (logged empty_state
                    (init_events decode_error_world "key" (log empty_state)
                     ++ phase1_banner)))
          = Return (Some c)
       /\ c <> ∅.
Proof.
  split; [reflexivity|].
  apply (proj2 (proj2 (run_agentic_chain_escapes decode_error_world "resume" "key"
                         empty_state
                         (snd (run_agentic_chain decode_error_world "resume" "key" empty_state))
                         (Raise (UnboundLocalError "response")) eq_refl))
           (UnboundLocalError "response") eq_refl).
Defined.

(** X9. When the pipeline of a first upload ends in an exception, the
    run of the script ends in that exception and nothing is stored under
    the file's key, so the next run starts over; unlike an outcome the
    pipeline returns, which is stored even when it is a failure. *)
Theorem pipeline_exception_is_not_cached (w : world) (f : uploaded) (api_key : string)
    (regenerate : bool) (st st1 st2 : state) (text : string) (e : exn) :
  api_key <> EmptyString ->
  session_state st !! file_key_of f = None ->
  extract_pdf_text w (up_content f) st = (Return text, st1) ->
  text <> EmptyString ->
  run_agentic_chain w text api_key (logged st1 [spinner]) = (Raise e, st2) ->
  process_resume w (Some f) api_key regenerate st = (Raise e, st2)
  /\ session_state st2 = session_state st.
Proof.
  intros Hkey Habsent Hextract Htext Hchain. split.
  - unfold process_resume. rewrite (api_key_given _ Hkey).
    unfold bind at 1. unfold ensure_results.
    rewrite (bind_return _ _ _ _ _ (session_contains_absent _ _ Habsent)).
    rewrite (bind_return _ _ _ _ _ Hextract).
    rewrite (proj2 (String.eqb_neq text EmptyString) Htext).
    rewrite bind_ui. fold spinner. unfold bind at 1. now rewrite Hchain.
  - destruct (only_logs_extract w (up_content f) st) as (o1 & e1 & H1 & _).
    rewrite Hextract in H1. injection H1 as _ ->.
    destruct (only_logs_chain w text api_key (logged (logged st e1) [spinner]))
      as (o2 & e2 & H2 & _).
    rewrite Hchain in H2. injection H2 as _ ->. reflexivity.
Qed.

Lemma pipeline_exception_is_not_cached_witness :
  fst (process_resume decode_error_world (Some sample_upload) "key" false empty_state)
  = Raise (UnboundLocalError "response")
  /\ session_state
       (snd (process_resume decode_error_world (Some sample_upload) "key" false empty_state))
     = ∅.
Proof.
  destruct (pipeline_exception_is_not_cached decode_error_world sample_upload "key" false
              empty_state
              (snd (extract_pdf_text decode_error_world (up_content sample_upload) empty_state))
              (snd (run_agentic_chain decode_error_world "Jane Doe, engineer" "key"
                      (logged (snd (extract_pdf_text decode_error_world
                                      (up_content sample_upload) empty_state)) [spinner])))
              "Jane Doe, engineer" (UnboundLocalError "response"))
    as [Hrun Hsession].
  - discriminate.
  - reflexivity.
  - reflexivity.
  - discriminate.
  - reflexivity.
  - rewrite Hrun. cbn [fst snd]. split; [reflexivity | exact Hsession].
Defined.

(** ** The question cards *)

Lemma bind_assoc {A B C} (m : M A) (k : A -> M B) (h : B -> M C) (st : state) :
  bind (bind m k) h st = bind m (fun a => bind (k a) h) st.
Proof. unfold bind. destruct (m st) as [[a|e| |] st1]; reflexivity. Qed.

Lemma bind_ext {A B} (m : M A) (k1 k2 : A -> M B) (st : state) :
  (forall a st', k1 a st' = k2 a st') -> bind m k1 st = bind m k2 st.
Proof.
  intros H. unfold bind. destruct (m st) as [[a|e| |] st1]; try reflexivity. apply H.
Qed.

(** X10. Showing a list of cards in two parts is showing the first part
    and then the second, numbered on from where the first ended and
    adding to the total the first reached; an exception in the first part
    ends both. *)
Theorem display_questions_app (qs1 qs2 : list dict) (idx total : Z) (st : state) :
  display_questions (qs1 ++ qs2) idx total st
  = bind (display_questions qs1 idx total)
         (fun t => display_questions qs2 (idx + Z.of_nat (length qs1)) t) st.
Proof.
  revert idx total st. induction qs1 as [|q qs1 IH]; intros idx total st.
  - cbn [app display_questions length]. rewrite bind_ret.
    now replace (idx + Z.of_nat 0) with idx by lia.
  - cbn [app display_questions length]. rewrite bind_assoc.
    apply bind_ext. intros pts st1. rewrite bind_assoc.
    apply bind_ext. intros t st2. rewrite IH.
    now replace (idx + 1 + Z.of_nat (length qs1))
      with (idx + Z.of_nat (S (length qs1))) by lia.
Qed.

Lemma cards_events_no_total (qs : list dict) :
  forall idx, count_events is_total_line (cards_events qs idx) = 0%nat.
Proof.
  induction qs as [|q qs IH]; intros idx; [reflexivity|].
  cbn [cards_events]. rewrite count_events_app, IH. reflexivity.
Qed.

(** X11. The running total stops at the first card whose points are not
    an integer: the cards up to and including that one are shown, the
    addition raises a [TypeError], the cards after it and the summary
    line are not shown, and the run of the script ends in the exception,
    the stored entry left as it is. *)
Theorem points_type_error_ends_the_run (w : world) (f : uploaded) (api_key : string)
    (st : state) (c : dict) (pre post : list dict) (q : dict) :
  api_key <> EmptyString ->
  session_state st !! file_key_of f = Some (mkEntry (Some c) (pre ++ q :: post)) ->
  c <> ∅ ->
  Forall (fun q => is_Some (card_points_int q)) pre ->
  card_points_int q = None ->
  exists (msg : string) (evs : list event),
    process_resume w (Some f) api_key false st = (Raise (TypeError msg), logged st evs)
    /\ evs = results_header c (pre ++ q :: post) ++ cards_events pre 0
             ++ card_events q (Z.of_nat (length pre))
    /\ count_events is_total_line evs = 0%nat.
Proof.
  intros Hkey Hentry Hc Hpre Hq.
  destruct (display_questions_type_error q post (Z.of_nat (length pre))
              (sum_points pre)
              (logged (logged st (results_header c (pre ++ q :: post))) (cards_events pre 0))
              Hq) as (msg & Hraise).
  exists msg. eexists. split; [|split; [reflexivity|]].
  - unfold process_resume. rewrite (api_key_given _ Hkey).
    rewrite (bind_return _ _ _ _ _ (ensure_results_present w f api_key st _ Hentry)).
    unfold show_results.
    rewrite (bind_return _ _ st st (Some (mkEntry (Some c) (pre ++ q :: post))))
      by (unfold session_get; now rewrite Hentry).
    cbn [entry_context entry_questions].
    rewrite (truthy_some _ Hc), (nonempty_true (pre ++ q :: post))
      by (destruct pre; discriminate).
    cbn [andb]. repeat mstep. norm_log. fold (results_header c (pre ++ q :: post)).
    unfold bind at 1. rewrite display_questions_app.
    rewrite (bind_return _ _ _ _ _ (display_questions_run pre 0 0 _ Hpre)).
    rewrite !Z.add_0_l, Hraise. now rewrite !logged_logged.
  - rewrite !count_events_app, cards_events_no_total. reflexivity.
Qed.

Lemma points_type_error_ends_the_run_witness :
  exists (msg : string) (evs : list event),
    process_resume failing_world (Some sample_upload) "key" false
      (cached_state sample_upload (Some sample_context) sample_questions_text_points)
    = (Raise (TypeError msg),
       logged (cached_state sample_upload (Some sample_context) sample_questions_text_points)
         evs)
    /\ count_events is_total_line evs = 0%nat.
Proof.
  destruct (points_type_error_ends_the_run failing_world sample_upload "key"
              (cached_state sample_upload (Some sample_context) sample_questions_text_points)
              sample_context
              (questions_with_points [5; 8])
              (questions_with_points [10; 7; 9; 6; 15; 14; 14])
              {[ "max_points" := VStr "12" ]})
    as (msg & evs & Hrun & _ & Hcount).
  - discriminate.
  - reflexivity.
  - apply map_non_empty_singleton.
  - repeat constructor; eexists; reflexivity.
  - reflexivity.
  - exists msg, evs. split; [exact Hrun | exact Hcount].
Defined.

(** ** PDF text: pages *)

Lemma rstrip_blank (s : string) :
  string_forallb isspace s = true -> rstrip_chars isspace s = EmptyString.
Proof.
  induction s as [|c s IH]; [reflexivity|]. cbn [string_forallb]. intros H.
  apply andb_prop in H as [Hc Hs]. rewrite rstrip_cons, (IH Hs), Hc. reflexivity.
Qed.

Lemma strip_blank (s : string) : string_forallb isspace s = true -> strip s = EmptyString.
Proof. intros H. unfold strip, strip_chars. now rewrite (rstrip_blank _ H). Qed.

Lemma string_forallb_append (p : ascii -> bool) (a b : string) :
  string_forallb p (a +:+ b) = string_forallb p a && string_forallb p b.
Proof.
  induction a as [|c a IH]; [reflexivity|].
  rewrite append_cons. cbn [string_forallb]. now rewrite IH, andb_assoc.
Qed.

Lemma join_pages_blank (pages : list (exn + option string)) :
  forallb blank_page pages = true ->
  exists t, join_pages pages = inr t /\ string_forallb isspace t = true.
Proof.
  induction pages as [|p pages IH]; [now exists EmptyString|].
  cbn [forallb]. intros H. apply andb_prop in H as [Hp Hpages].
  destruct (IH Hpages) as (t & Ht & Hblank).
  cbn [join_pages]. rewrite Ht. destruct p as [e|[s|]]; try discriminate Hp;
    cbn [bind_exn blank_page] in *.
  - eexists. split; [reflexivity|]. now rewrite string_forallb_append, Hp, Hblank.
  - eexists. split; [reflexivity|]. exact Hblank.
Qed.

Lemma join_pages_first_failure (pre post : list (exn + option string)) (e : exn) :
  forallb page_ok pre = true -> join_pages (pre ++ inl e :: post) = inl e.
Proof.
  induction pre as [|p pre IH]; [reflexivity|].
  cbn [forallb app join_pages]. intros H. apply andb_prop in H as [Hp Hpre].
  destruct p as [e'|t]; [discriminate Hp|]. cbn [bind_exn]. now rewrite (IH Hpre).
Qed.

(** X12. The text [extract_pdf_text] returns never begins or ends with
    white space, whatever the document. *)
Theorem extracted_text_is_stripped (w : world) (file_content : string)
    (st st' : state) (text : string) (c : ascii) :
  extract_pdf_text w file_content st = (Return text, st') ->
  isspace c = true ->
  first_char text <> Some c /\ last_char text <> Some c.
Proof.
  rewrite extract_pdf_text_run. intros Hrun Hc.
  destruct (bind_exn _ _) as [e|t]; injection Hrun as <- _.
  - split; discriminate.
  - now apply strip_chars_no_outer.
Qed.

Lemma extracted_text_is_stripped_witness :
  first_char "Jane Doe, engineer" <> Some " "%char
  /\ last_char "Jane Doe, engineer" <> Some " "%char.
Proof.
  apply (extracted_text_is_stripped working_world "%PDF" empty_state
           (snd (extract_pdf_text working_world "%PDF" empty_state))
           "Jane Doe, engineer" " "%char); reflexivity.
Defined.

(** X13. A document whose pages all come without text or with white
    space only (a scan) gives the empty string without an error message,
    after the one read of the PDF or none when the memo has its bytes,
    and halts a first upload with the one message that no text could be
    extracted: no call to the AI service, nothing stored. *)
Theorem scanned_pdf_halts (w : world) (f : uploaded) (api_key : string) (regenerate : bool)
    (st : state) (pages : list (exn + option string)) :
  api_key <> EmptyString ->
  session_state st !! file_key_of f = None ->
  PdfReader w (up_content f) = inr pages ->
  forallb blank_page pages = true ->
  extract_pdf_text w (up_content f) st
  = (Return EmptyString, logged st (pdf_reads (up_content f) (log st)))
  /\ process_resume w (Some f) api_key regenerate st
     = (Stop, logged st (pdf_reads (up_content f) (log st) ++ [extraction_failed])).
Proof.
  intros Hkey Habsent Hpages Hblank.
  destruct (join_pages_blank _ Hblank) as (t & Ht & Hspace).
  assert (Hextract : extract_pdf_text w (up_content f) st
                     = (Return EmptyString, logged st (pdf_reads (up_content f) (log st)))).
  { rewrite extract_pdf_text_run, Hpages. cbn [bind_exn]. rewrite Ht.
    now rewrite (strip_blank _ Hspace). }
  split; [exact Hextract|].
  unfold process_resume. rewrite (api_key_given _ Hkey).
  apply bind_stop. unfold ensure_results.
  rewrite (bind_return _ _ _ _ _ (session_contains_absent _ _ Habsent)).
  rewrite (bind_return _ _ _ _ _ Hextract).
  cbn [String.eqb]. rewrite bind_ui. unfold st_stop. now rewrite logged_logged.
Qed.

Lemma scanned_pdf_halts_witness :
  process_resume scanned_world (Some sample_upload) "key" false empty_state
  = (Stop, logged empty_state [EvPdfReader "%PDF"; extraction_failed]).
Proof.
  apply (proj2 (scanned_pdf_halts scanned_world sample_upload "key" false empty_state
                  [inr None; inr (Some "   ")]
                  ltac:(discriminate) eq_refl eq_refl eq_refl)).
Defined.

(** X14. The first page whose text cannot be extracted decides: the
    text of the pages before it is dropped, the pages after it are not
    looked at, that page's exception is the one reported, and the result
    is the empty string; so it is on every later call for the same
    bytes, which the memo answers without a read. *)
Theorem first_failing_page_decides (w : world) (file_content : string) (st : state)
    (pre post : list (exn + option string)) (e : exn) :
  PdfReader w file_content = inr (pre ++ inl e :: post) ->
  forallb page_ok pre = true ->
  extract_pdf_text w file_content st
  = (Return EmptyString,
     logged st (pdf_reads file_content (log st) ++ [pdf_error e])).
Proof.
  intros Hpages Hpre. rewrite extract_pdf_text_run, Hpages. cbn [bind_exn].
  now rewrite (join_pages_first_failure _ _ _ Hpre).
Qed.

Lemma first_failing_page_decides_witness :
  extract_pdf_text broken_page_world "%PDF" empty_state
  = (Return EmptyString,
     logged empty_state [EvPdfReader "%PDF"; pdf_error (Exception "bad stream")]).
Proof.
  apply (first_failing_page_decides broken_page_world "%PDF" empty_state
           [inr (Some "Jane Doe")] [inr (Some "engineer")] (Exception "bad stream"));
    reflexivity.
Defined.

(** ** Colours: the card against the lookup *)

(** X15. The badge of a card and [get_difficulty_color] agree exactly on
    the recognised difficulties: for a difficulty that is, in lower case,
    easy, medium or hard both give the same colour; for every other text
    the card shows orange where the lookup gives gray. *)
Theorem card_colour_against_lookup (q : dict) :
  let t := card_badge_text q in
  ((lower t = "easy" \/ lower t = "medium" \/ lower t = "hard") ->
   card_badge_color q = get_difficulty_color t)
  /\ (lower t <> "easy" -> lower t <> "medium" -> lower t <> "hard" ->
      card_badge_color q = "orange" /\ get_difficulty_color t = "gray").
Proof.
  cbv zeta. unfold card_badge_color, get_difficulty_color.
  rewrite difficulty_colors_lookup. split.
  - intros [H|[H|H]]; rewrite H; reflexivity.
  - intros He Hm Hh.
    rewrite (proj2 (String.eqb_neq _ _) He), (proj2 (String.eqb_neq _ _) Hm),
      (proj2 (String.eqb_neq _ _) Hh).
    split; reflexivity.
Qed.

Lemma card_colour_against_lookup_witness :
  card_badge_color {[ "difficulty" := VStr " HARD " ]}
  = get_difficulty_color (card_badge_text {[ "difficulty" := VStr " HARD " ]})
  /\ card_badge_color {[ "difficulty" := VInt 3 ]} = "orange"
  /\ get_difficulty_color (card_badge_text {[ "difficulty" := VInt 3 ]}) = "gray".
Proof.
  split.
  - apply (proj1 (card_colour_against_lookup {[ "difficulty" := VStr " HARD " ]})).
    right; right; vm_compute; reflexivity.
  - apply (proj2 (card_colour_against_lookup {[ "difficulty" := VInt 3 ]}));
      vm_compute; discriminate.
Defined.

(** ** Removing the fence markers *)

Lemma match_fence_ticks (s : string) :
  match_fence s = None <-> (count_prefix is_backtick s < 3)%nat.
Proof.
  unfold match_fence, is_backtick.
  destruct s as [|a [|b [|c rest]]]; cbn [count_prefix].
  - split; [lia|reflexivity].
  - destruct (Ascii.eqb a backtick); split; (lia || reflexivity).
  - destruct (Ascii.eqb a backtick), (Ascii.eqb b backtick); split; (lia || reflexivity).
  - destruct (Ascii.eqb a backtick), (Ascii.eqb b backtick), (Ascii.eqb c backtick);
      cbn [andb]; try (split; (lia || reflexivity)).
    split; [|lia].
    destruct (drop _ rest) as [|d ?]; [discriminate|].
    destruct (Ascii.eqb d LF); discriminate.
Qed.

Lemma sub_fences_ticks (s : string) :
  (count_prefix is_backtick s < 3)%nat ->
  count_prefix is_backtick (sub_fences O s) = count_prefix is_backtick s.
Proof.
  induction s as [|c s IH]; intros H; [reflexivity|].
  cbn [sub_fences]. rewrite (proj2 (match_fence_ticks _) H).
  cbn [count_prefix] in *. destruct (is_backtick c); [|reflexivity].
  rewrite IH; [reflexivity|lia].
Qed.

Lemma sub_fences_no_fence (s : string) :
  forall skip : nat, contains_fence (sub_fences skip s) = false.
Proof.
  induction s as [|c s IH]; intros skip; [reflexivity|].
  cbn [sub_fences]. destruct skip as [|k]; [|apply IH].
  destruct (match_fence (String c s)) as [n|] eqn:Hm; [apply IH|].
  cbn [contains_fence]. rewrite IH.
  apply match_fence_ticks in Hm.
  replace (match_fence (String c (sub_fences 0 s))) with (@None nat); [reflexivity|].
  symmetry. apply match_fence_ticks.
  cbn [count_prefix] in *. destruct (is_backtick c); [|lia].
  rewrite sub_fences_ticks; lia.
Qed.

Lemma sub_fences_fixed (s : string) :
  contains_fence s = false -> sub_fences O s = s.
Proof.
  induction s as [|c s IH]; intros H; [reflexivity|].
  cbn [contains_fence] in H. cbn [sub_fences].
  destruct (match_fence (String c s)); [discriminate|].
  now rewrite IH.
Qed.

(** X16. What [re.sub] with the fence pattern returns has no place left
    where the pattern matches: removing matches never brings the pieces
    of a new one together. So cleaning a second time changes nothing, and
    the texts the cleaning leaves as they are are exactly those without a
    match. *)
Theorem remove_fences_leaves_no_fence (s : string) :
  contains_fence (remove_fences s) = false
  /\ remove_fences (remove_fences s) = remove_fences s
  /\ String.eqb (remove_fences s) s = negb (contains_fence s).
Proof.
  unfold remove_fences. split; [|split].
  - apply sub_fences_no_fence.
  - apply sub_fences_fixed, sub_fences_no_fence.
  - destruct (contains_fence s) eqn:Hc; cbn [negb].
    + apply String.eqb_neq. intros Heq.
      pose proof (sub_fences_no_fence s O) as Hn. rewrite Heq in Hn. congruence.
    + apply String.eqb_eq. now apply sub_fences_fixed.
Qed.

(** ** The reader on fields as written *)

Lemma append_assoc3 (a b c : string) : (a +:+ b) +:+ c = a +:+ (b +:+ c).
Proof.
  induction a as [|x a IH]; [now rewrite !append_empty_l|].
  now rewrite !append_cons, IH.
Qed.

Lemma append_snoc (f : string) (c : ascii) (s : string) :
  (f +:+ String c EmptyString) +:+ s = f +:+ String c s.
Proof. now rewrite append_assoc3, append_cons, append_empty_l. Qed.

Lemma bare_char_inv (c : ascii) :
  bare_char c = true ->
  is_newline c = false /\ Ascii.eqb c comma = false /\ Ascii.eqb c LF = false
  /\ Ascii.eqb c backtick = false.
Proof.
  unfold bare_char, is_newline. intros H.
  repeat (apply andb_prop in H as [H ?]).
  repeat match goal with H : negb _ = true |- _ => apply negb_true_iff in H end.
  repeat split; try assumption.
  now apply orb_false_iff.
Qed.

Lemma quoted_char_inv (c : ascii) :
  quoted_char c = true ->
  Ascii.eqb c dquote = false /\ Ascii.eqb c LF = false /\ Ascii.eqb c backtick = false.
Proof.
  unfold quoted_char. intros H.
  repeat (apply andb_prop in H as [H ?]).
  repeat match goal with H : negb _ = true |- _ => apply negb_true_iff in H end.
  repeat split; assumption.
Qed.

Lemma edge_char_inv (c : ascii) :
  edge_char c = true ->
  isspace c = false /\ Ascii.eqb c dquote = false /\ Ascii.eqb c space = false.
Proof.
  unfold edge_char. intros H. apply andb_prop in H as [Hs Hq].
  apply negb_true_iff in Hs, Hq. repeat split; try assumption.
  destruct (Ascii.eqb_spec c space) as [->|]; [|reflexivity].
  vm_compute in Hs. discriminate.
Qed.

(** Inside an unquoted field every character but a comma or a line end
    is added to the field. *)
Lemma feed_in_field (s : string) :
  forall (fs : list string) (f : string) (n : N) (t : string),
    string_forallb bare_char s = true ->
    (n + N.of_nat (String.length s) <= field_limit)%N ->
    feed_line (mkReader IN_FIELD fs f n) (s +:+ t)
    = feed_line (mkReader IN_FIELD fs (f +:+ s) (n + N.of_nat (String.length s))) t.
Proof.
  induction s as [|c s IH]; intros fs f n t Hs Hn.
  - rewrite append_empty_l, append_empty_r. cbn [String.length N.of_nat].
    now rewrite N.add_0_r.
  - cbn [string_forallb] in Hs. apply andb_prop in Hs as [Hc Hs].
    apply bare_char_inv in Hc as (Hnl & Hcomma & _ & _).
    cbn [String.length] in Hn. rewrite Nat2N.inj_succ in Hn.
    rewrite append_cons. cbn [feed_line].
    unfold parse_process_char. cbn [rd_state]. rewrite Hnl, Hcomma.
    unfold parse_add_char. cbn [rd_field_len rd_state rd_fields rd_field].
    rewrite (proj2 (N.leb_gt _ _)) by lia.
    rewrite IH by (assumption || lia).
    rewrite append_snoc. cbn [String.length]. rewrite Nat2N.inj_succ.
    do 2 f_equal. lia.
Qed.

(** Inside a quoted field every character but the quote is added. *)
Lemma feed_in_quoted (s : string) :
  forall (fs : list string) (f : string) (n : N) (t : string),
    string_forallb quoted_char s = true ->
    (n + N.of_nat (String.length s) <= field_limit)%N ->
    feed_line (mkReader IN_QUOTED_FIELD fs f n) (s +:+ t)
    = feed_line (mkReader IN_QUOTED_FIELD fs (f +:+ s) (n + N.of_nat (String.length s))) t.
Proof.
  induction s as [|c s IH]; intros fs f n t Hs Hn.
  - rewrite append_empty_l, append_empty_r. cbn [String.length N.of_nat].
    now rewrite N.add_0_r.
  - cbn [string_forallb] in Hs. apply andb_prop in Hs as [Hc Hs].
    apply quoted_char_inv in Hc as (Hq & _ & _).
    cbn [String.length] in Hn. rewrite Nat2N.inj_succ in Hn.
    rewrite append_cons. cbn [feed_line].
    unfold parse_process_char. cbn [rd_state]. rewrite Hq.
    unfold parse_add_char. cbn [rd_field_len rd_state rd_fields rd_field].
    rewrite (proj2 (N.leb_gt _ _)) by lia.
    rewrite IH by (assumption || lia).
    rewrite append_snoc. cbn [String.length]. rewrite Nat2N.inj_succ.
    do 2 f_equal. lia.
Qed.

Lemma field_read_comma (r : reader) (fs : list string) (f : string) :
  field_read r fs f -> parse_process_char r (Some comma) = inr (at_field (fs ++ [f])).
Proof.
  destruct r as [s fs' f' n]. intros (Hfs & Hf & Hs). cbn in Hfs, Hf, Hs. subst.
  destruct Hs as [Hs | [Hs | Hs]]; rewrite Hs; reflexivity.
Qed.

Lemma field_read_newline (r : reader) (fs : list string) (f : string) :
  field_read r fs f ->
  feed_line r (String LF EmptyString) = inr (mkReader START_RECORD (fs ++ [f]) EmptyString 0).
Proof.
  destruct r as [s fs' f' n]. intros (Hfs & Hf & Hs). cbn in Hfs, Hf, Hs. subst.
  destruct Hs as [Hs | [Hs | Hs]]; rewrite Hs; reflexivity.
Qed.

Lemma field_read_end (r : reader) (fs : list string) (f : string) :
  field_read r fs f ->
  feed_line r EmptyString = inr (mkReader START_RECORD (fs ++ [f]) EmptyString 0).
Proof.
  destruct r as [s fs' f' n]. intros (Hfs & Hf & Hs). cbn in Hfs, Hf, Hs. subst.
  destruct Hs as [Hs | [Hs | Hs]]; rewrite Hs; reflexivity.
Qed.

Lemma clean_edges_first (a : ascii) (s : string) :
  clean_edges (String a s) = true -> edge_char a = true.
Proof.
  unfold clean_edges. cbn [first_char].
  destruct (last_char (String a s)) eqn:Hl.
  - intros H. now apply andb_prop in H as [H _].
  - exfalso. revert a Hl. induction s as [|b s IH]; intros a Hl; [discriminate|].
    apply (IH b). exact Hl.
Qed.

(** A field as written takes the reader from the start of the field to
    its end, with the field's text read. *)
Lemma feed_cell (c : cell) (fs : list string) (t : string) :
  cell_ok c = true ->
  exists r, feed_line (at_field fs) (format_cell c +:+ t) = feed_line r t
            /\ field_read r fs (snd c).
Proof.
  destruct c as [form s]. unfold cell_ok, format_cell. cbn [fst snd]. intros H.
  apply andb_prop in H as [H Hchars]. apply andb_prop in H as [Hedge Hlen].
  apply N.leb_le in Hlen. destruct form.
  - destruct s as [|a s].
    + exists (at_field fs). rewrite append_empty_l. repeat split. now left.
    + apply clean_edges_first, edge_char_inv in Hedge as (_ & Hq & Hsp).
      cbn [string_forallb] in Hchars. apply andb_prop in Hchars as [Ha Hs].
      apply bare_char_inv in Ha as (Hnl & Hcomma & _ & _).
      cbn [String.length] in Hlen. rewrite Nat2N.inj_succ in Hlen.
      exists (mkReader IN_FIELD fs (String a s) (1 + N.of_nat (String.length s))).
      split; [|repeat split; right; now left].
      rewrite append_cons. cbn [feed_line]. unfold at_field, parse_process_char.
      cbn [rd_state]. unfold process_start_field. rewrite Hnl, Hq, Hsp, Hcomma.
      unfold parse_add_char. cbn [rd_field_len rd_state rd_fields rd_field].
      replace (field_limit <=? 0)%N with false by reflexivity.
      cbn [then_state set_state rd_field_len rd_state rd_fields rd_field].
      unfold set_state. cbn [rd_field_len rd_state rd_fields rd_field].
      change (0 + 1)%N with 1%N.
      rewrite feed_in_field by (assumption || lia).
      reflexivity.
  - exists (mkReader QUOTE_IN_QUOTED_FIELD fs s (N.of_nat (String.length s))).
    split; [|repeat split; right; now right].
    unfold quoted. rewrite !append_cons. cbn [feed_line].
    replace (parse_process_char (at_field fs) (Some dquote))
      with (@inr exn reader (mkReader IN_QUOTED_FIELD fs EmptyString 0)) by reflexivity.
    rewrite append_assoc3, feed_in_quoted by (assumption || lia).
    rewrite append_cons, append_empty_l. cbn [feed_line].
    rewrite append_empty_l. reflexivity.
Qed.

(** A line of fields as written, with or without its newline, is read
    as one record with the fields' texts. *)
Lemma feed_cells (cs : list cell) :
  forall fs : list string,
    cs <> [] -> forallb cell_ok cs = true ->
    feed_line (at_field fs) (join_cells (map format_cell cs))
    = inr (record_read (fs ++ map snd cs))
    /\ feed_line (at_field fs) (join_cells (map format_cell cs) +:+ String LF EmptyString)
       = inr (record_read (fs ++ map snd cs)).
Proof.
  induction cs as [|c cs IH]; intros fs Hne Hok; [congruence|].
  cbn [forallb] in Hok. apply andb_prop in Hok as [Hc Hcs].
  destruct cs as [|c2 cs].
  - cbn [map join_cells]. split.
    + destruct (feed_cell c fs EmptyString Hc) as (r & Hr & Hread).
      rewrite append_empty_r in Hr. rewrite Hr. now apply field_read_end.
    + destruct (feed_cell c fs (String LF EmptyString) Hc) as (r & Hr & Hread).
      rewrite Hr. now apply field_read_newline.
  - specialize (IH (fs ++ [snd c]) ltac:(discriminate) Hcs).
    change (join_cells (map format_cell (c :: c2 :: cs)))
      with (format_cell c +:+ String comma (join_cells (map format_cell (c2 :: cs)))).
    rewrite append_assoc3, append_cons.
    change (map snd (c :: c2 :: cs)) with (snd c :: map snd (c2 :: cs)).
    replace (fs ++ snd c :: map snd (c2 :: cs))
      with ((fs ++ [snd c]) ++ map snd (c2 :: cs)) by (now rewrite <- app_assoc).
    split.
    + destruct (feed_cell c fs (String comma (join_cells (map format_cell (c2 :: cs)))) Hc)
        as (r & Hr & Hread).
      rewrite Hr. cbn [feed_line]. rewrite (field_read_comma _ _ _ Hread).
      apply IH.
    + destruct (feed_cell c fs (String comma (join_cells (map format_cell (c2 :: cs))
                                              +:+ String LF EmptyString)) Hc)
        as (r & Hr & Hread).
      rewrite Hr. cbn [feed_line]. rewrite (field_read_comma _ _ _ Hread).
      apply IH.
Qed.

(** ** Decimal numerals *)

Lemma string_of_uint_digits (d : Decimal.uint) :
  string_forallb isdecimal (NilEmpty.string_of_uint d) = true.
Proof. induction d; cbn [NilEmpty.string_of_uint string_forallb]; [reflexivity|..]; exact IHd. Qed.

Lemma int_digits_acc (d : Decimal.uint) :
  forall acc : positive,
    int_digits (NilEmpty.string_of_uint d) (Z.pos acc) true
    = Some (Z.pos (Pos.of_uint_acc d acc)).
Proof.
  induction d; intros acc; cbn [NilEmpty.string_of_uint int_digits Pos.of_uint_acc];
    [reflexivity|..];
    (replace (isdecimal _) with true by reflexivity);
    cbv iota; rewrite <- IHd; f_equal; unfold digit_value, code; cbn; lia.
Qed.

Lemma int_digits_zero (d : Decimal.uint) :
  int_digits (NilEmpty.string_of_uint d) 0 true = Some (Z.of_N (Pos.of_uint d)).
Proof.
  induction d; cbn [NilEmpty.string_of_uint int_digits Pos.of_uint];
    [reflexivity|..];
    (replace (isdecimal _) with true by reflexivity); cbv iota;
    first [ exact IHd | apply int_digits_acc ].
Qed.

Lemma int_digits_start (d : Decimal.uint) :
  d <> Decimal.Nil ->
  int_digits (NilEmpty.string_of_uint d) 0 false = Some (Z.of_N (Pos.of_uint d)).
Proof.
  intros Hd. rewrite <- int_digits_zero.
  destruct d; [congruence|..]; reflexivity.
Qed.

(** ** Strings with clean edges *)

Lemma rstrip_chars_fixed (p : ascii -> bool) (s : string) (b : ascii) :
  last_char s = Some b -> p b = false -> rstrip_chars p s = s.
Proof.
  induction s as [|c s IH]; intros Hl Hb; [reflexivity|].
  cbn [rstrip_chars]. destruct s as [|c2 s].
  - cbn in Hl. injection Hl as ->. cbn [rstrip_chars]. now rewrite Hb.
  - rewrite IH by assumption. reflexivity.
Qed.

Lemma strip_chars_fixed (p : ascii -> bool) (s : string) :
  match first_char s, last_char s with
  | Some a, Some b => p a = false /\ p b = false
  | _, _ => True
  end ->
  strip_chars p s = s.
Proof.
  unfold strip_chars. destruct s as [|a s]; [reflexivity|].
  cbn [first_char]. destruct (last_char (String a s)) as [b|] eqn:Hl.
  - intros [Ha Hb]. rewrite (rstrip_chars_fixed _ _ _ Hl Hb).
    cbn [lstrip_chars]. now rewrite Ha.
  - exfalso. revert a Hl. induction s as [|c s IH]; intros a Hl; [discriminate|].
    apply (IH c). exact Hl.
Qed.

Lemma clean_edges_strip (s : string) :
  clean_edges s = true -> strip s = s /\ strip_quotes s = s.
Proof.
  unfold clean_edges, strip, strip_quotes. intros H.
  split; apply strip_chars_fixed;
    destruct (first_char s) as [a|]; [|exact I| |exact I];
    destruct (last_char s) as [b|]; [|exact I| |exact I];
    apply andb_prop in H as [Ha Hb];
    apply edge_char_inv in Ha as (Ha1 & Ha2 & _);
    apply edge_char_inv in Hb as (Hb1 & Hb2 & _).
  - now split.
  - rewrite Ascii.eqb_sym, Ha2, Ascii.eqb_sym, Hb2. now split.
Qed.

Lemma last_char_forall (p : ascii -> bool) (s : string) (b : ascii) :
  string_forallb p s = true -> last_char s = Some b -> p b = true.
Proof.
  induction s as [|c s IH]; intros Hs Hl; [discriminate|].
  cbn [string_forallb] in Hs. apply andb_prop in Hs as [Hc Hs].
  destruct s as [|c2 s].
  - cbn in Hl. now injection Hl as <-.
  - apply IH; assumption.
Qed.

Lemma isdecimal_not_int_space (c : ascii) : isdecimal c = true -> int_space c = false.
Proof.
  unfold isdecimal, int_space, in_range. intros H.
  apply andb_prop in H as [H1 H2]. apply N.leb_le in H1, H2.
  repeat (apply orb_false_iff; split);
    try (apply andb_false_iff; right; apply N.leb_gt; lia);
    apply N.eqb_neq; lia.
Qed.

Lemma isdecimal_not_space (c : ascii) : isdecimal c = true -> isspace c = false.
Proof.
  unfold isdecimal, isspace, in_range. intros H.
  apply andb_prop in H as [H1 H2]. apply N.leb_le in H1, H2.
  repeat (apply orb_false_iff; split);
    try (apply andb_false_iff; right; apply N.leb_gt; lia);
    apply N.eqb_neq; lia.
Qed.

Lemma isdecimal_not_sign (c : ascii) (s : string) (X Y Z : option Z) :
  isdecimal c = true ->
  match String c s with
  | String "+" ds => X
  | String "-" ds => Y
  | _ => Z
  end = Z.
Proof.
  intros H.
  destruct c as [[] [] [] [] [] [] [] []]; try reflexivity; discriminate.
Qed.

(** A numeral of digits, as [Pos.to_uint] writes it. *)
Lemma to_uint_string (p : positive) :
  exists (c : ascii) (s : string),
    NilEmpty.string_of_uint (Pos.to_uint p) = String c s
    /\ string_forallb isdecimal (String c s) = true
    /\ NilZero.string_of_uint (Pos.to_uint p) = String c s.
Proof.
  pose proof (DecimalPos.Unsigned.to_uint_nonnil p) as Hne.
  pose proof (string_of_uint_digits (Pos.to_uint p)) as Hd.
  destruct (Pos.to_uint p) eqn:Hp; [congruence|..];
    cbn [NilEmpty.string_of_uint] in *; repeat eexists; exact Hd.
Qed.

Lemma strip_int_space_digits (s : string) (a : ascii) :
  string_forallb isdecimal s = true -> int_space a = false -> s <> EmptyString ->
  strip_chars int_space (String a s) = String a s.
Proof.
  intros Hs Ha Hne. apply strip_chars_fixed. cbn [first_char].
  destruct (last_char (String a s)) as [b|] eqn:Hl; [|exact I].
  split; [exact Ha|]. apply isdecimal_not_int_space.
  destruct s as [|c s]; [congruence|].
  apply (last_char_forall _ (String c s)); assumption.
Qed.

(** [int(str(z)) == z], within the limit on digits *)
Lemma py_int_py_str (z : Z) : number_ok z = true -> py_int (py_str (VInt z)) = inr z.
Proof.
  unfold number_ok. intros Hn. apply Nat.leb_le, Nat.ltb_ge in Hn. revert Hn.
  unfold py_str, Z.to_int. destruct z as [|p|p]; intros Hn.
  - reflexivity.
  - cbn [NilZero.string_of_int] in *.
    destruct (to_uint_string p) as (c & s & He & Hd & Hz). rewrite Hz in *.
    unfold py_int.
    assert (Hstrip : strip_chars int_space (String c s) = String c s).
    { apply strip_chars_fixed. cbn [first_char].
      destruct (last_char (String c s)) as [b|] eqn:Hl; [|exact I].
      split; apply isdecimal_not_int_space.
      - cbn [string_forallb] in Hd. now apply andb_prop in Hd as [Hc _].
      - now apply (last_char_forall _ _ _ Hd). }
    rewrite Hstrip.
    cbn [string_forallb] in Hd. apply andb_prop in Hd as [Hc _].
    rewrite (isdecimal_not_sign c s _ _ _ Hc).
    rewrite <- He, int_digits_start
      by apply DecimalPos.Unsigned.to_uint_nonnil.
    rewrite He, Hn. now rewrite DecimalPos.Unsigned.of_to.
  - cbn [NilZero.string_of_int] in *.
    destruct (to_uint_string p) as (c & s & He & Hd & Hz). rewrite Hz in *.
    unfold py_int.
    rewrite strip_int_space_digits by (reflexivity || assumption || discriminate).
    rewrite Hn.
    rewrite <- He, int_digits_start
      by apply DecimalPos.Unsigned.to_uint_nonnil.
    now rewrite DecimalPos.Unsigned.of_to.
Qed.

(** The numeral of a number that is not negative: digits, at least one. *)
Lemma py_str_digits (z : Z) :
  0 <= z ->
  exists (c : ascii) (s : string),
    py_str (VInt z) = String c s /\ string_forallb isdecimal (String c s) = true.
Proof.
  intros Hz. unfold py_str, Z.to_int. destruct z as [|p|p]; [| |lia].
  - exists "0"%char, EmptyString. split; reflexivity.
  - cbn [NilZero.string_of_int].
    destruct (to_uint_string p) as (c & s & _ & Hd & Hs). eauto.
Qed.

(** ** The lines of the reader's input *)

Lemma StringIO_line_newline (l rest : string) :
  no_newline l = true ->
  StringIO (l +:+ String LF rest) = (l +:+ String LF EmptyString) :: StringIO rest.
Proof.
  unfold no_newline. induction l as [|c l IH]; intros H.
  - rewrite !append_empty_l. cbn [StringIO]. now rewrite Ascii.eqb_refl.
  - cbn [string_forallb] in H. apply andb_prop in H as [Hc Hl].
    apply negb_true_iff in Hc.
    rewrite !append_cons. cbn [StringIO]. now rewrite Hc, IH.
Qed.

Lemma StringIO_line (l : string) :
  no_newline l = true -> l <> EmptyString -> StringIO l = [l].
Proof.
  unfold no_newline. induction l as [|c l IH]; intros H Hne; [congruence|].
  cbn [string_forallb] in H. apply andb_prop in H as [Hc Hl].
  apply negb_true_iff in Hc.
  cbn [StringIO]. rewrite Hc. destruct l as [|c2 l]; [reflexivity|].
  now rewrite IH.
Qed.

Lemma StringIO_lines (ls : list string) :
  Forall (fun l => no_newline l = true /\ l <> EmptyString) ls ->
  StringIO (join_lines ls) = with_newlines ls.
Proof.
  induction ls as [|l ls IH]; intros H; [reflexivity|].
  inversion H as [|? ? [Hl Hne] Hls]; subst.
  destruct ls as [|l2 ls].
  - cbn [join_lines with_newlines]. now apply StringIO_line.
  - change (join_lines (l :: l2 :: ls)) with (l +:+ String LF (join_lines (l2 :: ls))).
    rewrite (StringIO_line_newline _ _ Hl), IH by assumption. reflexivity.
Qed.


(** ** A row as written, read as a record *)

Lemma row_ok_inv (r : question_row) :
  row_ok r = true -> 0 <= qr_id r /\ forallb cell_ok (row_cells r) = true.
Proof.
  unfold row_ok. intros H. apply andb_prop in H as [H Hcells].
  apply andb_prop in H as [H _]. apply andb_prop in H as [Hid _].
  apply Z.leb_le in Hid. now split.
Qed.

Lemma row_ok_numbers (r : question_row) :
  row_ok r = true -> number_ok (qr_id r) = true /\ number_ok (qr_max_points r) = true.
Proof.
  unfold row_ok. intros H. apply andb_prop in H as [H _].
  apply andb_prop in H as [H Hp]. apply andb_prop in H as [_ Hi]. now split.
Qed.

(** A row starts with the digits of its id, then a comma. *)
Lemma format_row_digits (r : question_row) :
  0 <= qr_id r ->
  exists (c : ascii) (ds rest : string),
    format_row r = String c ds +:+ String comma rest
    /\ string_forallb isdecimal (String c ds) = true.
Proof.
  intros Hid. destruct (py_str_digits _ Hid) as (c & ds & Hs & Hd).
  exists c, ds. eexists. split; [|exact Hd].
  unfold format_row, row_cells. cbn [map join_cells format_cell fst snd].
  rewrite Hs. reflexivity.
Qed.

Lemma isdecimal_not_newline (c : ascii) : isdecimal c = true -> is_newline c = false.
Proof.
  intros H. unfold is_newline.
  destruct (Ascii.eqb_spec c LF) as [->|]; [discriminate|].
  destruct (Ascii.eqb_spec c CR) as [->|]; [discriminate|]. reflexivity.
Qed.

Lemma feed_start_record (c : ascii) (s : string) :
  is_newline c = false ->
  feed_line parse_reset (String c s) = feed_line (at_field []) (String c s).
Proof.
  intros H. cbn [feed_line]. unfold parse_process_char at 1.
  cbn [rd_state parse_reset]. now rewrite H.
Qed.

Lemma feed_row (r : question_row) :
  row_ok r = true ->
  feed_line parse_reset (format_row r) = inr (record_read (row_fields r))
  /\ feed_line parse_reset (format_row r +:+ String LF EmptyString)
     = inr (record_read (row_fields r)).
Proof.
  intros H. apply row_ok_inv in H as [Hid Hcells].
  destruct (format_row_digits r Hid) as (c & ds & rest & Hrow & Hd).
  cbn [string_forallb] in Hd. apply andb_prop in Hd as [Hc _].
  apply isdecimal_not_newline in Hc.
  destruct (feed_cells (row_cells r) [] ltac:(discriminate) Hcells) as [H1 H2].
  fold (format_row r) in H1, H2. rewrite app_nil_l in H1, H2. fold (row_fields r) in H1, H2.
  rewrite Hrow in *. rewrite !append_cons in *.
  rewrite !(feed_start_record _ _ Hc). now split.
Qed.

Lemma read_rows_formatted (recs : list question_row) :
  forallb row_ok recs = true ->
  read_rows parse_reset (with_newlines (map format_row recs))
  = (map row_fields recs, None).
Proof.
  induction recs as [|r recs IH]; intros H; [reflexivity|].
  cbn [forallb] in H. apply andb_prop in H as [Hr Hrecs].
  destruct (feed_row r Hr) as [H1 H2]. specialize (IH Hrecs).
  destruct recs as [|r2 recs].
  - cbn [map with_newlines read_rows]. rewrite H1. reflexivity.
  - change (with_newlines (map format_row (r :: r2 :: recs)))
      with ((format_row r +:+ String LF EmptyString)
              :: with_newlines (map format_row (r2 :: recs))).
    cbn [read_rows]. rewrite H2. cbn [record_read rd_state is_start_record rd_fields].
    rewrite IH. reflexivity.
Qed.

(** ** The lines the loop keeps *)

Lemma cell_plain (c : cell) : cell_ok c = true -> plain_line (format_cell c) = true.
Proof.
  destruct c as [form s]. unfold cell_ok, format_cell. cbn [fst snd]. intros H.
  apply andb_prop in H as [_ Hchars].
  assert (Hs : plain_line s = true).
  { unfold plain_line. induction s as [|a s IH]; [reflexivity|].
    cbn [string_forallb] in *. apply andb_prop in Hchars as [Ha Hs].
    rewrite (IH Hs), andb_true_r. destruct form.
    - apply bare_char_inv in Ha as (_ & _ & -> & ->). reflexivity.
    - apply quoted_char_inv in Ha as (_ & -> & ->). reflexivity. }
  destruct form; [exact Hs|].
  unfold quoted, plain_line in *. rewrite append_cons. cbn [string_forallb].
  rewrite string_forallb_append, Hs. reflexivity.
Qed.

Lemma cells_plain (cs : list cell) :
  forallb cell_ok cs = true -> plain_line (join_cells (map format_cell cs)) = true.
Proof.
  induction cs as [|c cs IH]; intros H; [reflexivity|].
  cbn [forallb] in H. apply andb_prop in H as [Hc Hcs].
  destruct cs as [|c2 cs]; [now apply cell_plain|].
  change (join_cells (map format_cell (c :: c2 :: cs)))
    with (format_cell c +:+ String comma (join_cells (map format_cell (c2 :: cs)))).
  pose proof (cell_plain c Hc) as Hp. specialize (IH Hcs).
  unfold plain_line in *. rewrite string_forallb_append. cbn [string_forallb].
  rewrite Hp, IH. reflexivity.
Qed.

Lemma last_char_append (a : string) (c : ascii) (b : string) :
  last_char (a +:+ String c b) = last_char (String c b).
Proof.
  induction a as [|x a IH]; [now rewrite append_empty_l|].
  rewrite append_cons. destruct a as [|y a].
  - rewrite append_empty_l. reflexivity.
  - rewrite append_cons in *. exact IH.
Qed.

Lemma clean_edges_last (s : string) (b : ascii) :
  clean_edges s = true -> last_char s = Some b -> edge_char b = true.
Proof.
  unfold clean_edges. intros H Hl. destruct s as [|a s]; [discriminate|].
  cbn [first_char] in H. rewrite Hl in H.
  now apply andb_prop in H as [_ H].
Qed.

Lemma cell_last (c : cell) (b : ascii) :
  cell_ok c = true -> last_char (format_cell c) = Some b -> isspace b = false.
Proof.
  destruct c as [form s]. unfold cell_ok, format_cell. cbn [fst snd]. intros H Hl.
  apply andb_prop in H as [H _]. apply andb_prop in H as [Hedge _].
  destruct form.
  - now apply (clean_edges_last _ _ Hedge), edge_char_inv in Hl as (Hs & _).
  - unfold quoted in Hl. rewrite append_cons in Hl.
    destruct s as [|a s].
    + rewrite append_empty_l in Hl. cbn in Hl. now injection Hl as <-.
    + change (last_char (String dquote (String a s +:+ String dquote EmptyString)))
        with (last_char (String a s +:+ String dquote EmptyString)) in Hl.
      * rewrite last_char_append in Hl. cbn in Hl. now injection Hl as <-.
Qed.

Lemma cells_last (cs : list cell) (b : ascii) :
  forallb cell_ok cs = true ->
  last_char (join_cells (map format_cell cs)) = Some b -> isspace b = false.
Proof.
  induction cs as [|c cs IH]; intros H Hl; [discriminate|].
  cbn [forallb] in H. apply andb_prop in H as [Hc Hcs].
  destruct cs as [|c2 cs]; [now apply (cell_last c)|].
  change (join_cells (map format_cell (c :: c2 :: cs)))
    with (format_cell c +:+ String comma (join_cells (map format_cell (c2 :: cs)))) in Hl.
  rewrite last_char_append in Hl.
  destruct (join_cells (map format_cell (c2 :: cs))) as [|x y] eqn:Hj.
  - cbn in Hl. now injection Hl as <-.
  - apply IH; [assumption|]. exact Hl.
Qed.

Lemma format_row_strip (r : question_row) :
  row_ok r = true -> strip (format_row r) = format_row r.
Proof.
  intros H. apply row_ok_inv in H as [Hid Hcells].
  apply strip_chars_fixed.
  destruct (format_row_digits r Hid) as (c & ds & rest & Hrow & Hd).
  destruct (last_char (format_row r)) as [b|] eqn:Hl.
  - rewrite Hrow, append_cons. cbn [first_char]. split.
    + cbn [string_forallb] in Hd. apply andb_prop in Hd as [Hc _].
      now apply isdecimal_not_space.
    + now apply (cells_last (row_cells r)).
  - destruct (first_char (format_row r)); exact I.
Qed.

Lemma format_row_kept (r : question_row) :
  row_ok r = true -> match_data_line (format_row r) = true.
Proof.
  intros H. apply row_ok_inv in H as [Hid _].
  destruct (format_row_digits r Hid) as (c & ds & rest & -> & Hd).
  unfold match_data_line.
  rewrite (count_prefix_all _ _ _ Hd).
  cbn [count_prefix]. replace (isdecimal comma) with false by reflexivity.
  rewrite Nat.add_0_r, drop_length_append.
  cbn [count_prefix]. replace (isspace comma) with false by reflexivity.
  cbn [String.length Nat.eqb drop].
  apply Ascii.eqb_refl.
Qed.

Lemma format_row_plain (r : question_row) :
  row_ok r = true -> plain_line (format_row r) = true.
Proof. intros H. apply row_ok_inv in H as [_ H]. now apply cells_plain. Qed.

Lemma format_row_nonempty (r : question_row) :
  row_ok r = true -> format_row r <> EmptyString.
Proof.
  intros H. apply row_ok_inv in H as [Hid _].
  destruct (format_row_digits r Hid) as (c & ds & rest & -> & _).
  rewrite append_cons. discriminate.
Qed.

Lemma plain_line_no_newline (l : string) : plain_line l = true -> no_newline l = true.
Proof.
  unfold plain_line, no_newline. induction l as [|c l IH]; [reflexivity|].
  cbn [string_forallb]. intros H. apply andb_prop in H as [Hc Hl].
  apply andb_prop in Hc as [Hc _]. now rewrite Hc, IH.
Qed.

Lemma formatted_rows_data_lines (recs : list question_row) :
  forallb row_ok recs = true ->
  data_lines_of (join_lines (map format_row recs)) = map format_row recs.
Proof.
  intros H. rewrite data_lines_of_text.
  - induction recs as [|r recs IH]; [reflexivity|].
    cbn [forallb] in H. apply andb_prop in H as [Hr Hrecs].
    cbn [map]. rewrite (format_row_strip r Hr).
    rewrite filter_cons_True by (now rewrite (format_row_kept r Hr)).
    now rewrite IH.
  - induction recs as [|r recs IH]; [reflexivity|].
    cbn [forallb] in H. apply andb_prop in H as [Hr Hrecs].
    cbn [map forallb]. unfold text_line at 1.
    now rewrite (format_row_plain r Hr), IH.
Qed.

(** ** From fields to the record *)

Lemma row_record (r : question_row) :
  row_ok r = true ->
  row_questions (row_fields r) = [record_of_row r] /\ row_warnings (row_fields r) = [].
Proof.
  intros H. destruct (row_ok_numbers r H) as [Hid Hpts].
  apply row_ok_inv in H as [_ Hcells].
  unfold row_cells in Hcells. cbn [forallb] in Hcells.
  repeat (apply andb_prop in Hcells as [? Hcells]).
  repeat match goal with
  | H : cell_ok _ = true |- _ =>
      unfold cell_ok in H; apply andb_prop in H as [H _]; apply andb_prop in H as [H _];
      apply clean_edges_strip in H as [? ?]
  end.
  cbn [snd] in *.
  apply row_well_formed; [unfold row_fields, row_cells; cbn [map length]; lia|].
  unfold row_fields, row_cells. cbn [map snd]. rewrite question_of_row_six.
  repeat match goal with H : strip _ = _ |- _ => rewrite H; clear H end.
  repeat match goal with H : strip_quotes _ = _ |- _ => rewrite H; clear H end.
  rewrite (py_int_py_str _ Hid), (py_int_py_str _ Hpts). reflexivity.
Qed.

Lemma rows_records (recs : list question_row) :
  forallb row_ok recs = true ->
  rows_questions (map row_fields recs) = map record_of_row recs
  /\ rows_warnings (map row_fields recs) = [].
Proof.
  unfold rows_questions, rows_warnings.
  induction recs as [|r recs IH]; intros H; [split; reflexivity|].
  cbn [forallb] in H. apply andb_prop in H as [Hr Hrecs].
  destruct (row_record r Hr) as [Hq Hw]. destruct (IH Hrecs) as [IHq IHw].
  cbn [map concat]. rewrite Hq, Hw, IHq, IHw. split; reflexivity.
Qed.

(** X17. Rows written in the layout the parser reads come back as the
    records they were written from: for any text of plain lines and
    fence markers whose kept lines are rows of an id that is not
    negative, points and four texts, the two numbers within the limit
    [int] puts on digits, each text bare or in double quotes (commas
    allowed there), free of outer white space and quotes and within the
    reader's field limit, the parser returns exactly the records, in
    order, and warns about nothing. *)
Theorem formatted_rows_round_trip (L : list string) (recs : list question_row)
    (st : state) :
  forallb text_line L = true ->
  filter kept_line L = map format_row recs ->
  forallb row_ok recs = true ->
  parse_questions_from_csv (join_lines L) st = (Return (map record_of_row recs), st).
Proof.
  intros HL Hkept Hok.
  rewrite (parse_ignores_dropped_lines L st HL), Hkept.
  rewrite parse_questions_from_csv_run, (formatted_rows_data_lines recs Hok).
  destruct recs as [|r recs]; [reflexivity|].
  cbn [map]. cbv iota.
  change (format_row r :: map format_row recs) with (map format_row (r :: recs)).
  unfold csv_reader. rewrite StringIO_lines.
  - rewrite (read_rows_formatted _ Hok).
    destruct (rows_records _ Hok) as [-> ->]. now rewrite logged_nil.
  - clear Hkept. induction (r :: recs) as [|x xs IH]; [constructor|].
    cbn [forallb] in Hok. apply andb_prop in Hok as [Hx Hxs].
    cbn [map]. constructor; [|now apply IH].
    split; [apply plain_line_no_newline; now apply format_row_plain
           | now apply format_row_nonempty].
Qed.

Lemma formatted_rows_round_trip_witness :
  parse_questions_from_csv (join_lines sample_reply_lines) empty_state
  = (Return (map record_of_row [sample_row_rest; sample_row_locks]), empty_state).
Proof.
  apply formatted_rows_round_trip; vm_compute; reflexivity.
Defined.

(** ** What the reader raises, what the loop reports *)

Lemma parse_add_char_error (r : reader) (c : ascii) (e : exn) :
  parse_add_char r c = inl e -> exists m, e = CsvError m.
Proof.
  unfold parse_add_char. destruct (field_limit <=? rd_field_len r)%N; [|discriminate].
  intros [= <-]. eauto.
Qed.

Lemma then_state_error (x : exn + reader) (s : parser_state) (e : exn) :
  then_state x s = inl e -> x = inl e.
Proof. destruct x; [intros [= ->]; reflexivity | discriminate]. Qed.

Lemma parse_process_char_error (r : reader) (c : option ascii) (e : exn) :
  parse_process_char r c = inl e -> exists m, e = CsvError m.
Proof.
  unfold parse_process_char, process_start_field.
  destruct (rd_state r), c as [ch|]; try discriminate;
    repeat match goal with
    | |- (if ?b then _ else _) = _ -> _ => destruct b
    end;
    try discriminate;
    try (intros H; apply then_state_error in H);
    try (intros H);
    try (now apply parse_add_char_error in H);
    injection H as <-; eauto.
Qed.

Lemma feed_line_error (line : string) :
  forall (r : reader) (e : exn), feed_line r line = inl e -> exists m, e = CsvError m.
Proof.
  induction line as [|c line IH]; intros r e; cbn [feed_line].
  - apply parse_process_char_error.
  - destruct (parse_process_char r (Some c)) as [e'|r'] eqn:H.
    + intros [= <-]. now apply parse_process_char_error in H.
    + apply IH.
Qed.

Lemma read_rows_error (lines : list string) :
  forall (r : reader) (rows : list (list string)) (e : exn),
    read_rows r lines = (rows, Some e) -> exists m, e = CsvError m.
Proof.
  induction lines as [|line lines IH]; intros r rows e; cbn [read_rows].
  - destruct (_ || _); discriminate.
  - destruct (feed_line r line) as [e'|r'] eqn:Hfeed.
    + intros [= _ <-]. now apply feed_line_error in Hfeed.
    + destruct (is_start_record (rd_state r')).
      * destruct (read_rows parse_reset lines) as [rows' err] eqn:Hrest.
        intros [= _ ->]. now apply (IH _ _ _ Hrest).
      * apply IH.
Qed.

(** Under the length test no field access is out of range: what a row
    can report is a number [int] rejects. *)
Lemma row_warnings_value_error (row : list string) :
  Forall (fun ev => exists s, ev = malformed_warning (ValueError s)) (row_warnings row).
Proof.
  unfold row_warnings. destruct (6 <=? length row)%nat eqn:Hlen; [|constructor].
  apply Nat.leb_le in Hlen.
  destruct row as [|r0 [|r1 [|r2 [|r3 [|r4 [|r5 rest]]]]]]; cbn [length] in Hlen; try lia.
  rewrite question_of_row_six.
  destruct (py_int (strip r0)) as [e|id] eqn:H0.
  - apply py_int_exn in H0 as ->. repeat constructor. eauto.
  - destruct (py_int (strip r4)) as [e|mp] eqn:H4; [|constructor].
    apply py_int_exn in H4 as ->. repeat constructor. eauto.
Qed.

Lemma rows_warnings_value_error (rows : list (list string)) :
  Forall (fun ev => exists s, ev = malformed_warning (ValueError s)) (rows_warnings rows).
Proof.
  unfold rows_warnings. induction rows as [|row rows IH]; [constructor|].
  cbn [map concat]. apply Forall_app. split; [apply row_warnings_value_error | exact IH].
Qed.

(** X18. The parser's effects: it leaves the session alone, shows nothing but
    warnings about a number [int] rejected (no field access is ever out of
    range), and either returns or lets a [csv.Error] of the reader
    through. *)
Theorem parser_effects (raw_text : string) (st : state) :
  exists evs : list event,
    snd (parse_questions_from_csv raw_text st) = logged st evs
    /\ Forall (fun ev => exists s, ev = malformed_warning (ValueError s)) evs
    /\ ((exists qs, fst (parse_questions_from_csv raw_text st) = Return qs)
        \/ (exists m, fst (parse_questions_from_csv raw_text st) = Raise (CsvError m))).
Proof.
  rewrite parse_questions_from_csv_run.
  destruct (data_lines_of raw_text) as [|l ls].
  - exists []. rewrite logged_nil. repeat split; [constructor|]. left. eauto.
  - destruct (csv_reader _) as [rows err] eqn:Hcsv.
    exists (rows_warnings rows). cbn [fst snd].
    repeat split; [apply rows_warnings_value_error|].
    destruct err as [e|]; [right | left; eauto].
    unfold csv_reader in Hcsv. apply read_rows_error in Hcsv as [m ->]. eauto.
Qed.

(** ** A carriage return outside quotes *)

Lemma unquoted_char_step (r : reader) (a : ascii) :
  outside_quotes (rd_state r) -> unquoted_char a = true ->
  (exists m, parse_process_char r (Some a) = inl (CsvError m))
  \/ (exists r', parse_process_char r (Some a) = inr r' /\ outside_quotes (rd_state r')).
Proof.
  unfold unquoted_char. intros Hs Ha. apply andb_prop in Ha as [Hq Hnl].
  apply negb_true_iff in Hq, Hnl.
  destruct r as [s fs f n]. cbn [rd_state] in Hs.
  unfold parse_process_char, process_start_field, parse_add_char, outside_quotes.
  cbn [rd_state rd_field_len set_state rd_fields rd_field].
  destruct Hs as [-> | [-> | ->]]; rewrite Hnl, ?Hq;
    repeat match goal with
    | |- context [if ?b then _ else _] => destruct b
    end;
    cbn [then_state set_state rd_state rd_fields rd_field rd_field_len parse_save_field];
    eauto 10.
Qed.

Lemma carriage_return_step (r : reader) (c : ascii) (z : string) :
  outside_quotes (rd_state r) -> is_newline c = false ->
  exists m, feed_line r (String CR (String c z)) = inl (CsvError m).
Proof.
  intros Hs Hc. destruct r as [s fs f n]. cbn [rd_state] in Hs.
  cbn [feed_line]. unfold parse_process_char at 1, process_start_field.
  cbn [rd_state].
  destruct Hs as [-> | [-> | ->]];
    (replace (is_newline CR) with true by reflexivity); cbv iota;
    unfold parse_process_char; cbn [set_state parse_save_field rd_state];
    rewrite Hc; eauto.
Qed.

Lemma feed_line_carriage_return (x : string) :
  forall (r : reader) (c : ascii) (z : string),
    outside_quotes (rd_state r) ->
    string_forallb unquoted_char x = true -> is_newline c = false ->
    exists m, feed_line r (x +:+ String CR (String c z)) = inl (CsvError m).
Proof.
  induction x as [|a x IH]; intros r c z Hs Hx Hc.
  - rewrite append_empty_l. now apply carriage_return_step.
  - cbn [string_forallb] in Hx. apply andb_prop in Hx as [Ha Hx].
    rewrite append_cons. cbn [feed_line].
    destruct (unquoted_char_step r a Hs Ha) as [[m ->] | (r' & -> & Hs')]; [eauto|].
    now apply IH.
Qed.

(** The first line a [StringIO] yields starts with the text up to the
    first newline. *)
Lemma StringIO_first_line (x : string) :
  forall (c : ascii) (z : string),
    string_forallb unquoted_char x = true -> is_newline c = false ->
    exists (z1 : string) (rest : list string),
      StringIO (x +:+ String CR (String c z)) = (x +:+ String CR (String c z1)) :: rest.
Proof.
  assert (Hstep : forall (a : ascii) (s : string),
             Ascii.eqb a LF = false ->
             StringIO (String a s)
             = match StringIO s with
               | [] => [String a EmptyString]
               | l :: ls => String a l :: ls
               end).
  { intros a s Ha. cbn [StringIO]. now rewrite Ha. }
  assert (Hnl : forall a, is_newline a = false -> Ascii.eqb a LF = false).
  { intros a Ha. unfold is_newline in Ha. now apply orb_false_iff in Ha as [Ha _]. }
  induction x as [|a x IH]; intros c z Hx Hc.
  - rewrite !append_empty_l.
    rewrite (Hstep CR) by reflexivity. rewrite (Hstep c) by (now apply Hnl).
    destruct (StringIO z) as [|l ls].
    + exists EmptyString, []. now rewrite append_empty_l.
    + exists l, ls. now rewrite append_empty_l.
  - cbn [string_forallb] in Hx. apply andb_prop in Hx as [Ha Hx].
    unfold unquoted_char in Ha. apply andb_prop in Ha as [_ Ha].
    apply negb_true_iff in Ha.
    destruct (IH c z Hx Hc) as (z1 & rest & Hio).
    rewrite append_cons, (Hstep a) by (now apply Hnl). rewrite Hio.
    exists z1, rest. now rewrite append_cons.
Qed.

Lemma read_rows_formatted_then (recs : list question_row) (rest : list string) :
  forallb row_ok recs = true ->
  read_rows parse_reset (map (fun r => format_row r +:+ String LF EmptyString) recs ++ rest)
  = let '(rows, err) := read_rows parse_reset rest in (map row_fields recs ++ rows, err).
Proof.
  induction recs as [|r recs IH]; intros H.
  - cbn [map app]. now destruct (read_rows parse_reset rest).
  - cbn [forallb] in H. apply andb_prop in H as [Hr Hrecs].
    destruct (feed_row r Hr) as [_ H2].
    cbn [map app read_rows]. rewrite H2.
    cbn [record_read rd_state is_start_record rd_fields].
    rewrite (IH Hrecs). now destruct (read_rows parse_reset rest).
Qed.

Lemma StringIO_rows_then (recs : list question_row) (l : string) (ls : list string) :
  forallb row_ok recs = true ->
  StringIO (join_lines (map format_row recs ++ l :: ls))
  = map (fun r => format_row r +:+ String LF EmptyString) recs ++ StringIO (join_lines (l :: ls)).
Proof.
  induction recs as [|r recs IH]; intros H; [reflexivity|].
  cbn [forallb] in H. apply andb_prop in H as [Hr Hrecs].
  cbn [map app].
  replace (join_lines (format_row r :: map format_row recs ++ l :: ls))
    with (format_row r +:+ String LF (join_lines (map format_row recs ++ l :: ls))).
  - rewrite (StringIO_line_newline _ _ (plain_line_no_newline _ (format_row_plain r Hr))), (IH Hrecs). reflexivity.
  - cbn [join_lines]. destruct (map format_row recs ++ l :: ls) eqn:E; [|reflexivity].
    now destruct (map format_row recs).
Qed.

(** X19. A carriage return met outside quotes and followed by an
    ordinary character makes the reader raise [csv.Error], and the parser
    with it: whatever well-formed rows came before (rows that on their
    own give their records without a warning), nothing is returned and
    nothing is shown. *)
Theorem carriage_return_is_fatal (raw_text : string) (st : state)
    (recs : list question_row) (x : string) (c : ascii) (y : string) (more : list string) :
  data_lines_of raw_text = map format_row recs ++ (x +:+ String CR (String c y)) :: more ->
  forallb row_ok recs = true ->
  string_forallb unquoted_char x = true ->
  is_newline c = false ->
  exists m, parse_questions_from_csv raw_text st = (Raise (CsvError m), st).
Proof.
  intros Hlines Hok Hx Hc.
  rewrite parse_questions_from_csv_run, Hlines. clear Hlines.
  destruct (map format_row recs ++ (x +:+ String CR (String c y)) :: more) as [|l0 ls0] eqn:E.
  { now destruct (map format_row recs). }
  rewrite <- E. clear l0 ls0 E.
  unfold csv_reader. rewrite (StringIO_rows_then _ _ _ Hok), (read_rows_formatted_then _ _ Hok).
  assert (Hfirst : exists (z1 : string) (rest : list string),
             StringIO (join_lines ((x +:+ String CR (String c y)) :: more))
             = (x +:+ String CR (String c z1)) :: rest).
  { destruct more as [|l2 more].
    - cbn [join_lines]. now apply StringIO_first_line.
    - change (join_lines ((x +:+ String CR (String c y)) :: l2 :: more))
        with ((x +:+ String CR (String c y)) +:+ String LF (join_lines (l2 :: more))).
      rewrite append_assoc3, !append_cons. now apply StringIO_first_line. }
  destruct Hfirst as (z1 & rest & ->).
  cbn [read_rows].
  destruct (feed_line_carriage_return x parse_reset c z1) as [m ->];
    [now left | assumption | assumption |].
  exists m. destruct (rows_records _ Hok) as [_ Hw].
  rewrite app_nil_r, Hw, logged_nil. reflexivity.
Qed.

Lemma carriage_return_is_fatal_witness :
  exists m, parse_questions_from_csv sample_reply_with_cr empty_state
            = (Raise (CsvError m), empty_state).
Proof.
  apply (carriage_return_is_fatal sample_reply_with_cr empty_state [sample_row_rest]
           "2,Locks" "W" "hat is a race?,Hard,12,Terminology" []);
    vm_compute; reflexivity.
Defined.

(** ** At most one row per data line *)

Lemma split_lines_no_newline (s : string) :
  Forall (fun l => no_newline l = true) (split_lines s).
Proof.
  induction s as [|c s IH]; [repeat constructor|].
  cbn [split_lines]. destruct (Ascii.eqb c LF) eqn:Hc.
  - constructor; [reflexivity | exact IH].
  - destruct (split_lines s) as [|l ls]; [repeat constructor; cbn; now rewrite Hc|].
    inversion IH as [|? ? Hl Hls]; subst.
    constructor; [|exact Hls]. unfold no_newline in *. cbn [string_forallb].
    now rewrite Hc, Hl.
Qed.

Lemma lstrip_chars_forallb (p q : ascii -> bool) (s : string) :
  string_forallb q s = true -> string_forallb q (lstrip_chars p s) = true.
Proof.
  induction s as [|c s IH]; intros H; [reflexivity|].
  cbn [lstrip_chars]. destruct (p c); [|exact H].
  cbn [string_forallb] in H. apply andb_prop in H as [_ H]. now apply IH.
Qed.

Lemma rstrip_chars_forallb (p q : ascii -> bool) (s : string) :
  string_forallb q s = true -> string_forallb q (rstrip_chars p s) = true.
Proof.
  induction s as [|c s IH]; intros H; [reflexivity|].
  cbn [string_forallb] in H. apply andb_prop in H as [Hc Hs].
  cbn [rstrip_chars]. specialize (IH Hs).
  destruct (rstrip_chars p s) as [|b r].
  - destruct (p c); [reflexivity|]. cbn [string_forallb]. now rewrite Hc.
  - cbn [string_forallb] in *. now rewrite Hc, IH.
Qed.

Lemma strip_no_newline (l : string) : no_newline l = true -> no_newline (strip l) = true.
Proof.
  intros H. unfold strip, strip_chars, no_newline in *.
  now apply lstrip_chars_forallb, rstrip_chars_forallb.
Qed.

Lemma match_data_line_nonempty (l : string) : match_data_line l = true -> l <> EmptyString.
Proof. intros H ->. discriminate. Qed.

Lemma data_lines_shape (raw_text : string) :
  Forall (fun l => no_newline l = true /\ l <> EmptyString) (data_lines_of raw_text).
Proof.
  rewrite data_lines_of_filter.
  generalize (split_lines_no_newline (strip (remove_fences raw_text))).
  generalize (split_lines (strip (remove_fences raw_text))).
  intros ls H. induction H as [|l ls Hl Hls IH]; [constructor|].
  cbn [map]. destruct (match_data_line (strip l)) eqn:Hm.
  - rewrite filter_cons_True by (now rewrite Hm).
    constructor; [|exact IH]. split; [now apply strip_no_newline|].
    now apply match_data_line_nonempty.
  - now rewrite filter_cons_False by (now rewrite Hm).
Qed.

Lemma with_newlines_length (ls : list string) : length (with_newlines ls) = length ls.
Proof.
  induction ls as [|l ls IH]; [reflexivity|].
  destruct ls as [|l2 ls]; [reflexivity|].
  change (with_newlines (l :: l2 :: ls))
    with ((l +:+ String LF EmptyString) :: with_newlines (l2 :: ls)).
  cbn [length] in *. now rewrite IH.
Qed.

(** Each row the reader yields uses up at least one line. *)
Lemma read_rows_length (lines : list string) :
  (forall r, length (fst (read_rows r lines)) <= S (length lines))%nat
  /\ (length (fst (read_rows parse_reset lines)) <= length lines)%nat.
Proof.
  induction lines as [|line lines [IH1 IH2]].
  - split; [|cbn; lia]. intros r. cbn [read_rows].
    destruct (_ || _); cbn; lia.
  - assert (H : forall r, (length (fst (read_rows r (line :: lines))) <= S (length lines))%nat).
    { intros r. cbn [read_rows].
      destruct (feed_line r line) as [e|r']; [cbn; lia|].
      destruct (is_start_record (rd_state r')).
      - destruct (read_rows parse_reset lines) as [rows err]. cbn [fst length] in *. lia.
      - apply IH1. }
    split; [|apply H]. intros r. specialize (H r). cbn [length]. lia.
Qed.

Lemma row_yield (row : list string) :
  (length (row_questions row) + length (row_warnings row) <= 1)%nat.
Proof.
  unfold row_questions, row_warnings.
  destruct (6 <=? length row)%nat; [|cbn; lia].
  destruct (question_of_row row); cbn; lia.
Qed.

Lemma rows_yield (rows : list (list string)) :
  (length (rows_questions rows) + length (rows_warnings rows) <= length rows)%nat.
Proof.
  unfold rows_questions, rows_warnings.
  induction rows as [|row rows IH]; [cbn; lia|].
  cbn [map concat length]. rewrite !length_app. pose proof (row_yield row). lia.
Qed.

(** X20. The parser gives at most one record or warning per data line: quoted
    fields may join lines into one row, nothing splits a line in two. *)
Theorem records_bounded_by_data_lines (raw_text : string) (st : state) :
  exists evs : list event,
    snd (parse_questions_from_csv raw_text st) = logged st evs
    /\ forall qs : list dict,
         fst (parse_questions_from_csv raw_text st) = Return qs ->
         (length qs + length evs <= length (data_lines_of raw_text))%nat.
Proof.
  rewrite parse_questions_from_csv_run.
  pose proof (data_lines_shape raw_text) as Hshape.
  destruct (data_lines_of raw_text) as [|l ls] eqn:Hd.
  - exists []. rewrite logged_nil. split; [reflexivity|].
    intros qs [= <-]. cbn. lia.
  - unfold csv_reader. rewrite (StringIO_lines _ Hshape).
    pose proof (proj2 (read_rows_length (with_newlines (l :: ls)))) as Hlen.
    rewrite with_newlines_length in Hlen.
    destruct (read_rows parse_reset (with_newlines (l :: ls))) as [rows err].
    exists (rows_warnings rows). split; [reflexivity|].
    cbn [fst]. destruct err; [discriminate|]. intros qs [= <-].
    pose proof (rows_yield rows). cbn [fst] in Hlen. lia.
Qed.

(** ** The parser's records on cards *)

Lemma question_record_keys (id : Z) (title question_text difficulty : string)
    (max_points : Z) (scoring_criteria : string) (k : string) :
  In k question_keys ->
  is_Some (question_record id title question_text difficulty max_points scoring_criteria !! k).
Proof.
  unfold question_keys. cbn [In].
  intros [<-|[<-|[<-|[<-|[<-|[<-|[]]]]]]]; eexists; reflexivity.
Qed.

(** X21. A record of the parser has every key a card reads, with integers for
    id and points: shown as cards, the parser's records use no default
    and the loop adds up their points without a [TypeError]. *)
Theorem parsed_records_fill_cards (raw_text : string) (st st' : state) (qs : list dict) :
  parse_questions_from_csv raw_text st = (Return qs, st') ->
  Forall (fun q => (forall k, In k question_keys -> is_Some (q !! k))
                   /\ (exists id, q !! "id" = Some (VInt id))
                   /\ (exists pts, q !! "max_points" = Some (VInt pts))) qs
  /\ forall (idx total : Z) (st0 : state),
       display_questions qs idx total st0
       = (Return (total + sum_points qs), logged st0 (cards_events qs idx)).
Proof.
  intros Hrun.
  assert (Hrec : Forall (fun q => exists id t x d p c, q = question_record id t x d p c) qs).
  { apply List.Forall_forall. intros q Hq.
    destruct (parsed_question_origin _ _ _ _ _ Hrun Hq) as (row & Hrow).
    apply question_of_row_ok in Hrow
      as (r0 & r1 & r2 & r3 & r4 & r5 & id & mp & _ & _ & _ & _ & _ & _ & _ & _ & ->).
    eauto 10. }
  split.
  - eapply List.Forall_impl; [|exact Hrec]. cbn beta.
    intros q (id & t & x & d & p & c & ->).
    split; [intros k; apply question_record_keys|]. split; eexists; reflexivity.
  - intros idx total st0. apply display_questions_run.
    eapply List.Forall_impl; [|exact Hrec]. cbn beta.
    intros q (id & t & x & d & p & c & ->). eexists. reflexivity.
Qed.

Lemma parsed_records_fill_cards_witness :
  display_questions [question_record 1 "Quoted" "Q" "Easy" 5 "C"] 0 0 empty_state
  = (Return (0 + sum_points [question_record 1 "Quoted" "Q" "Easy" 5 "C"]),
     logged empty_state (cards_events [question_record 1 "Quoted" "Q" "Easy" 5 "C"] 0)).
Proof.
  apply (proj2 (parsed_records_fill_cards row_quoted_title empty_state empty_state
                  [question_record 1 "Quoted" "Q" "Easy" 5 "C"]
                  ltac:(vm_compute; reflexivity))).
Defined.

(** ** The calls of one run *)

Lemma appends_bind {A B} (P Q R : list event -> Prop) (m : M A) (k : A -> M B) :
  appends P m -> (forall a, appends Q (k a)) ->
  (forall e1, P e1 -> R e1) ->
  (forall e1 e2, P e1 -> Q e2 -> R (e1 ++ e2)) ->
  appends R (bind m k).
Proof.
  intros Hm Hk H1 H2 st. destruct (Hm st) as (e1 & Hlog1 & HP). unfold bind.
  destruct (m st) as [[a|e| |] st1]; cbn [snd] in *; try (exists e1; split; [assumption|auto]).
  destruct (Hk a st1) as (e2 & Hlog2 & HQ).
  exists (e1 ++ e2). split; [|auto]. now rewrite Hlog2, Hlog1, app_assoc.
Qed.

Lemma appends_quiet {A} (P : list event -> Prop) (m : M A) :
  (forall st, log (snd (m st)) = log st) -> P [] -> appends P m.
Proof. intros Hm HP st. exists []. now rewrite app_nil_r, Hm. Qed.

Lemma appends_impl {A} (P Q : list event -> Prop) (m : M A) :
  (forall evs, P evs -> Q evs) -> appends P m -> appends Q m.
Proof. intros HPQ Hm st. destruct (Hm st) as (evs & Hlog & HP). eauto. Qed.

Lemma appends_only_logs {A} (p : event -> bool) (m : M A) :
  only_logs p m -> appends (fun evs => forallb p evs = true) m.
Proof.
  intros Hm st. destruct (Hm st) as (o & evs & Hrun & Hp).
  exists evs. now rewrite Hrun.
Qed.

Lemma only_ui_app (e1 e2 : list event) : only_ui e1 -> only_ui e2 -> only_ui (e1 ++ e2).
Proof. unfold only_ui. intros H1 H2. now rewrite forallb_app, H1, H2. Qed.

Lemma only_ui_calls (P : nat -> nat -> nat -> Prop) (evs : list event) :
  P 0%nat 0%nat 0%nat -> only_ui evs -> calls P evs.
Proof.
  intros HP H. unfold calls. now rewrite !(count_events_ui _ evs) by (reflexivity || exact H).
Qed.

Lemma calls_app (P Q R : nat -> nat -> nat -> Prop) (e1 e2 : list event) :
  (forall p c g p' c' g', P p c g -> Q p' c' g' -> R (p + p') (c + c') (g + g'))%nat ->
  calls P e1 -> calls Q e2 -> calls R (e1 ++ e2).
Proof. unfold calls. rewrite !count_events_app. auto. Qed.

Lemma appends_ui_bind {B} (P : list event -> Prop) (x : widget) (k : unit -> M B) :
  (forall evs, P evs -> P (EvUi x :: evs)) -> P [EvUi x] ->
  (forall u, appends P (k u)) -> appends P (bind (ui x) k).
Proof.
  intros Hcons Hone Hk.
  apply (appends_bind (fun evs => evs = [EvUi x]) P P); [| exact Hk | |].
  - intros st. exists [EvUi x]. split; reflexivity.
  - now intros e1 ->.
  - intros e1 e2 -> He2. now apply Hcons.
Qed.

(** The results view only draws, with or without a click on Regenerate. *)
Lemma show_results_draws (file_key : string) (regenerate : bool) :
  appends only_ui (show_results file_key regenerate).
Proof.
  assert (Hquiet : forall A (m : M A), (forall st, log (snd (m st)) = log st) ->
                     appends only_ui m)
    by (intros A m Hm; now apply appends_quiet).
  assert (Hui : forall B x (k : unit -> M B),
             (forall u, appends only_ui (k u)) -> appends only_ui (bind (ui x) k)).
  { intros B x k Hk. apply appends_ui_bind; [| reflexivity | exact Hk].
    intros evs Hevs. exact Hevs. }
  unfold show_results.
  apply (appends_bind only_ui only_ui only_ui); [now apply Hquiet | | auto | apply only_ui_app].
  intros cached. destruct cached as [[[c|] qs]|]; cbn [entry_context entry_questions];
    try (now apply Hquiet).
  destruct (truthy (Some c) && nonempty qs); [|now apply Hquiet].
  repeat (apply Hui; intros _).
  apply (appends_bind only_ui only_ui only_ui); [| | auto | apply only_ui_app].
  - destruct regenerate; [|now apply Hquiet].
    apply (appends_bind only_ui only_ui only_ui); [now apply Hquiet | | auto | apply only_ui_app].
    intros present.
    apply (appends_bind only_ui only_ui only_ui);
      [| intros _; now apply Hquiet | auto | apply only_ui_app].
    destruct present; now apply Hquiet.
  - intros _.
    apply (appends_bind only_ui only_ui only_ui); [| | auto | apply only_ui_app].
    + apply (appends_only_logs is_ui). now apply only_logs_display_questions.
    + intros total. apply (appends_only_logs is_ui). now apply only_logs_ui.
Qed.

Lemma run_agentic_chain_within (w : world) (resume_text api_key : string) :
  appends (calls (fun p c g => p = 0 /\ c = 1 /\ g <= 2)%nat)
    (run_agentic_chain w resume_text api_key).
Proof.
  intros st.
  destruct (run_agentic_chain_counts w resume_text api_key st)
    as (o & evs & Hrun & Hc & Hp & Hg & _).
  exists evs. rewrite Hrun. split; [reflexivity|].
  unfold calls. repeat split; assumption.
Qed.

Ltac calls_arith :=
  unfold run_profile, after_extraction; intros;
  repeat match goal with H : _ /\ _ |- _ => destruct H end; subst; repeat split; lia.

(** The spinner, the pipeline and the assignment to the session. *)
Lemma pipeline_and_store_within (w : world) (key text api_key : string) :
  appends (calls after_extraction)
    (ui (StSpinner "Processing...") ;;;
     r <- run_agentic_chain w text api_key ;;
     session_set key (mkEntry (fst r) (snd r))).
Proof.
  pose (none := (fun p c g : nat => p = 0 /\ c = 0 /\ g = 0)%nat).
  apply (appends_bind (calls none) (calls after_extraction) (calls after_extraction)).
  - apply (appends_impl only_ui); [intros evs; apply only_ui_calls; subst none; cbn; auto|].
    apply (appends_only_logs is_ui). now apply only_logs_ui.
  - intros _.
    apply (appends_bind (calls (fun p c g => p = 0 /\ c = 1 /\ g <= 2)%nat)
                        (calls none) (calls after_extraction)).
    + apply run_agentic_chain_within.
    + intros r. apply appends_quiet; [reflexivity|]. subst none. cbv. auto.
    + intros e1. unfold calls. calls_arith.
    + intros e1 e2. apply calls_app. unfold none. calls_arith.
  - intros e1. unfold calls, none. calls_arith.
  - intros e1 e2. apply calls_app. unfold none. calls_arith.
Qed.

(** The block that fills the cache: at most one read of the PDF, none
    when the memo has the bytes; then at most one configuration of the
    client and two calls of the model. *)
Lemma ensure_results_calls (w : world) (f : uploaded) (api_key : string) (st : state) :
  exists evs : list event,
    log (snd (ensure_results w f api_key st)) = log st ++ evs
    /\ calls run_profile evs
    /\ (memoised (up_content f) (log st) = true -> count_events is_pdf_read evs = 0%nat)
    /\ (is_Some (session_state st !! file_key_of f) -> evs = []).
Proof.
  assert (Hreads : calls (fun p c g => p <= 1 /\ c = 0 /\ g = 0)%nat
                     (pdf_reads (up_content f) (log st))
                   /\ (memoised (up_content f) (log st) = true ->
                       count_events is_pdf_read (pdf_reads (up_content f) (log st)) = 0%nat)).
  { unfold calls, pdf_reads. destruct (memoised _ _); cbn; repeat split; auto; lia. }
  destruct Hreads as [Hreads Hmemo].
  unfold ensure_results.
  destruct (session_state st !! file_key_of f) as [e|] eqn:Hentry.
  { rewrite (bind_return _ _ _ _ _ (session_contains_present _ _ _ Hentry)).
    exists []. cbn [ret snd]. rewrite app_nil_r.
    repeat split; try reflexivity; unfold run_profile; cbn; lia. }
  rewrite (bind_return _ _ _ _ _ (session_contains_absent _ _ Hentry)).
  unfold bind at 1. rewrite extract_pdf_text_run.
  assert (Hno : forall evs, calls run_profile (pdf_reads (up_content f) (log st) ++ evs)
                  -> count_events is_pdf_read evs = 0%nat
                  -> exists evs0 : list event,
                       log st ++ pdf_reads (up_content f) (log st) ++ evs = log st ++ evs0
                       /\ calls run_profile evs0
                       /\ (memoised (up_content f) (log st) = true ->
                           count_events is_pdf_read evs0 = 0%nat)
                       /\ (is_Some (@None cache_entry) -> evs0 = [])).
  { intros evs Hprof Hzero. eexists. split; [reflexivity|]. split; [exact Hprof|].
    split; [|intros [x Hx]; discriminate].
    intros Hhit. now rewrite count_events_app, (Hmemo Hhit), Hzero. }
  destruct (bind_exn _ _) as [e|text].
  - cbn [String.eqb]. rewrite bind_ui. unfold st_stop. cbn [snd logged log].
    rewrite <- !app_assoc. apply Hno; [|reflexivity].
    apply (calls_app (fun p c g => p <= 1 /\ c = 0 /\ g = 0)%nat
                     (fun p c g => p = 0 /\ c = 0 /\ g = 0)%nat run_profile);
      [calls_arith | exact Hreads | cbv; auto].
  - destruct (String.eqb (strip text) EmptyString).
    + rewrite bind_ui. unfold st_stop. cbn [snd logged log].
      rewrite <- !app_assoc. apply Hno; [|reflexivity].
      apply (calls_app (fun p c g => p <= 1 /\ c = 0 /\ g = 0)%nat
                       (fun p c g => p = 0 /\ c = 0 /\ g = 0)%nat run_profile);
        [calls_arith | exact Hreads | cbv; auto].
    + destruct (pipeline_and_store_within w (file_key_of f) (strip text) api_key
                  (logged st (pdf_reads (up_content f) (log st))))
        as (evs & Hlog & Hevs).
      rewrite Hlog. cbn [logged log]. rewrite <- app_assoc. apply Hno.
      * apply (calls_app (fun p c g => p <= 1 /\ c = 0 /\ g = 0)%nat
                         after_extraction run_profile);
          [calls_arith | exact Hreads | exact Hevs].
      * now destruct Hevs as [Hp _].
Qed.

(** X22. One run of the script only adds to the log: at most one read of
    the PDF, and none when the memo of the extractor has the bytes; at
    most one configuration of the client; at most two calls of the model,
    and none without a configuration. Without a file, without a
    credential or with an entry for the file it only draws. *)
Theorem run_calls_bounded (w : world) (uploaded_file : option uploaded) (api_key : string)
    (regenerate : bool) (st : state) :
  exists evs : list event,
    log (snd (process_resume w uploaded_file api_key regenerate st)) = log st ++ evs
    /\ calls run_profile evs
    /\ (forall f, uploaded_file = Some f ->
                  memoised (up_content f) (log st) = true ->
                  count_events is_pdf_read evs = 0%nat)
    /\ ((uploaded_file = None \/ api_key = EmptyString
         \/ exists f, uploaded_file = Some f
                      /\ is_Some (session_state st !! file_key_of f)) ->
        only_ui evs).
Proof.
  unfold process_resume.
  destruct uploaded_file as [f|].
  2:{ eexists. split; [reflexivity|].
      split; [unfold calls, run_profile; cbn; repeat split; lia|].
      split; [intros f [=] | reflexivity]. }
  destruct (String.eqb_spec api_key EmptyString) as [->|Hkey].
  { eexists. split; [reflexivity|].
    split; [unfold calls, run_profile; cbn; repeat split; lia|].
    split; reflexivity. }
  destruct (ensure_results_calls w f api_key st) as (e1 & Hlog1 & Hprof & Hmemo & Hpresent).
  assert (Hshow : exists e2,
             log (snd (bind (ensure_results w f api_key)
                            (fun _ => show_results (file_key_of f) regenerate) st))
             = log st ++ e1 ++ e2 /\ only_ui e2).
  { unfold bind. destruct (ensure_results w f api_key st) as [[u|e| |] st1];
      cbn [snd] in *; try (exists []; rewrite app_nil_r; now split).
    destruct (show_results_draws (file_key_of f) regenerate st1) as (e2 & Hlog2 & Hui).
    exists e2. split; [|exact Hui]. now rewrite Hlog2, Hlog1, app_assoc. }
  destruct Hshow as (e2 & Hlog & Hui).
  exists (e1 ++ e2). split; [exact Hlog|].
  pose proof (only_ui_calls (fun p c g => p = 0 /\ c = 0 /\ g = 0)%nat e2
                ltac:(cbv; auto) Hui) as Hzero.
  split; [|split].
  - apply (calls_app run_profile (fun p c g => p = 0 /\ c = 0 /\ g = 0)%nat run_profile
             e1 e2); [calls_arith | exact Hprof | exact Hzero].
  - intros f' [= <-] Hhit. rewrite count_events_app, (Hmemo Hhit).
    now destruct Hzero as [-> _].
  - intros [Hf | [Hk | (f' & [= <-] & Hsome)]]; [discriminate | contradiction |].
    now rewrite (Hpresent Hsome).
Qed.
